(** * Kripke: password-derived envelope encryption (index.js)

    A shallow embedding of [index.js]: the instance API ([Kripke],
    [generateDerivedKey], [sign], [verify], [encrypt], [decrypt]), the static
    API ([Kripke.encrypt], [Kripke.decrypt]) and [compareBuffers].

    Node's [crypto] module and base64 codec are external collaborators: they
    are an interface ([Crypto]) the development is parametric in.  Randomness,
    the order of calls into [crypto] and the invocations of the user's callback
    are threaded through an explicit world state. *)

From Stdlib Require Import ZArith List Bool String Ascii Strings.Byte Lia.
Import ListNotations.
Local Open Scope string_scope.
Local Open Scope Z_scope.

Set Implicit Arguments.

(** ** JavaScript values and strings *)

Definition bytes := list byte.

(** The values the API is documented to receive ([{string|Buffer}]), and the
    two absent values the tests pass. *)
Inductive Value : Type :=
| VUndefined
| VNull
| VStr (s : string)
| VBuf (b : bytes).

(** ToBoolean: [undefined], [null] and [''] are falsy, every object (also an
    empty Buffer) is truthy. *)
Definition truthy (v : Value) : bool :=
  match v with
  | VUndefined | VNull => false
  | VStr s => negb (String.eqb s "")
  | VBuf _ => true
  end.

(** [v.length] for a string or a Buffer. *)
Definition jsLength (v : Value) : option Z :=
  match v with
  | VStr s => Some (Z.of_nat (String.length s))
  | VBuf b => Some (Z.of_nat (List.length b))
  | _ => None
  end.

(** [typeof v === 'string'] *)
Definition isString (v : Value) : bool :=
  match v with VStr _ => true | _ => false end.

Inductive ErrorClass : Type := PlainError | TypeError.

Record JsError : Type := mkError { errClass : ErrorClass; errMessage : string }.

Definition dollar : ascii := "$"%char.

(** [s.split(sep)] for a one-character separator: never the empty array. *)
Fixpoint split (s : string) (sep : ascii) : list string :=
  match s with
  | EmptyString => [EmptyString]
  | String c s' =>
      if Ascii.eqb c sep then EmptyString :: split s' sep
      else match split s' sep with
           | p :: ps => String c p :: ps
           | [] => [String c EmptyString]
           end
  end.

(** [s.lastIndexOf(c)], -1 when [c] does not occur. *)
Fixpoint lastIndexOf (s : string) (c : ascii) : Z :=
  match s with
  | EmptyString => -1
  | String a s' =>
      let r := lastIndexOf s' c in
      if 0 <=? r then r + 1
      else if Ascii.eqb a c then 0 else -1
  end.

(** [s.substr(start, len)]: a negative [start] counts from the end, a
    non-positive [len] gives the empty string. *)
Definition substr (s : string) (start len : Z) : string :=
  let n := Z.of_nat (String.length s) in
  let start' := if start <? 0 then Z.max (n + start) 0 else start in
  if len <=? 0 then EmptyString
  else String.substring (Z.to_nat start') (Z.to_nat len) s.

(** [parts.join(sep)] *)
Fixpoint join (parts : list string) (sep : ascii) : string :=
  match parts with
  | [] => EmptyString
  | [p] => p
  | p :: ps => p ++ String sep (join ps sep)
  end.

(** [c] does not occur in [s]. *)
Fixpoint freeOf (c : ascii) (s : string) : bool :=
  match s with
  | EmptyString => true
  | String a s' => negb (Ascii.eqb a c) && freeOf c s'
  end.

(** ** compareBuffers *)

(** [buffer[i]]: the byte as a number, [undefined] (0 under [^]) out of range. *)
Definition byteAt (b : bytes) (i : nat) : Z :=
  match nth_error b i with
  | Some x => Z.of_N (Byte.to_N x)
  | None => 0
  end.

(** ToInt32: the 32-bit two's complement reading of an integer, which the
    bitwise operators apply to their operands and to their result. *)
Definition toInt32 (z : Z) : Z := (z + 2 ^ 31) mod 2 ^ 32 - 2 ^ 31.

(** [a | b] and [a ^ b] *)
Definition bitOr (a b : Z) : Z := toInt32 (Z.lor (toInt32 a) (toInt32 b)).
Definition bitXor (a b : Z) : Z := toInt32 (Z.lxor (toInt32 a) (toInt32 b)).

(** The [for] loop of [compareBuffers]: [n] iterations remain, [i] is the
    index, [val] the accumulator. *)
Fixpoint compareLoop (n : nat) (i : nat) (buffer1 buffer2 : bytes) (val : Z) : Z :=
  match n with
  | O => val
  | S n' =>
      compareLoop n' (S i) buffer1 buffer2
        (bitOr val (bitXor (byteAt buffer1 i) (byteAt buffer2 i)))
  end.

(** [compareBuffers(buffer1, buffer2)].  Both arguments are Buffers at every
    call site ([hmac.read()] and [new Buffer(.., 'base64')]), so the
    [Buffer.isBuffer] guard never fires and is not part of the typed model. *)
Definition compareBuffers (buffer1 buffer2 : bytes) : bool :=
  if negb (Nat.eqb (List.length buffer1) (List.length buffer2)) then false
  else Z.eqb (compareLoop (List.length buffer1) 0 buffer1 buffer2 0) 0.

(** One step of the accumulation on a pair of bytes, [val | (x ^ y)], in
    unbounded integers. *)
Definition xorAcc (val : Z) (xy : byte * byte) : Z :=
  Z.lor val (Z.lxor (Z.of_N (Byte.to_N (fst xy))) (Z.of_N (Byte.to_N (snd xy)))).

(** ** The world: randomness, calls into [crypto], callback invocations *)

(** The system's entropy source: an unbounded supply of bytes and a cursor. *)
Record Rng : Type := mkRng { entropy : nat -> byte; cursor : nat }.

(** What a run does that the outside can observe, in program order. *)
Inductive Event : Type :=
| EvRandomBytes (n : nat)
| EvPbkdf2 (password : Value) (salt : bytes) (iterations keylen : Z) (digest : string)
| EvHmac (algorithm : string) (hmacKey : Value) (data : string)
| EvCipher (algorithm : string) (derivedKey iv : bytes) (plainText : Value)
| EvDecipher (algorithm : string) (derivedKey iv : bytes) (cipherBytes : bytes)
| EvCallback (err : option JsError) (result : option string).

Record World : Type := mkWorld { rng : Rng; trace : list Event }.

(** A call either returns or throws. *)
Inductive Completion (A : Type) : Type :=
| Returned (a : A)
| Thrown (e : JsError).
Arguments Returned {A} a.
Arguments Thrown {A} e.

(** Effectful code: world passing with exceptions. *)
Definition Eff (A : Type) : Type := World -> World * Completion A.

Definition ret {A} (a : A) : Eff A := fun w => (w, Returned a).

Definition throw {A} (e : JsError) : Eff A := fun w => (w, Thrown e).

Definition bind {A B} (m : Eff A) (k : A -> Eff B) : Eff B :=
  fun w =>
    match m w with
    | (w', Returned a) => k a w'
    | (w', Thrown e) => (w', Thrown e)
    end.

(** [try { body } catch (e) { handler e }]: what [body] did before it threw
    stays done. *)
Definition tryCatch {A} (body : Eff A) (handler : JsError -> Eff A) : Eff A :=
  fun w =>
    match body w with
    | (w', Returned a) => (w', Returned a)
    | (w', Thrown e) => handler e w'
    end.

(** The world once [ev] has happened. *)
Definition after (w : World) (ev : Event) : World :=
  mkWorld (rng w) (trace w ++ [ev]).

Definition emit (ev : Event) : Eff unit :=
  fun w => (after w ev, Returned tt).

(** A primitive that returns or throws, lifted into a run. *)
Definition lift {A} (c : Completion A) : Eff A :=
  match c with
  | Returned a => ret a
  | Thrown e => throw e
  end.

Declare Scope eff_scope.
Delimit Scope eff_scope with eff.
Notation "x <- c ;; k" := (bind c (fun x => k))
  (at level 61, c at next level, right associativity) : eff_scope.
Notation "c ;; k" := (bind c (fun _ => k))
  (at level 61, right associativity) : eff_scope.
Local Open Scope eff_scope.

(** A run from a fresh trace. *)
Definition run {A} (m : Eff A) (r : Rng) : World * Completion A :=
  m (mkWorld r []).

(** The next [n] bytes of the supply, and the supply after them. *)
Definition draw (r : Rng) (n : nat) : bytes := List.map (entropy r) (seq (cursor r) n).
Definition advance (r : Rng) (n : nat) : Rng := mkRng (entropy r) (cursor r + n).

(** [new Buffer(crypto.randomBytes(n))] *)
Definition randomBytes (n : nat) : Eff bytes :=
  fun w =>
    (mkWorld (advance (rng w) n) (trace w ++ [EvRandomBytes n]),
     Returned (draw (rng w) n)).

(** The user's callback: the model records each invocation. *)
Definition callback (err : option JsError) (result : option string) : Eff unit :=
  emit (EvCallback err result).

(** *** Reading a trace *)

(** The arguments of each invocation of the callback, in order. *)
Definition callbacks (tr : list Event) : list (option JsError * option string) :=
  flat_map (fun ev => match ev with
                      | EvCallback err result => [(err, result)]
                      | _ => []
                      end) tr.

(** The results handed to the callback without an error. *)
Definition delivered (tr : list Event) : list string :=
  flat_map (fun ev => match ev with
                      | EvCallback None (Some t) => [t]
                      | _ => []
                      end) tr.

(** The cipher step of [decrypt]. *)
Definition isDecipher (ev : Event) : bool :=
  match ev with EvDecipher _ _ _ _ => true | _ => false end.

(** The key derivations a run asked for, with their arguments. *)
Definition derivations (tr : list Event) : list Event :=
  filter (fun ev => match ev with EvPbkdf2 _ _ _ _ _ => true | _ => false end) tr.

(** ** The [crypto] collaborator *)

(** [crypto.pbkdf2] throws on bad arguments, or calls back later with an error
    or with the derived key. *)
Inductive KdfResult : Type :=
| KdfThrows (e : JsError)
| KdfFails (e : JsError)
| KdfKey (derivedKey : bytes).

Class Crypto : Type := {
  (** [pbkdf2(password, salt, iterations, keylen, digest, cb)] *)
  kdf : Value -> bytes -> Z -> Z -> string -> KdfResult;
  (** [createCipheriv(algorithm, key, iv)], [write(plainText)], [end()]: the
      cipher text bytes *)
  cipherBytes : string -> bytes -> bytes -> Value -> Completion bytes;
  (** [createDecipheriv(algorithm, key, iv)], [write(bytes)], [end()],
      [read()] as utf8 *)
  decipherText : string -> bytes -> bytes -> bytes -> Completion string;
  (** [createHmac(algorithm, key)], [write(data)], [end()]: the digest bytes *)
  hmacBytes : string -> Value -> string -> Completion bytes;
  (** [buffer.toString('base64')] and a stream's base64 encoding *)
  base64Encode : bytes -> string;
  (** [new Buffer(text, 'base64')] *)
  base64Decode : string -> bytes
}.

(** What the proofs ask of a base64 codec. *)
Class Base64Laws (C : Crypto) : Prop := {
  base64_no_dollar : forall b, freeOf dollar (base64Encode b) = true;
  base64_decode_encode : forall b, base64Decode (base64Encode b) = b
}.

(** What the proofs ask of the cipher: deciphering with the key and iv that
    enciphered a text gives that text back. *)
Class CipherLaws (C : Crypto) : Prop := {
  decipher_cipher : forall algorithm derivedKey iv (p : string) c,
    cipherBytes algorithm derivedKey iv (VStr p) = Returned c ->
    decipherText algorithm derivedKey iv c = Returned p
}.

(** ** The verification policy as the specification tabulates it

    Section 4.4 of the specification: what verification does for each
    combination of "an HMAC key is configured" and "the token carries a
    signature", [check] being the comparison of the recomputed HMAC with the
    signature field. *)
Definition policyMatrix (keyRequired noSignature : JsError)
    (keyConfigured signaturePresent : bool) (check : Completion bool) : Completion bool :=
  match keyConfigured, signaturePresent with
  | false, false => Returned true
  | false, true => Thrown keyRequired
  | true, false => Thrown noSignature
  | true, true => check
  end.

(** ** Options, messages, small JavaScript idioms *)

Module Options.
(** The option bag; an absent property is [VUndefined] or [None]. *)
Record t : Type := mk {
  key : Value;
  hmacKey : Value;
  algorithm : option string;
  hmacAlgorithm : option string;
  iterations : option Z;
  keyLength : option Z
}.
End Options.

Definition defaultIterations : Z := 131072.

(** [s || d] for an optional string: absent and [''] are falsy. *)
Definition orString (o : option string) (d : string) : string :=
  match o with
  | Some s => if String.eqb s "" then d else s
  | None => d
  end.

(** [n || d] for an optional number: absent and [0] are falsy. *)
Definition orNumber (o : option Z) (d : Z) : Z :=
  match o with
  | Some n => if n =? 0 then d else n
  | None => d
  end.

(** [l.indexOf(v)] *)
Fixpoint indexOf (l : list Z) (v : Z) : Z :=
  match l with
  | [] => -1
  | x :: l' =>
      if x =? v then 0
      else let r := indexOf l' v in if r <? 0 then -1 else r + 1
  end.

Definition dquote : string := String (Ascii.ascii_of_nat 34) EmptyString.

Definition msgKey : string := "You must provide a " ++ dquote ++ "key" ++ dquote.
Definition msgNoCallback : string := "No callback provided".
Definition msgPlainText : string := "Invalid plain text data".
Definition msgCipherText : string := "Invalid cipher text".
Definition msgEncodedText : string := "Encoded text is invalid".
Definition msgKeyRequired : string :=
  "An " ++ dquote ++ "hmacKey" ++ dquote
  ++ " is required to verify the HMAC signature of the cipher text".
Definition msgNoSignature : string :=
  "An " ++ dquote ++ "hmacKey" ++ dquote
  ++ " was provided but the cipher text does not include an HMAC signature".
Definition msgVerification : string := "HMAC signature verification failed".
(** What [new Buffer(undefined, 'base64')] throws. *)
Definition msgBuffer : string := "First argument needs to be a number, array or string.".

Section Code.
Context {C : Crypto}.

(** [new Buffer(x, 'base64')] where [x] is an array element: a string, which
    decodes whatever it holds, or [undefined] past the end of the array, for
    which the constructor throws a TypeError. *)
Definition newBufferBase64 (x : option string) : Eff bytes :=
  match x with
  | Some s => ret (base64Decode s)
  | None => throw (mkError TypeError msgBuffer)
  end.

(** [crypto.pbkdf2(password, salt, iterations, keylen, digest, cb)].  Node
    runs [cb] after the caller has returned.  In each of the four callers
    nothing observable follows the call to [pbkdf2] (only [if (err)
    callback(err)], with [err] unset), and every [cb] ends in the user's
    callback after catching what its own body throws, so running [cb] in
    place keeps the order of the events and what each [try] catches. *)
Definition pbkdf2 (password : Value) (salt : bytes) (iterations keylen : Z)
    (digest : string) (cb : option JsError -> option bytes -> Eff unit) : Eff unit :=
  emit (EvPbkdf2 password salt iterations keylen digest) ;;
  match kdf password salt iterations keylen digest with
  | KdfThrows e => throw e
  | KdfFails e => cb (Some e) None
  | KdfKey derivedKey => cb None (Some derivedKey)
  end.

(** [createHmac], [write(data)], [end()], [read()] as a Buffer *)
Definition hmacDigest (algorithm : string) (hmacKey : Value) (data : string) : Eff bytes :=
  emit (EvHmac algorithm hmacKey data) ;;
  lift (hmacBytes algorithm hmacKey data).

(** [createCipheriv], [setEncoding('base64')], [write], [end], [read] *)
Definition cipher (algorithm : string) (derivedKey iv : bytes) (plainText : Value)
  : Eff string :=
  emit (EvCipher algorithm derivedKey iv plainText) ;;
  c <- lift (cipherBytes algorithm derivedKey iv plainText) ;;
  ret (base64Encode c).

(** [createDecipheriv], [setEncoding('utf8')], [write(text, 'base64')], [end],
    [read] *)
Definition decipher (algorithm : string) (derivedKey iv : bytes) (text : string)
  : Eff string :=
  emit (EvDecipher algorithm derivedKey iv (base64Decode text)) ;;
  lift (decipherText algorithm derivedKey iv (base64Decode text)).

(** ** The instance *)

(** The constructor's closure variables and [this.algorithm]. *)
Record Instance : Type := mkInstance {
  key : Value;
  hmacKey : Value;
  iterations : Z;
  hmacAlgorithm : string;
  keyLength : Z;
  algorithm : string
}.

(** [new Kripke(options)] *)
Definition Kripke (options : option Options.t) : Completion Instance :=
  match options with
  | Some o =>
      if negb (truthy (Options.key o)) then Thrown (mkError TypeError msgKey)
      else
        Returned
          (mkInstance
             (Options.key o)
             (Options.hmacKey o)
             (orNumber (Options.iterations o) defaultIterations)
             (orString (Options.hmacAlgorithm o) "SHA256")
             (match Options.keyLength o with
              | Some n =>
                  if negb (n =? 0) && (-1 <? indexOf [128; 192; 256] n)
                  then n / 8 else 32
              | None => 32
              end)
             (orString (Options.algorithm o) "AES-256-CBC"))
  | None => Thrown (mkError TypeError msgKey)
  end.

(** [this.generateDerivedKey(salt, callback)]; [salt = None] is the call with
    the callback alone.  The callback is a function at both call sites. *)
Definition generateDerivedKey (self : Instance) (salt : option Value)
    (cb : option JsError -> option bytes -> bytes -> Eff unit) : Eff unit :=
  salt' <- match salt with
           | None => randomBytes 16
           | Some (VBuf b) => ret b
           | Some (VStr s) => ret (base64Decode s)
           | Some _ => throw (mkError TypeError msgBuffer)
           end ;;
  pbkdf2 (key self) salt' (iterations self) (keyLength self) (hmacAlgorithm self)
    (fun err derivedKey => cb err derivedKey salt').

(** [this.sign(data)] *)
Definition sign (self : Instance) (data : string) : Eff string :=
  if truthy (hmacKey self) then
    h <- hmacDigest (hmacAlgorithm self) (hmacKey self) data ;;
    ret (data ++ String dollar (base64Encode h))
  else ret data.

(** [this.verify(encodedData)] *)
Definition verify (self : Instance) (encodedData : string) : Eff bool :=
  let parts := split encodedData dollar in
  if truthy (hmacKey self) || Nat.eqb (List.length parts) 4 then
    if negb (truthy (hmacKey self)) then throw (mkError TypeError msgKeyRequired)
    else if Nat.ltb (List.length parts) 4 then throw (mkError TypeError msgNoSignature)
    else
      h <- hmacDigest (hmacAlgorithm self) (hmacKey self)
             (substr encodedData 0 (lastIndexOf encodedData dollar)) ;;
      signature <- newBufferBase64 (nth_error parts 3) ;;
      ret (compareBuffers h signature)
  else ret true.

(** [!plainText || plainText.length === 0] *)
Definition invalidPlainText (plainText : Value) : bool :=
  negb (truthy plainText)
  || match jsLength plainText with Some n => n =? 0 | None => false end.

(** [!encodedText || typeof encodedText !== 'string'] *)
Definition invalidCipherText (encodedText : Value) : bool :=
  negb (truthy encodedText) || negb (isString encodedText).

(** [Kripke.prototype.encrypt(plainText, callback)]; [hasCallback] is
    [typeof callback === 'function'].  In [if (derivedKey && salt)] the salt
    is the Buffer [generateDerivedKey] made, which is truthy. *)
Definition encrypt (self : Instance) (plainText : Value) (hasCallback : bool) : Eff unit :=
  if negb hasCallback then throw (mkError TypeError msgNoCallback)
  else if invalidPlainText plainText then throw (mkError TypeError msgPlainText)
  else
    generateDerivedKey self None (fun err derivedKey salt =>
      r <- match derivedKey with
           | Some dk =>
               iv <- randomBytes 16 ;;
               tryCatch
                 (cipherText <- cipher (algorithm self) dk iv plainText ;;
                  encodedData <- sign self
                    (cipherText ++ String dollar (base64Encode iv)
                                ++ String dollar (base64Encode salt)) ;;
                  ret (err, Some encodedData))
                 (fun e => ret (Some e, None))
           | None => ret (err, None)
           end ;;
      callback (fst r) (snd r)).

(** [Kripke.prototype.decrypt(encodedText, callback)] *)
Definition decrypt (self : Instance) (encodedText : Value) (hasCallback : bool) : Eff unit :=
  if negb hasCallback then throw (mkError TypeError msgNoCallback)
  else if invalidCipherText encodedText then throw (mkError TypeError msgCipherText)
  else
    match encodedText with
    | VStr text =>
        let cipherValues := split text dollar in
        err <- (if Nat.leb 3 (List.length cipherValues) then
                  iv <- newBufferBase64 (nth_error cipherValues 1) ;;
                  salt <- newBufferBase64 (nth_error cipherValues 2) ;;
                  tryCatch
                    (ok <- verify self text ;;
                     if ok then
                       generateDerivedKey self (Some (VBuf salt))
                         (fun _ derivedKey _ =>
                            r <- match derivedKey with
                                 | Some dk =>
                                     tryCatch
                                       (decryptedText <-
                                          decipher (algorithm self) dk iv
                                            (hd EmptyString cipherValues) ;;
                                        ret (None, Some decryptedText))
                                       (fun e => ret (Some e, None))
                                 | None => ret (None, None)
                                 end ;;
                            callback (fst r) (snd r)) ;;
                       ret None
                     else ret (Some (mkError PlainError msgVerification)))
                    (fun e => ret (Some e))
                else ret (Some (mkError TypeError msgEncodedText))) ;;
        match err with
        | Some e => callback (Some e) None
        | None => ret tt
        end
    | _ => throw (mkError TypeError msgCipherText)
    end.

(** ** The static functions *)

(** [Kripke.encrypt(plainText, options, callback)].  The defaults it writes
    back into [options] are the values it goes on to read, which is all the
    model keeps of that assignment.  The derived key length is the literal
    32; [options.keyLength] is not read.  The source has one [try] around the
    cipher and the HMAC: [encodedData] is already assigned when the HMAC
    throws, and still undefined when the cipher does, hence the two handlers. *)
Definition Kripke_encrypt (plainText : Value) (options : Options.t) (hasCallback : bool)
  : Eff unit :=
  if negb hasCallback then throw (mkError PlainError msgNoCallback)
  else if negb (truthy (Options.key options)) then throw (mkError TypeError msgKey)
  else if invalidPlainText plainText then throw (mkError TypeError msgPlainText)
  else
    let algorithm := orString (Options.algorithm options) "AES-256-CBC" in
    let hmacAlgorithm := orString (Options.hmacAlgorithm options) "SHA256" in
    let iterations := orNumber (Options.iterations options) defaultIterations in
    iv <- randomBytes 16 ;;
    salt <- randomBytes 16 ;;
    err <- tryCatch
             (pbkdf2 (Options.key options) salt iterations 32 hmacAlgorithm
                (fun err derivedKey =>
                   r <- match derivedKey with
                        | Some dk =>
                            tryCatch
                              (cipherText <- cipher algorithm dk iv plainText ;;
                               let encodedData :=
                                 cipherText ++ String dollar (base64Encode iv)
                                            ++ String dollar (base64Encode salt) in
                               if truthy (Options.hmacKey options) then
                                 tryCatch
                                   (h <- hmacDigest hmacAlgorithm (Options.hmacKey options)
                                           encodedData ;;
                                    ret (err, Some (encodedData
                                                    ++ String dollar (base64Encode h))))
                                   (fun e => ret (Some e, Some encodedData))
                               else ret (err, Some encodedData))
                              (fun e => ret (Some e, None))
                        | None => ret (err, None)
                        end ;;
                   callback (fst r) (snd r)) ;;
              ret None)
             (fun e => ret (Some e)) ;;
    match err with
    | Some e => callback (Some e) None
    | None => ret tt
    end.

(** The verification block of [Kripke.decrypt] (its lines 304 to 323): the
    value of [err] when the block is left. *)
Definition Kripke_decrypt_verify (options : Options.t) (hmacAlgorithm : string)
    (encodedText : string) (cipherValues : list string) : Eff (option JsError) :=
  if truthy (Options.hmacKey options) || Nat.eqb (List.length cipherValues) 4 then
    let err :=
      if negb (truthy (Options.hmacKey options))
      then Some (mkError TypeError msgKeyRequired)
      else if Nat.ltb (List.length cipherValues) 4
           then Some (mkError TypeError msgNoSignature)
           else None in
    match err with
    | None =>
        tryCatch
          (h <- hmacDigest hmacAlgorithm (Options.hmacKey options)
                  (substr encodedText 0 (lastIndexOf encodedText dollar)) ;;
           signature <- newBufferBase64 (nth_error cipherValues 3) ;;
           if negb (compareBuffers h signature)
           then ret (Some (mkError PlainError msgVerification))
           else ret None)
          (fun e => ret (Some e))
    | Some e => ret (Some e)
    end
  else ret None.

(** [Kripke.decrypt(encodedText, options, callback)] *)
Definition Kripke_decrypt (encodedText : Value) (options : Options.t) (hasCallback : bool)
  : Eff unit :=
  if negb hasCallback then throw (mkError PlainError msgNoCallback)
  else if invalidCipherText encodedText then throw (mkError TypeError msgCipherText)
  else if negb (truthy (Options.key options)) then throw (mkError TypeError msgKey)
  else
    match encodedText with
    | VStr text =>
        let algorithm := orString (Options.algorithm options) "AES-256-CBC" in
        let hmacAlgorithm := orString (Options.hmacAlgorithm options) "SHA256" in
        let iterations := orNumber (Options.iterations options) defaultIterations in
        let cipherValues := split text dollar in
        iv <- newBufferBase64 (nth_error cipherValues 1) ;;
        salt <- newBufferBase64 (nth_error cipherValues 2) ;;
        err <- Kripke_decrypt_verify options hmacAlgorithm text cipherValues ;;
        match err with
        | None =>
            pbkdf2 (Options.key options) salt iterations 32 hmacAlgorithm
              (fun err derivedKey =>
                 r <- match derivedKey with
                      | Some dk =>
                          tryCatch
                            (decipheredText <-
                               decipher algorithm dk iv (hd EmptyString cipherValues) ;;
                             ret (err, Some decipheredText))
                            (fun e => ret (Some e, None))
                      | None => ret (err, None)
                      end ;;
                 callback (fst r) (snd r))
        | Some e => callback (Some e) None
        end
    | _ => throw (mkError TypeError msgCipherText)
    end.

End Code.

(** ** A reference collaborator

    A small lawful implementation of the [Crypto] interface on which the model
    runs on concrete inputs.  It keeps what the code can observe of Node's
    module: the derived key has the requested length, a cipher refuses a key
    of the wrong length for its name, an unknown digest makes [pbkdf2] throw,
    and the text codec never produces the delimiter. *)
Module Ref.

Definition byteOfN (n : N) : byte :=
  match Byte.of_N n with Some b => b | None => x00 end.

(** Two letters of [A..P] per byte. *)
Fixpoint encode (bs : bytes) : string :=
  match bs with
  | [] => EmptyString
  | b :: bs' =>
      let n := Byte.to_N b in
      String (ascii_of_N (65 + n / 16))
        (String (ascii_of_N (65 + n mod 16)) (encode bs'))
  end.

Fixpoint decode (s : string) : bytes :=
  match s with
  | String c1 (String c2 s') =>
      byteOfN ((N_of_ascii c1 - 65) * 16 + (N_of_ascii c2 - 65)) :: decode s'
  | _ => []
  end.

Definition bytesOf (v : Value) : bytes :=
  match v with
  | VStr s => list_byte_of_string s
  | VBuf b => b
  | _ => []
  end.

Definition knownDigest (digest : string) : bool :=
  String.eqb digest "SHA256" || String.eqb digest "SHA1".

(** The key length a cipher name asks for. *)
Definition cipherKeyLength (algorithm : string) : option nat :=
  if String.eqb algorithm "AES-256-CBC" then Some 32%nat
  else if String.eqb algorithm "AES-192-CBC" then Some 24%nat
  else if String.eqb algorithm "AES-128-CBC" then Some 16%nat
  else None.

Definition kdf (password : Value) (salt : bytes) (iterations keylen : Z)
    (digest : string) : KdfResult :=
  if negb (knownDigest digest) then KdfThrows (mkError TypeError "Bad digest name")
  else if iterations <=? 0 then KdfThrows (mkError TypeError "Bad iterations")
  else
    let material :=
      (bytesOf password ++ salt ++ [byteOfN (Z.to_N (iterations mod 256))])%list in
    KdfKey (List.map
              (fun i => nth (i mod List.length material)%nat material x00)
              (seq 0 (Z.to_nat keylen))).

Definition checkKey (algorithm : string) (derivedKey iv : bytes) : option JsError :=
  match cipherKeyLength algorithm with
  | None => Some (mkError PlainError "Unknown cipher")
  | Some n =>
      if negb (Nat.eqb (List.length derivedKey) n)
      then Some (mkError PlainError "Invalid key length")
      else if negb (Nat.eqb (List.length iv) 16)
           then Some (mkError PlainError "Invalid IV length")
           else None
  end.

(** The cipher text is the key followed by the plain text backwards. *)
Definition cipherBytes (algorithm : string) (derivedKey iv : bytes) (plainText : Value)
  : Completion bytes :=
  match checkKey algorithm derivedKey iv with
  | Some e => Thrown e
  | None => Returned (derivedKey ++ rev (bytesOf plainText))%list
  end.

Fixpoint stripPrefix (p l : bytes) : option bytes :=
  match p, l with
  | [], _ => Some l
  | x :: p', y :: l' => if Byte.eqb x y then stripPrefix p' l' else None
  | _ :: _, [] => None
  end.

Definition decipherText (algorithm : string) (derivedKey iv : bytes) (c : bytes)
  : Completion string :=
  match checkKey algorithm derivedKey iv with
  | Some e => Thrown e
  | None =>
      match stripPrefix derivedKey c with
      | Some body => Returned (string_of_list_byte (rev body))
      | None => Thrown (mkError PlainError "bad decrypt")
      end
  end.

Definition hmacBytes (algorithm : string) (hmacKey : Value) (data : string)
  : Completion bytes :=
  if negb (knownDigest algorithm) then Thrown (mkError PlainError "Unknown message digest")
  else Returned (bytesOf hmacKey ++ rev (list_byte_of_string data))%list.

Definition crypto : Crypto :=
  Build_Crypto kdf cipherBytes decipherText hmacBytes encode decode.

(** An entropy source: byte [i] of the supply is [i mod 256]. *)
Definition rng0 : Rng := mkRng (fun i => byteOfN (N.of_nat (i mod 256))) 0.

(** The same supply with its first two blocks of 16 bytes exchanged: what
    one form draws as salt the other draws as iv. *)
Definition rngSwapped : Rng :=
  mkRng (fun i => byteOfN (N.of_nat (if Nat.ltb i 32 then (i + 16) mod 32 else i mod 256))) 0.

(** [{ key: 'secret', iterations: 10000 }] *)
Definition options1 : Options.t :=
  Options.mk (VStr "secret") VUndefined None None (Some 10000) None.

(** [{ key: 'secret', hmacKey: 'hk', iterations: 10000 }] *)
Definition options2 : Options.t :=
  Options.mk (VStr "secret") (VStr "hk") None None (Some 10000) None.

(** [{ key: 'secret', algorithm: 'AES-128-CBC', keyLength: 128 }] *)
Definition options128 : Options.t :=
  Options.mk (VStr "secret") VUndefined (Some "AES-128-CBC") None (Some 10000) (Some 128).

(** [{ key: 'secret', hmacAlgorithm: 'nope' }] *)
Definition optionsBadDigest : Options.t :=
  Options.mk (VStr "secret") VUndefined None (Some "nope") None None.

(** The instance [new Kripke(o)], for options with a key. *)
Definition instanceOf (o : Options.t) : Instance :=
  match Kripke (Some o) with
  | Returned k => k
  | Thrown _ => mkInstance VUndefined VUndefined 0 "" 0 ""
  end.

End Ref.

(** ** Vocabulary of the statements *)

(** The comparison of the policy's last row: the HMAC of the first three
    fields joined by the delimiter, against the decoded fourth field. *)
Definition hmacCheck {C : Crypto} (algorithm : string) (hmacKey : Value)
    (parts : list string) : Completion bool :=
  match hmacBytes algorithm hmacKey (join (firstn 3 parts) dollar) with
  | Returned h => Returned (compareBuffers h (base64Decode (nth 3 parts EmptyString)))
  | Thrown e => Thrown e
  end.

(** The error [Kripke.decrypt] keeps for a verdict. *)
Definition errOfVerdict (c : Completion bool) : option JsError :=
  match c with
  | Returned true => None
  | Returned false => Some (mkError PlainError msgVerification)
  | Thrown e => Some e
  end.

(** The caller got one error and nothing else: either the call threw and the
    callback was never invoked, or it returned and the callback was invoked
    once, with an error and no result. *)
Definition singleError (out : World * Completion unit) : Prop :=
  (exists e, snd out = Thrown e /\ callbacks (trace (fst out)) = [])
  \/ (exists e, snd out = Returned tt
                /\ callbacks (trace (fst out)) = [(Some e, None)]).

(** The token before it is signed: [cipherText + '$' + iv + '$' + salt]. *)
Definition envelope {C : Crypto} (cipherText : string) (iv salt : bytes) : string :=
  cipherText ++ String dollar (base64Encode iv) ++ String dollar (base64Encode salt).

(** A configuration is valid for a run that draws [salt] and [iv] when the
    key derivation yields a key, the cipher accepts that key for the plain
    text at hand (a string or a Buffer), and the HMAC, if a key for it is
    configured, can be computed. *)
Definition validConfiguration {C : Crypto} (key : Value) (iterations keylen : Z)
    (hmacAlgorithm algorithm : string) (hmacKey : Value) (salt iv : bytes)
    (plainText : Value) : Prop :=
  exists dk,
    kdf key salt iterations keylen hmacAlgorithm = KdfKey dk
    /\ (exists c, cipherBytes algorithm dk iv plainText = Returned c)
    /\ (truthy hmacKey = true ->
        forall data, exists h, hmacBytes hmacAlgorithm hmacKey data = Returned h).

(** The decipher of the named algorithm reads the text [t] back from what its
    cipher makes of [plainText], with the key and iv that enciphered it.
    [decipher.end()] is read with [setEncoding('utf8')], so [t] is a string
    whatever [plainText] was: for a string and a cipher that inverts,
    [readsBack algorithm (VStr s) s]; for a Buffer, [t] is the utf8 reading of
    its bytes. *)
Definition readsBack {C : Crypto} (algorithm : string) (plainText : Value) (t : string)
    : Prop :=
  forall dk iv c,
    cipherBytes algorithm dk iv plainText = Returned c ->
    decipherText algorithm dk iv c = Returned t.

(** A [decrypt] call was refused before the cipher step: the caller got a
    single error, no plain text was handed over, and nothing was
    deciphered. *)
Definition refused (out : World * Completion unit) : Prop :=
  singleError out
  /\ delivered (trace (fst out)) = []
  /\ existsb isDecipher (trace (fst out)) = false.

(** The fields of a token: three base64 fields (cipher text, iv, salt), and a
    fourth (the signature) exactly when the token is signed. *)
Definition tokenFields {C : Crypto} (signed : bool) (token : string) : Prop :=
  exists c iv salt,
    if signed
    then exists h, split token dollar
                   = [base64Encode c; base64Encode iv; base64Encode salt; base64Encode h]
    else split token dollar = [base64Encode c; base64Encode iv; base64Encode salt].

(** ** The options after a static call

    [Kripke.encrypt] and [Kripke.decrypt] assign to the caller's object:
    [options.algorithm = options.algorithm || 'AES-256-CBC'], and likewise
    [hmacAlgorithm] and [iterations].  [defaulted o] is the object these three
    assignments leave; the other properties are not written. *)
Definition defaulted (o : Options.t) : Options.t :=
  Options.mk
    (Options.key o)
    (Options.hmacKey o)
    (Some (orString (Options.algorithm o) "AES-256-CBC"))
    (Some (orString (Options.hmacAlgorithm o) "SHA256"))
    (Some (orNumber (Options.iterations o) defaultIterations))
    (Options.keyLength o).

(** ** Collaborators that fail

    The reference collaborator with a [pbkdf2] that calls back with an error,
    and with an HMAC that throws. *)
Definition refKdfFails : Crypto :=
  Build_Crypto
    (fun _ _ _ _ _ => KdfFails (mkError PlainError "pbkdf2 failed"))
    Ref.cipherBytes Ref.decipherText Ref.hmacBytes Ref.encode Ref.decode.

Definition refHmacThrows : Crypto :=
  Build_Crypto Ref.kdf Ref.cipherBytes Ref.decipherText
    (fun _ _ _ => Thrown (mkError TypeError "Not a string or buffer"))
    Ref.encode Ref.decode.

(** ** More vocabulary *)

(** The call kept the callback contract: it threw and never called back, or
    it returned and called back exactly once. *)
Definition oneOutcome (out : World * Completion unit) : Prop :=
  (exists e, snd out = Thrown e /\ callbacks (trace (fst out)) = [])
  \/ (snd out = Returned tt /\ List.length (callbacks (trace (fst out))) = 1%nat).

(** No invocation of the callback got an error and a result together. *)
Definition errorOrResult (tr : list Event) : Prop :=
  Forall (fun cb => fst cb = None \/ snd cb = None) (callbacks tr).

(** The HMAC computations of a run. *)
Definition hmacs (tr : list Event) : list Event :=
  filter (fun ev => match ev with EvHmac _ _ _ => true | _ => false end) tr.

(** * Properties *)

(** ** Strings: [split], [lastIndexOf], [substr], [join] *)

Section Strings.
Variable sep : ascii.

Lemma split_not_nil (s : string) : split s sep <> [].
Proof.
  destruct s as [|c s]; simpl; [discriminate|].
  destruct (Ascii.eqb c sep); [discriminate|].
  destruct (split s sep); discriminate.
Qed.

Lemma split_free (s : string) : freeOf sep s = true -> split s sep = [s].
Proof.
  induction s as [|c s IH]; simpl; [reflexivity|].
  intros H. apply andb_true_iff in H. destruct H as [Hc Hs].
  apply negb_true_iff in Hc. rewrite Hc, (IH Hs). reflexivity.
Qed.

Lemma split_app (a b : string) :
  freeOf sep a = true -> split (a ++ String sep b) sep = a :: split b sep.
Proof.
  induction a as [|c a IH]; simpl.
  - intros _. rewrite Ascii.eqb_refl. reflexivity.
  - intros H. apply andb_true_iff in H. destruct H as [Hc Ha].
    apply negb_true_iff in Hc. rewrite Hc, (IH Ha). reflexivity.
Qed.

Lemma split_fields_free (s : string) : Forall (fun p => freeOf sep p = true) (split s sep).
Proof.
  induction s as [|c s IH]; simpl.
  - constructor; [reflexivity | constructor].
  - destruct (Ascii.eqb c sep) eqn:E.
    + constructor; [reflexivity | exact IH].
    + destruct (split s sep) as [|p ps].
      * constructor; [simpl; rewrite E; reflexivity | constructor].
      * inversion IH; subst. constructor; [simpl; rewrite E; simpl; assumption | assumption].
Qed.

Lemma join_split (s : string) : join (split s sep) sep = s.
Proof.
  induction s as [|c s IH]; simpl; [reflexivity|].
  destruct (Ascii.eqb c sep) eqn:E.
  - apply Ascii.eqb_eq in E. subst c.
    generalize (split_not_nil s). destruct (split s sep) as [|p ps]; [congruence|].
    intros _. simpl. f_equal. exact IH.
  - generalize (split_not_nil s). destruct (split s sep) as [|p ps]; [congruence|].
    intros _. destruct ps as [|q ps]; simpl in *; f_equal; exact IH.
Qed.

Lemma append_assoc (a b c : string) : (a ++ b) ++ c = a ++ (b ++ c).
Proof. induction a as [|x a IH]; simpl; [reflexivity | f_equal; exact IH]. Qed.

Lemma join_snoc (l : list string) (d : string) :
  l <> [] -> join (l ++ [d]) sep = join l sep ++ String sep d.
Proof.
  induction l as [|p l IH]; [congruence|]. intros _.
  destruct l as [|q l]; [reflexivity|].
  change (join ((p :: q :: l) ++ [d]) sep) with (p ++ String sep (join ((q :: l) ++ [d]) sep)).
  rewrite IH by discriminate.
  change (join (p :: q :: l) sep) with (p ++ String sep (join (q :: l) sep)).
  rewrite append_assoc. reflexivity.
Qed.

Lemma lastIndexOf_free (s : string) : freeOf sep s = true -> lastIndexOf s sep = -1.
Proof.
  induction s as [|c s IH]; simpl; [reflexivity|].
  intros H. apply andb_true_iff in H. destruct H as [Hc Hs].
  apply negb_true_iff in Hc. rewrite (IH Hs), Hc. reflexivity.
Qed.

Lemma lastIndexOf_app (a b : string) :
  freeOf sep b = true ->
  lastIndexOf (a ++ String sep b) sep = Z.of_nat (String.length a).
Proof.
  intros Hb. induction a as [|c a IH].
  - simpl. rewrite (lastIndexOf_free _ Hb), Ascii.eqb_refl. reflexivity.
  - cbn [String.append lastIndexOf String.length]. rewrite IH.
    destruct (0 <=? Z.of_nat (String.length a)) eqn:E; [lia|].
    apply Z.leb_gt in E. lia.
Qed.

Lemma substring_prefix (a b : string) :
  String.substring 0 (String.length a) (a ++ b) = a.
Proof.
  induction a as [|c a IH]; simpl.
  - destruct b; reflexivity.
  - f_equal. exact IH.
Qed.

Lemma substr_prefix (a b : string) :
  substr (a ++ b) 0 (Z.of_nat (String.length a)) = a.
Proof.
  unfold substr. simpl (0 <? 0).
  destruct (Z.of_nat (String.length a) <=? 0) eqn:E.
  - apply Z.leb_le in E. destruct a; [reflexivity | simpl in E; lia].
  - rewrite Nat2Z.id. apply substring_prefix.
Qed.

(** The text before the last separator is the fields but the last, joined. *)
Lemma substr_lastIndexOf (s : string) :
  (2 <= List.length (split s sep))%nat ->
  substr s 0 (lastIndexOf s sep) = join (removelast (split s sep)) sep.
Proof.
  intros Hlen.
  pose proof (split_fields_free s) as Hfree.
  pose proof (join_split s) as Hjoin.
  destruct (exists_last (split_not_nil s)) as [l [d Hl]].
  rewrite Hl in *. rewrite removelast_last.
  assert (Hne : l <> []) by (destruct l; [simpl in Hlen; lia | discriminate]).
  rewrite join_snoc in Hjoin by assumption.
  apply Forall_app in Hfree. destruct Hfree as [_ Hd].
  inversion Hd as [|? ? Hdfree _].
  rewrite <- Hjoin at 1 2.
  rewrite lastIndexOf_app by assumption.
  apply substr_prefix.
Qed.

End Strings.

(** ** [compareBuffers] *)

Local Open Scope list_scope.

Lemma toInt32_small (z : Z) : - 2 ^ 31 <= z < 2 ^ 31 -> toInt32 z = z.
Proof. intros H. unfold toInt32. rewrite Z.mod_small; lia. Qed.

Lemma log2_byte (a : Z) : 0 <= a < 256 -> Z.log2 a < 8.
Proof.
  intros H. destruct (Z.eq_dec a 0) as [->|Hn]; [reflexivity|].
  apply Z.log2_lt_pow2; lia.
Qed.

Lemma below_256 (a : Z) : 0 <= a -> Z.log2 a < 8 -> a < 256.
Proof.
  intros H0 H. destruct (Z.eq_dec a 0) as [->|Hn]; [lia|].
  change 256 with (2 ^ 8). apply Z.log2_lt_pow2; lia.
Qed.

Lemma lor_byte (a b : Z) : 0 <= a < 256 -> 0 <= b < 256 -> 0 <= Z.lor a b < 256.
Proof.
  intros Ha Hb.
  assert (H0 : 0 <= Z.lor a b) by (apply Z.lor_nonneg; lia).
  split; [exact H0|]. apply below_256; [exact H0|].
  rewrite Z.log2_lor by lia.
  pose proof (log2_byte Ha). pose proof (log2_byte Hb). lia.
Qed.

Lemma lxor_byte (a b : Z) : 0 <= a < 256 -> 0 <= b < 256 -> 0 <= Z.lxor a b < 256.
Proof.
  intros Ha Hb.
  assert (H0 : 0 <= Z.lxor a b) by (apply Z.lxor_nonneg; lia).
  split; [exact H0|]. apply below_256; [exact H0|].
  pose proof (Z.log2_lxor a b ltac:(lia) ltac:(lia)).
  pose proof (log2_byte Ha). pose proof (log2_byte Hb). lia.
Qed.

(** On bytes the 32-bit operators are the operators on integers. *)
Lemma bitXor_byte (a b : Z) :
  0 <= a < 256 -> 0 <= b < 256 -> bitXor a b = Z.lxor a b.
Proof.
  intros Ha Hb. unfold bitXor. pose proof (lxor_byte Ha Hb).
  rewrite (@toInt32_small a), (@toInt32_small b) by lia.
  apply toInt32_small. lia.
Qed.

Lemma bitOr_byte (a b : Z) :
  0 <= a < 256 -> 0 <= b < 256 -> bitOr a b = Z.lor a b.
Proof.
  intros Ha Hb. unfold bitOr. pose proof (lor_byte Ha Hb).
  rewrite (@toInt32_small a), (@toInt32_small b) by lia.
  apply toInt32_small. lia.
Qed.

Lemma byte_range (x : byte) : 0 <= Z.of_N (Byte.to_N x) < 256.
Proof. pose proof (Byte.to_N_bounded x). lia. Qed.

Lemma xorAcc_range (val : Z) (xy : byte * byte) :
  0 <= val < 256 -> 0 <= xorAcc val xy < 256.
Proof.
  intros H. unfold xorAcc. apply lor_byte; [exact H|].
  apply lxor_byte; apply byte_range.
Qed.

Lemma byteAt_app (pre l : bytes) (x : byte) :
  byteAt (pre ++ x :: l) (List.length pre) = Z.of_N (Byte.to_N x).
Proof.
  unfold byteAt. rewrite nth_error_app2 by lia.
  rewrite Nat.sub_diag. reflexivity.
Qed.

(** The loop is a left fold over the two buffers side by side. *)
Lemma compareLoop_fold (l1 : bytes) :
  forall (l2 pre1 pre2 : bytes) (val : Z),
    0 <= val < 256 ->
    List.length pre1 = List.length pre2 ->
    List.length l1 = List.length l2 ->
    compareLoop (List.length l1) (List.length pre1) (pre1 ++ l1) (pre2 ++ l2) val
    = fold_left xorAcc (combine l1 l2) val.
Proof.
  induction l1 as [|x l1 IH]; intros l2 pre1 pre2 val Hval Hpre Hlen.
  - reflexivity.
  - destruct l2 as [|y l2]; [discriminate|].
    cbn [List.length compareLoop combine fold_left].
    rewrite byteAt_app. rewrite Hpre at 2. rewrite byteAt_app.
    rewrite bitXor_byte by apply byte_range.
    rewrite bitOr_byte by (try exact Hval; apply lxor_byte; apply byte_range).
    change (Z.lor val (Z.lxor (Z.of_N (Byte.to_N x)) (Z.of_N (Byte.to_N y))))
      with (xorAcc val (x, y)).
    specialize (IH l2 (pre1 ++ [x]) (pre2 ++ [y]) (xorAcc val (x, y))).
    rewrite !length_app in IH. cbn [List.length] in IH.
    rewrite Nat.add_1_r in IH. rewrite <- !app_assoc in IH. cbn [app] in IH.
    rewrite IH; [reflexivity | apply xorAcc_range; exact Hval | lia | simpl in Hlen; lia].
Qed.

Lemma byte_to_Z_inj (x y : byte) :
  Z.of_N (Byte.to_N x) = Z.of_N (Byte.to_N y) -> x = y.
Proof.
  intros H. apply N2Z.inj in H.
  pose proof (Byte.of_to_N x) as Hx. rewrite H, Byte.of_to_N in Hx. congruence.
Qed.

Lemma fold_xorAcc_zero (l1 : bytes) :
  forall (l2 : bytes) (val : Z),
    List.length l1 = List.length l2 ->
    (fold_left xorAcc (combine l1 l2) val = 0 <-> val = 0 /\ l1 = l2).
Proof.
  induction l1 as [|x l1 IH]; intros l2 val Hlen; destruct l2 as [|y l2]; try discriminate.
  - simpl. intuition.
  - cbn [combine fold_left]. rewrite IH by (simpl in Hlen; lia).
    unfold xorAcc. cbn [fst snd]. rewrite Z.lor_eq_0_iff, Z.lxor_eq_0_iff.
    split.
    + intros [[Hv Hxy] Hl]. apply byte_to_Z_inj in Hxy. subst. auto.
    + intros [Hv Hl]. inversion Hl; subst. auto.
Qed.

Lemma compareBuffers_fold (b1 b2 : bytes) :
  List.length b1 = List.length b2 ->
  compareBuffers b1 b2 = (fold_left xorAcc (combine b1 b2) 0 =? 0).
Proof.
  intros Hlen. unfold compareBuffers.
  rewrite Hlen, Nat.eqb_refl. cbn [negb]. rewrite <- Hlen.
  pose proof (@compareLoop_fold b1 b2 [] [] 0 ltac:(lia) eq_refl Hlen) as H.
  cbn [app List.length] in H. rewrite H. reflexivity.
Qed.

Lemma compareBuffers_refl (b : bytes) : compareBuffers b b = true.
Proof.
  rewrite compareBuffers_fold by reflexivity.
  apply Z.eqb_eq. apply fold_xorAcc_zero; auto.
Qed.

(** C7: [compareBuffers] returns [true] exactly when the two buffers have the
    same length and the same bytes.  On buffers of one length it is the test
    that the OR-accumulated XOR of the bytes, taken pairwise, is zero; on
    buffers of different lengths it is [false]. *)
Theorem compareBuffers_correct (buffer1 buffer2 : bytes) :
  (compareBuffers buffer1 buffer2 = true
   <-> List.length buffer1 = List.length buffer2 /\ buffer1 = buffer2)
  /\ (List.length buffer1 = List.length buffer2 ->
      compareBuffers buffer1 buffer2
      = (fold_left xorAcc (combine buffer1 buffer2) 0 =? 0))
  /\ (List.length buffer1 <> List.length buffer2 ->
      compareBuffers buffer1 buffer2 = false).
Proof.
  split; [|split].
  - split.
    + intros H. unfold compareBuffers in H.
      destruct (Nat.eqb (List.length buffer1) (List.length buffer2)) eqn:E;
        [|discriminate].
      apply Nat.eqb_eq in E. split; [exact E|].
      cbn [negb] in H.
      pose proof (@compareLoop_fold buffer1 buffer2 [] [] 0 ltac:(lia) eq_refl E) as Hfold.
      cbn [app List.length] in Hfold. rewrite Hfold in H.
      apply Z.eqb_eq in H. apply fold_xorAcc_zero in H; tauto.
    + intros [_ ->]. apply compareBuffers_refl.
  - apply compareBuffers_fold.
  - intros H. unfold compareBuffers.
    apply Nat.eqb_neq in H. rewrite H. reflexivity.
Qed.

(** ** The constructor *)

Local Open Scope string_scope.
Local Open Scope Z_scope.

Lemma Kripke_throws_only_for_key (o : option Options.t) (e : JsError) :
  Kripke o = Thrown e -> e = mkError TypeError msgKey.
Proof.
  destruct o as [o|]; simpl.
  - destruct (truthy (Options.key o)); simpl; congruence.
  - congruence.
Qed.

(** The three supported lengths are the only ones the constructor keeps. *)
Lemma Kripke_keyLength_supported (o : Options.t) (k : Instance) :
  Kripke (Some o) = Returned k ->
  (Options.keyLength o = Some 128 -> keyLength k = 16)
  /\ (Options.keyLength o = Some 192 -> keyLength k = 24)
  /\ (Options.keyLength o = Some 256 -> keyLength k = 32).
Proof.
  simpl. destruct (truthy (Options.key o)); simpl; [|discriminate].
  intros H. injection H as <-. simpl.
  repeat split; intros ->; reflexivity.
Qed.

Lemma indexOf_supported (n : Z) :
  (-1 <? indexOf [128; 192; 256] n) = true -> n = 128 \/ n = 192 \/ n = 256.
Proof.
  cbn [indexOf].
  destruct (128 =? n) eqn:E1; [apply Z.eqb_eq in E1; auto|].
  destruct (192 =? n) eqn:E2; [apply Z.eqb_eq in E2; auto|].
  destruct (256 =? n) eqn:E3; [apply Z.eqb_eq in E3; auto|].
  cbn. intros H. discriminate H.
Qed.

(** C9: with a [keyLength] option that is absent or not one of 128, 192 and
    256, construction does not fail on that account: given a key it returns an
    instance whose derived-key length is 32 bytes, and the only error the
    constructor ever throws is the one for a missing key. *)
Theorem Kripke_keyLength_default (o : Options.t) :
  (forall n, Options.keyLength o = Some n -> n <> 128 /\ n <> 192 /\ n <> 256) ->
  (truthy (Options.key o) = true ->
   exists k, Kripke (Some o) = Returned k /\ keyLength k = 32)
  /\ (forall e, Kripke (Some o) = Thrown e ->
      e = mkError TypeError msgKey /\ truthy (Options.key o) = false).
Proof.
  intros Hn. split.
  - intros Hkey. unfold Kripke. rewrite Hkey. cbn [negb].
    eexists. split; [reflexivity|].
    cbn [keyLength]. destruct (Options.keyLength o) as [n|]; [|reflexivity].
    destruct (negb (n =? 0) && (-1 <? indexOf [128; 192; 256] n)) eqn:E; [|reflexivity].
    apply andb_true_iff in E. destruct E as [_ E].
    apply indexOf_supported in E. specialize (Hn n eq_refl). lia.
  - intros e He. split; [exact (Kripke_throws_only_for_key _ He)|].
    simpl in He. destruct (truthy (Options.key o)); [discriminate | reflexivity].
Qed.

Lemma Kripke_keyLength_default_witness :
  let o := Options.mk (VStr "secret") VUndefined None None None (Some 512) in
  (truthy (Options.key o) = true ->
   exists k, Kripke (Some o) = Returned k /\ keyLength k = 32)
  /\ (forall e, Kripke (Some o) = Thrown e ->
      e = mkError TypeError msgKey /\ truthy (Options.key o) = false).
Proof.
  apply (Kripke_keyLength_default
           (Options.mk (VStr "secret") VUndefined None None None (Some 512))).
  simpl. intros n H. injection H as <-. lia.
Defined.

(** ** Argument validation *)

Section Validation.
Context {C : Crypto}.

(** C8: an empty plain text, as a string or as a Buffer, makes [encrypt] throw
    before anything else happens (no call into [crypto], no callback, no
    randomness drawn), and so does a token that is empty or not a string for
    [decrypt]; with a callback (and, for the static [encrypt], a key) the error
    is the invalid-input one. *)
Theorem empty_input_rejected (self : Instance) (o : Options.t) (hasCallback : bool)
    (b : bytes) (r : Rng) :
  let noCallback cls := mkError cls msgNoCallback in
  let instanceErr := if hasCallback then mkError TypeError msgPlainText
                     else noCallback TypeError in
  let staticErr := if hasCallback
                   then if truthy (Options.key o) then mkError TypeError msgPlainText
                        else mkError TypeError msgKey
                   else noCallback PlainError in
  let instanceTokenErr := if hasCallback then mkError TypeError msgCipherText
                          else noCallback TypeError in
  let staticTokenErr := if hasCallback then mkError TypeError msgCipherText
                        else noCallback PlainError in
  (run (encrypt self (VStr "") hasCallback) r = (mkWorld r [], Thrown instanceErr)
   /\ run (encrypt self (VBuf []) hasCallback) r = (mkWorld r [], Thrown instanceErr))
  /\ (run (Kripke_encrypt (VStr "") o hasCallback) r = (mkWorld r [], Thrown staticErr)
      /\ run (Kripke_encrypt (VBuf []) o hasCallback) r = (mkWorld r [], Thrown staticErr))
  /\ (run (decrypt self (VStr "") hasCallback) r = (mkWorld r [], Thrown instanceTokenErr)
      /\ run (decrypt self (VBuf b) hasCallback) r = (mkWorld r [], Thrown instanceTokenErr)
      /\ run (decrypt self VNull hasCallback) r = (mkWorld r [], Thrown instanceTokenErr)
      /\ run (decrypt self VUndefined hasCallback) r
         = (mkWorld r [], Thrown instanceTokenErr))
  /\ (run (Kripke_decrypt (VStr "") o hasCallback) r = (mkWorld r [], Thrown staticTokenErr)
      /\ run (Kripke_decrypt (VBuf b) o hasCallback) r
         = (mkWorld r [], Thrown staticTokenErr)
      /\ run (Kripke_decrypt VNull o hasCallback) r = (mkWorld r [], Thrown staticTokenErr)
      /\ run (Kripke_decrypt VUndefined o hasCallback) r
         = (mkWorld r [], Thrown staticTokenErr)).
Proof.
  unfold run, encrypt, decrypt, Kripke_encrypt, Kripke_decrypt.
  destruct hasCallback; cbn; [|repeat split; reflexivity].
  destruct (truthy (Options.key o)); cbn; repeat split; reflexivity.
Qed.

End Validation.

(** ** Verification *)

(** Runs the monadic plumbing of a goal, leaving the tests it meets. *)
Ltac eff :=
  cbv beta iota zeta delta
    [bind tryCatch ret throw emit lift callback run
     newBufferBase64 hmacDigest pbkdf2 cipher decipher randomBytes fst snd].

Section Verification.
Context {C : Crypto}.

Lemma verify_no_key (self : Instance) (text : string) (w : World) :
  truthy (hmacKey self) = false ->
  verify self text w
  = if Nat.eqb (List.length (split text dollar)) 4
    then (w, Thrown (mkError TypeError msgKeyRequired))
    else (w, Returned true).
Proof.
  intros Hk. unfold verify. rewrite Hk. cbn [orb negb].
  destruct (Nat.eqb (List.length (split text dollar)) 4); reflexivity.
Qed.

Lemma verify_key (self : Instance) (text : string) (w : World) :
  truthy (hmacKey self) = true ->
  verify self text w
  = if Nat.ltb (List.length (split text dollar)) 4
    then (w, Thrown (mkError TypeError msgNoSignature))
    else
      let data := substr text 0 (lastIndexOf text dollar) in
      (after w (EvHmac (hmacAlgorithm self) (hmacKey self) data),
       match hmacBytes (hmacAlgorithm self) (hmacKey self) data with
       | Returned h =>
           Returned (compareBuffers h
                       (base64Decode (nth 3 (split text dollar) EmptyString)))
       | Thrown e => Thrown e
       end).
Proof.
  intros Hk. unfold verify. rewrite Hk. cbn [orb negb].
  destruct (Nat.ltb (List.length (split text dollar)) 4) eqn:E; [reflexivity|].
  apply Nat.ltb_ge in E.
  eff.
  destruct (hmacBytes _ _ _); [|reflexivity].
  destruct (nth_error (split text dollar) 3) as [d|] eqn:E3.
  - rewrite (nth_error_nth _ _ _ E3). reflexivity.
  - apply nth_error_None in E3. lia.
Qed.

(** What a run of [verify] leaves in the world: the entropy untouched, and at
    most one HMAC computation added to the trace. *)
Lemma verify_world (self : Instance) (text : string) (w w' : World) (c : Completion bool) :
  verify self text w = (w', c) ->
  rng w' = rng w
  /\ (trace w' = trace w
      \/ exists data, trace w' = (trace w ++ [EvHmac (hmacAlgorithm self) (hmacKey self) data])%list).
Proof.
  destruct (truthy (hmacKey self)) eqn:Hk.
  - rewrite (verify_key _ _ _ Hk).
    destruct (Nat.ltb _ 4); intros H; injection H as <- <-; cbn; eauto.
  - rewrite (verify_no_key _ _ _ Hk).
    destruct (Nat.eqb _ 4); intros H; injection H as <- <-; cbn; eauto.
Qed.

(** With exactly four fields the signed text is the first three, joined. *)
Lemma signed_text_four (text : string) :
  List.length (split text dollar) = 4%nat ->
  substr text 0 (lastIndexOf text dollar) = join (firstn 3 (split text dollar)) dollar.
Proof.
  intros H. rewrite substr_lastIndexOf by lia.
  destruct (split text dollar) as [|a [|b [|c [|d [|x l]]]]]; try discriminate.
  reflexivity.
Qed.

End Verification.

Section VerificationPolicy.
Context {C : Crypto}.

Lemma Kripke_decrypt_verify_verdict (self : Instance) (o : Options.t) (text : string)
    (w : World) :
  hmacKey self = Options.hmacKey o ->
  Kripke_decrypt_verify o (hmacAlgorithm self) text (split text dollar) w
  = (fst (verify self text w), Returned (errOfVerdict (snd (verify self text w)))).
Proof.
  intros Hk. unfold Kripke_decrypt_verify.
  destruct (truthy (Options.hmacKey o)) eqn:E.
  - rewrite verify_key by (rewrite Hk; exact E). rewrite Hk. cbn [orb negb].
    destruct (Nat.ltb (List.length (split text dollar)) 4) eqn:E4; [reflexivity|].
    apply Nat.ltb_ge in E4.
    eff.
    destruct (hmacBytes _ _ _) as [h|e]; [|reflexivity].
    destruct (nth_error (split text dollar) 3) as [d|] eqn:E3.
    + rewrite (nth_error_nth _ _ _ E3). cbn [errOfVerdict].
      destruct (compareBuffers h (base64Decode d)); reflexivity.
    + apply nth_error_None in E3. lia.
  - rewrite verify_no_key by (rewrite Hk; exact E). cbn [orb negb].
    destruct (Nat.eqb (List.length (split text dollar)) 4); reflexivity.
Qed.

(** C2, amended: on a token of at most four fields [verify] follows the
    policy matrix, "the token carries a signature" being "it has a fourth
    field".  Without a key and without a fourth field it returns [true];
    with a fourth field and no key it throws the key-required error; with a
    key and no fourth field it throws the signature-missing error; with both
    it compares the HMAC of the first three joined fields with the decoded
    fourth.  The static [decrypt] reaches the same verdict and keeps it as
    its error. *)
Theorem verify_follows_policy (self : Instance) (o : Options.t) (text : string)
    (w : World) :
  (List.length (split text dollar) <= 4)%nat ->
  let parts := split text dollar in
  let keyRequired := mkError TypeError msgKeyRequired in
  let noSignature := mkError TypeError msgNoSignature in
  snd (verify self text w)
  = policyMatrix keyRequired noSignature
      (truthy (hmacKey self)) (Nat.leb 4 (List.length parts))
      (hmacCheck (hmacAlgorithm self) (hmacKey self) parts)
  /\ snd (Kripke_decrypt_verify o (orString (Options.hmacAlgorithm o) "SHA256") text parts w)
     = Returned
         (errOfVerdict
            (policyMatrix keyRequired noSignature
               (truthy (Options.hmacKey o)) (Nat.leb 4 (List.length parts))
               (hmacCheck (orString (Options.hmacAlgorithm o) "SHA256")
                  (Options.hmacKey o) parts))).
Proof.
  intros Hlen parts keyRequired noSignature. subst parts.
  assert (Hinst : forall k : Instance,
             snd (verify k text w)
             = policyMatrix keyRequired noSignature
                 (truthy (hmacKey k)) (Nat.leb 4 (List.length (split text dollar)))
                 (hmacCheck (hmacAlgorithm k) (hmacKey k) (split text dollar))).
  { intros k. destruct (truthy (hmacKey k)) eqn:Hk.
    - rewrite (verify_key _ _ _ Hk).
      destruct (Nat.ltb (List.length (split text dollar)) 4) eqn:E.
      + apply Nat.ltb_lt in E.
        replace (Nat.leb 4 (List.length (split text dollar))) with false
          by (symmetry; apply Nat.leb_gt; lia).
        reflexivity.
      + apply Nat.ltb_ge in E.
        replace (Nat.leb 4 (List.length (split text dollar))) with true
          by (symmetry; apply Nat.leb_le; lia).
        cbn [snd policyMatrix]. unfold hmacCheck.
        rewrite signed_text_four by lia. reflexivity.
    - rewrite (verify_no_key _ _ _ Hk).
      destruct (Nat.eqb (List.length (split text dollar)) 4) eqn:E.
      + apply Nat.eqb_eq in E. rewrite E. reflexivity.
      + apply Nat.eqb_neq in E.
        replace (Nat.leb 4 (List.length (split text dollar))) with false
          by (symmetry; apply Nat.leb_gt; lia).
        reflexivity. }
  split; [apply Hinst|].
  pose (k := mkInstance (Options.key o) (Options.hmacKey o) 0
               (orString (Options.hmacAlgorithm o) "SHA256") 32 "").
  pose proof (Kripke_decrypt_verify_verdict k o text w eq_refl) as Hs.
  cbn [hmacAlgorithm k] in Hs. rewrite Hs. cbn [snd].
  rewrite (Hinst k). reflexivity.
Qed.

(** The same, for the proofs that follow: the verdict of [verify] and the
    error the static block keeps, on a token of at most four fields. *)
Lemma verify_at_most_four (self : Instance) (text : string) (w : World) :
  (List.length (split text dollar) <= 4)%nat ->
  snd (verify self text w)
  = policyMatrix (mkError TypeError msgKeyRequired) (mkError TypeError msgNoSignature)
      (truthy (hmacKey self)) (Nat.leb 4 (List.length (split text dollar)))
      (hmacCheck (hmacAlgorithm self) (hmacKey self) (split text dollar)).
Proof.
  intros Hlen. destruct (truthy (hmacKey self)) eqn:Hk.
  - rewrite (verify_key _ _ _ Hk).
    destruct (Nat.ltb (List.length (split text dollar)) 4) eqn:E.
    + apply Nat.ltb_lt in E.
      replace (Nat.leb 4 (List.length (split text dollar))) with false
        by (symmetry; apply Nat.leb_gt; lia).
      reflexivity.
    + apply Nat.ltb_ge in E.
      replace (Nat.leb 4 (List.length (split text dollar))) with true
        by (symmetry; apply Nat.leb_le; lia).
      cbn [snd policyMatrix]. unfold hmacCheck.
      rewrite signed_text_four by lia. reflexivity.
  - rewrite (verify_no_key _ _ _ Hk).
    destruct (Nat.eqb (List.length (split text dollar)) 4) eqn:E.
    + apply Nat.eqb_eq in E. rewrite E. reflexivity.
    + apply Nat.eqb_neq in E.
      replace (Nat.leb 4 (List.length (split text dollar))) with false
        by (symmetry; apply Nat.leb_gt; lia).
      reflexivity.
Qed.

Lemma Kripke_decrypt_verify_at_most_four (o : Options.t) (text : string) (w : World) :
  (List.length (split text dollar) <= 4)%nat ->
  snd (Kripke_decrypt_verify o (orString (Options.hmacAlgorithm o) "SHA256") text
         (split text dollar) w)
  = Returned
      (errOfVerdict
         (policyMatrix (mkError TypeError msgKeyRequired) (mkError TypeError msgNoSignature)
            (truthy (Options.hmacKey o)) (Nat.leb 4 (List.length (split text dollar)))
            (hmacCheck (orString (Options.hmacAlgorithm o) "SHA256")
               (Options.hmacKey o) (split text dollar)))).
Proof.
  intros Hlen.
  pose (k := mkInstance (Options.key o) (Options.hmacKey o) 0
               (orString (Options.hmacAlgorithm o) "SHA256") 32 "").
  pose proof (Kripke_decrypt_verify_verdict k o text w eq_refl) as Hs.
  cbn [hmacAlgorithm k] in Hs. rewrite Hs. cbn [snd].
  rewrite (verify_at_most_four k text w Hlen). reflexivity.
Qed.

End VerificationPolicy.

Section PolicyOnReference.
#[local] Existing Instance Ref.crypto.

Lemma verify_follows_policy_witness :
  snd (verify (Ref.instanceOf Ref.options2) "a$b$c$d" (mkWorld Ref.rng0 []))
  = Returned false
  /\ snd (Kripke_decrypt_verify Ref.options2 "SHA256" "a$b$c$d" ["a"; "b"; "c"; "d"]
            (mkWorld Ref.rng0 []))
     = Returned (Some (mkError PlainError msgVerification)).
Proof.
  pose proof (@verify_follows_policy Ref.crypto (Ref.instanceOf Ref.options2) Ref.options2
                "a$b$c$d" (mkWorld Ref.rng0 [])) as H.
  cbv zeta in H.
  specialize (H ltac:(vm_compute; lia)).
  destruct H as [H1 H2]. split.
  - rewrite H1. vm_compute. reflexivity.
  - change ["a"; "b"; "c"; "d"] with (split "a$b$c$d" dollar).
    change "SHA256" with (orString (Options.hmacAlgorithm Ref.options2) "SHA256") at 1.
    rewrite H2. vm_compute. reflexivity.
Defined.

(** The policy matrix is not what [verify] does on a token of five fields:
    without a key the fourth field is there and [verify] returns [true]. *)
Lemma verify_policy_fails_on_five_fields :
  ~ (forall (self : Instance) (text : string) (w : World),
        snd (verify self text w)
        = policyMatrix (mkError TypeError msgKeyRequired) (mkError TypeError msgNoSignature)
            (truthy (hmacKey self)) (Nat.leb 4 (List.length (split text dollar)))
            (hmacCheck (hmacAlgorithm self) (hmacKey self) (split text dollar))).
Proof.
  intros H.
  specialize (H (Ref.instanceOf Ref.options1) "a$b$c$d$e" (mkWorld Ref.rng0 [])).
  vm_compute in H. discriminate H.
Qed.

End PolicyOnReference.

(** ** Runs of [decrypt] *)

Section DecryptRuns.
Context {C : Crypto}.

Lemma invalidCipherText_text (text : string) :
  text <> "" -> invalidCipherText (VStr text) = false.
Proof.
  intros H. unfold invalidCipherText. cbn [truthy isString negb orb].
  apply String.eqb_neq in H. rewrite H. reflexivity.
Qed.

Lemma nth_error_fields (parts : list string) (i : nat) :
  (i < List.length parts)%nat -> nth_error parts i = Some (nth i parts EmptyString).
Proof.
  intros H. destruct (nth_error parts i) as [x|] eqn:E.
  - rewrite (nth_error_nth _ _ _ E). reflexivity.
  - apply nth_error_None in E. lia.
Qed.

(** Fewer than three fields: the instance reports a malformed token. *)
Lemma decrypt_short (self : Instance) (text : string) (r : Rng) :
  text <> "" ->
  (List.length (split text dollar) < 3)%nat ->
  run (decrypt self (VStr text) true) r
  = (mkWorld r [EvCallback (Some (mkError TypeError msgEncodedText)) None], Returned tt).
Proof.
  intros Ht Hlen. unfold decrypt. cbn [negb].
  rewrite (invalidCipherText_text Ht).
  replace (Nat.leb 3 (List.length (split text dollar))) with false
    by (symmetry; apply Nat.leb_gt; lia).
  reflexivity.
Qed.

(** Verification did not pass: one callback, with the error. *)
Lemma decrypt_rejected (self : Instance) (text : string) (r : Rng)
    (w : World) (c : Completion bool) :
  text <> "" ->
  (3 <= List.length (split text dollar))%nat ->
  verify self text (mkWorld r []) = (w, c) ->
  c <> Returned true ->
  run (decrypt self (VStr text) true) r
  = (after w (EvCallback (errOfVerdict c) None), Returned tt).
Proof.
  intros Ht Hlen Hv Hc. unfold decrypt. cbn [negb].
  rewrite (invalidCipherText_text Ht).
  replace (Nat.leb 3 (List.length (split text dollar))) with true
    by (symmetry; apply Nat.leb_le; lia).
  rewrite !nth_error_fields by lia.
  eff. rewrite Hv.
  destruct c as [[|]|e]; [congruence | reflexivity | reflexivity].
Qed.

(** Verification passed: the key is derived from the token's salt and the
    first field deciphered with the token's iv. *)
Lemma decrypt_verified (self : Instance) (text : string) (r : Rng) (w : World) :
  text <> "" ->
  (3 <= List.length (split text dollar))%nat ->
  verify self text (mkWorld r []) = (w, Returned true) ->
  let parts := split text dollar in
  let iv := base64Decode (nth 1 parts EmptyString) in
  let salt := base64Decode (nth 2 parts EmptyString) in
  let payload := base64Decode (hd EmptyString parts) in
  let w1 := after w (EvPbkdf2 (key self) salt (iterations self) (keyLength self)
                       (hmacAlgorithm self)) in
  run (decrypt self (VStr text) true) r
  = match kdf (key self) salt (iterations self) (keyLength self) (hmacAlgorithm self) with
    | KdfThrows e => (after w1 (EvCallback (Some e) None), Returned tt)
    | KdfFails _ => (after w1 (EvCallback None None), Returned tt)
    | KdfKey dk =>
        let w2 := after w1 (EvDecipher (algorithm self) dk iv payload) in
        match decipherText (algorithm self) dk iv payload with
        | Returned t => (after w2 (EvCallback None (Some t)), Returned tt)
        | Thrown e => (after w2 (EvCallback (Some e) None), Returned tt)
        end
    end.
Proof.
  intros Ht Hlen Hv. unfold decrypt. cbn [negb].
  rewrite (invalidCipherText_text Ht).
  replace (Nat.leb 3 (List.length (split text dollar))) with true
    by (symmetry; apply Nat.leb_le; lia).
  rewrite !nth_error_fields by lia.
  unfold generateDerivedKey. eff. rewrite Hv.
  destruct (kdf _ _ _ _ _) as [e|e|dk]; [reflexivity | reflexivity |].
  destruct (decipherText _ _ _ _); reflexivity.
Qed.

Lemma Kripke_decrypt_short (o : Options.t) (text : string) (r : Rng) :
  text <> "" ->
  truthy (Options.key o) = true ->
  (List.length (split text dollar) < 3)%nat ->
  run (Kripke_decrypt (VStr text) o true) r
  = (mkWorld r [], Thrown (mkError TypeError msgBuffer)).
Proof.
  intros Ht Hk Hlen. unfold Kripke_decrypt. cbn [negb].
  rewrite (invalidCipherText_text Ht), Hk. cbn [negb].
  destruct (nth_error (split text dollar) 1) as [x1|] eqn:E1; [|reflexivity].
  destruct (nth_error (split text dollar) 2) as [x2|] eqn:E2; [|reflexivity].
  assert (nth_error (split text dollar) 2 <> None) as H by congruence.
  apply nth_error_Some in H. lia.
Qed.

Lemma Kripke_decrypt_rejected (o : Options.t) (text : string) (r : Rng)
    (w : World) (e : JsError) :
  text <> "" ->
  truthy (Options.key o) = true ->
  (3 <= List.length (split text dollar))%nat ->
  Kripke_decrypt_verify o (orString (Options.hmacAlgorithm o) "SHA256") text
    (split text dollar) (mkWorld r []) = (w, Returned (Some e)) ->
  run (Kripke_decrypt (VStr text) o true) r
  = (after w (EvCallback (Some e) None), Returned tt).
Proof.
  intros Ht Hk Hlen Hv. unfold Kripke_decrypt. cbn [negb].
  rewrite (invalidCipherText_text Ht), Hk. cbn [negb].
  rewrite !nth_error_fields by lia.
  eff. rewrite Hv. reflexivity.
Qed.

Lemma Kripke_decrypt_verified (o : Options.t) (text : string) (r : Rng) (w : World) :
  text <> "" ->
  truthy (Options.key o) = true ->
  (3 <= List.length (split text dollar))%nat ->
  Kripke_decrypt_verify o (orString (Options.hmacAlgorithm o) "SHA256") text
    (split text dollar) (mkWorld r []) = (w, Returned None) ->
  let parts := split text dollar in
  let iv := base64Decode (nth 1 parts EmptyString) in
  let salt := base64Decode (nth 2 parts EmptyString) in
  let payload := base64Decode (hd EmptyString parts) in
  let algorithm := orString (Options.algorithm o) "AES-256-CBC" in
  let hmacAlgorithm := orString (Options.hmacAlgorithm o) "SHA256" in
  let iterations := orNumber (Options.iterations o) defaultIterations in
  let w1 := after w (EvPbkdf2 (Options.key o) salt iterations 32 hmacAlgorithm) in
  run (Kripke_decrypt (VStr text) o true) r
  = match kdf (Options.key o) salt iterations 32 hmacAlgorithm with
    | KdfThrows e => (w1, Thrown e)
    | KdfFails e => (after w1 (EvCallback (Some e) None), Returned tt)
    | KdfKey dk =>
        let w2 := after w1 (EvDecipher algorithm dk iv payload) in
        match decipherText algorithm dk iv payload with
        | Returned t => (after w2 (EvCallback None (Some t)), Returned tt)
        | Thrown e => (after w2 (EvCallback (Some e) None), Returned tt)
        end
    end.
Proof.
  intros Ht Hk Hlen Hv. unfold Kripke_decrypt. cbn [negb].
  rewrite (invalidCipherText_text Ht), Hk. cbn [negb].
  rewrite !nth_error_fields by lia.
  eff. rewrite Hv.
  destruct (kdf _ _ _ _ _) as [e|e|dk]; [reflexivity | reflexivity |].
  destruct (decipherText _ _ _ _); reflexivity.
Qed.

End DecryptRuns.

(** ** Verification gates the cipher step *)

Section VerificationFirst.
Context {C : Crypto}.

Lemma callbacks_app (t1 t2 : list Event) :
  callbacks (t1 ++ t2) = (callbacks t1 ++ callbacks t2)%list.
Proof. unfold callbacks. apply flat_map_app. Qed.

Lemma delivered_app (t1 t2 : list Event) :
  delivered (t1 ++ t2) = (delivered t1 ++ delivered t2)%list.
Proof. unfold delivered. apply flat_map_app. Qed.

(** A run of [verify] from a fresh trace neither calls back nor deciphers. *)
Lemma verify_trace_quiet (self : Instance) (text : string) (r : Rng)
    (w : World) (c : Completion bool) :
  verify self text (mkWorld r []) = (w, c) ->
  callbacks (trace w) = [] /\ delivered (trace w) = []
  /\ existsb isDecipher (trace w) = false.
Proof.
  intros H. apply verify_world in H. destruct H as [_ [H | [data H]]];
    rewrite H; cbn; auto.
Qed.

Lemma verify_trace_derives_nothing (self : Instance) (text : string) (r : Rng)
    (w : World) (c : Completion bool) :
  verify self text (mkWorld r []) = (w, c) -> derivations (trace w) = [].
Proof.
  intros H. apply verify_world in H. destruct H as [_ [H | [data H]]];
    rewrite H; reflexivity.
Qed.

Lemma derivations_app (t1 t2 : list Event) :
  derivations (t1 ++ t2) = (derivations t1 ++ derivations t2)%list.
Proof. unfold derivations. apply filter_app. Qed.

Lemma Kripke_decrypt_verify_world (o : Options.t) (text : string) (w : World) :
  let k := mkInstance (Options.key o) (Options.hmacKey o) 0
             (orString (Options.hmacAlgorithm o) "SHA256") 32 "" in
  Kripke_decrypt_verify o (orString (Options.hmacAlgorithm o) "SHA256") text
    (split text dollar) w
  = (fst (verify k text w), Returned (errOfVerdict (snd (verify k text w)))).
Proof.
  intros k. exact (Kripke_decrypt_verify_verdict k o text w eq_refl).
Qed.

(** The verdict the code itself reaches gates the cipher step: when [verify]
    returns [false] or throws (in the static form: when the verification
    block leaves an error), the run contains no decipher step and the caller
    gets a single error and no plain text. *)
Lemma decrypt_gated_by_verdict (self : Instance) (o : Options.t)
    (text : string) (r : Rng) :
  text <> "" ->
  (snd (verify self text (mkWorld r [])) <> Returned true ->
   refused (run (decrypt self (VStr text) true) r))
  /\ (truthy (Options.key o) = true ->
      snd (Kripke_decrypt_verify o (orString (Options.hmacAlgorithm o) "SHA256") text
             (split text dollar) (mkWorld r [])) <> Returned None ->
      refused (run (Kripke_decrypt (VStr text) o true) r)).
Proof.
  intros Ht. unfold refused. split.
  - intros Hv.
    destruct (Nat.ltb (List.length (split text dollar)) 3) eqn:E.
    + apply Nat.ltb_lt in E. rewrite (decrypt_short self r Ht E).
      split; [right; eexists; split; reflexivity | split; reflexivity].
    + apply Nat.ltb_ge in E.
      destruct (verify self text (mkWorld r [])) as [w c] eqn:Ev.
      cbn [snd] in Hv.
      rewrite (decrypt_rejected self r Ht E Ev Hv).
      destruct (verify_trace_quiet _ _ _ Ev) as [Hcb [Hdl Hdec]].
      assert (He : exists e, errOfVerdict c = Some e).
      { destruct c as [[|]|e]; [congruence | eexists; reflexivity | eexists; reflexivity]. }
      destruct He as [e He]. rewrite He.
      unfold singleError, after. cbn [fst snd trace].
      rewrite callbacks_app, delivered_app, existsb_app, Hcb, Hdl, Hdec.
      split; [right; exists e; split; reflexivity | split; reflexivity].
  - intros Hk Hv.
    destruct (Nat.ltb (List.length (split text dollar)) 3) eqn:E.
    + apply Nat.ltb_lt in E. rewrite (Kripke_decrypt_short o r Ht Hk E).
      split; [left; eexists; split; reflexivity | split; reflexivity].
    + apply Nat.ltb_ge in E.
      pose proof (Kripke_decrypt_verify_world o text (mkWorld r [])) as Hw.
      cbv zeta in Hw.
      destruct (verify _ text (mkWorld r [])) as [w c] eqn:Ev.
      cbn [fst snd] in Hw. rewrite Hw in Hv. cbn [snd] in Hv.
      destruct (errOfVerdict c) as [e|] eqn:He; [|congruence].
      rewrite (Kripke_decrypt_rejected o r Ht Hk E Hw).
      destruct (verify_trace_quiet _ _ _ Ev) as [Hcb [Hdl Hdec]].
      unfold singleError, after. cbn [fst snd trace].
      rewrite callbacks_app, delivered_app, existsb_app, Hcb, Hdl, Hdec.
      split; [right; exists e; split; reflexivity | split; reflexivity].
Qed.

(** C3, amended: on a token of at most four fields, whenever the verification
    the policy requires fails or cannot be performed (the policy matrix of the
    configured key and the fourth field does not come out [true]: the key is
    there and the signature is not, the signature is there and the key is
    not, or the HMAC comparison is [false] or throws), the run of [decrypt]
    contains no decipher step, and the caller gets a single error and no plain
    text; in the instance form and in the static form.  On a token of any
    length the same holds whenever the verification the code performs does
    not pass.  A token of more than four fields is left out of the first part:
    without a key it is not verified at all. *)
Theorem decrypt_gated_by_verification (self : Instance) (o : Options.t)
    (text : string) (r : Rng) :
  text <> "" ->
  let parts := split text dollar in
  let keyRequired := mkError TypeError msgKeyRequired in
  let noSignature := mkError TypeError msgNoSignature in
  ((List.length parts <= 4)%nat ->
   (policyMatrix keyRequired noSignature
      (truthy (hmacKey self)) (Nat.leb 4 (List.length parts))
      (hmacCheck (hmacAlgorithm self) (hmacKey self) parts) <> Returned true ->
    refused (run (decrypt self (VStr text) true) r))
   /\ (truthy (Options.key o) = true ->
       policyMatrix keyRequired noSignature
         (truthy (Options.hmacKey o)) (Nat.leb 4 (List.length parts))
         (hmacCheck (orString (Options.hmacAlgorithm o) "SHA256")
            (Options.hmacKey o) parts) <> Returned true ->
       refused (run (Kripke_decrypt (VStr text) o true) r)))
  /\ (snd (verify self text (mkWorld r [])) <> Returned true ->
      refused (run (decrypt self (VStr text) true) r))
  /\ (truthy (Options.key o) = true ->
      snd (Kripke_decrypt_verify o (orString (Options.hmacAlgorithm o) "SHA256") text
             parts (mkWorld r [])) <> Returned None ->
      refused (run (Kripke_decrypt (VStr text) o true) r)).
Proof.
  intros Ht parts keyRequired noSignature. subst parts keyRequired noSignature.
  destruct (decrypt_gated_by_verdict self o r Ht) as [Hi Hs].
  split; [|split; assumption].
  intros Hlen. split.
  - intros Hp. apply Hi.
    rewrite (verify_at_most_four self text (mkWorld r []) Hlen). exact Hp.
  - intros Hk Hp. apply (Hs Hk).
    rewrite (Kripke_decrypt_verify_at_most_four o text (mkWorld r []) Hlen).
    intros H. injection H as H. apply Hp.
    destruct (policyMatrix _ _ _ _ _) as [[|]|e]; [reflexivity | discriminate | discriminate].
Qed.

End VerificationFirst.

Section VerificationFirstOnReference.
#[local] Existing Instance Ref.crypto.

Lemma decrypt_gated_by_verification_witness :
  refused (run (decrypt (Ref.instanceOf Ref.options2) (VStr "a$b$c") true) Ref.rng0)
  /\ refused (run (Kripke_decrypt (VStr "a$b$c") Ref.options2 true) Ref.rng0).
Proof.
  destruct (@decrypt_gated_by_verification Ref.crypto (Ref.instanceOf Ref.options2)
              Ref.options2 "a$b$c" Ref.rng0 ltac:(discriminate)) as [H _].
  cbv zeta in H.
  destruct (H ltac:(vm_compute; lia)) as [H1 H2].
  split.
  - apply H1. vm_compute. discriminate.
  - apply H2; [reflexivity | vm_compute; discriminate].
Defined.

(** Verification that is required and cannot be performed does not always
    stop [decrypt]: the signed token [encrypt] made for ['hi'], with one more
    delimiter appended, carries a fourth field; a configuration without an
    HMAC key cannot verify it (the policy asks for the key-required error),
    and both forms decipher it and hand ['hi'] to the callback. *)
Lemma unverifiable_token_is_deciphered :
  let signer := Ref.instanceOf Ref.options2 in
  let token :=
    hd EmptyString (delivered (trace (fst (run (encrypt signer (VStr "hi") true) Ref.rng0))))
    ++ "$" in
  let self := Ref.instanceOf Ref.options1 in
  let out := run (decrypt self (VStr token) true) Ref.rng0 in
  let out' := run (Kripke_decrypt (VStr token) Ref.options1 true) Ref.rng0 in
  policyMatrix (mkError TypeError msgKeyRequired) (mkError TypeError msgNoSignature)
    (truthy (hmacKey self)) (Nat.leb 4 (List.length (split token dollar)))
    (hmacCheck (hmacAlgorithm self) (hmacKey self) (split token dollar))
  = Thrown (mkError TypeError msgKeyRequired)
  /\ callbacks (trace (fst out)) = [(None, Some "hi")]
  /\ existsb isDecipher (trace (fst out)) = true
  /\ callbacks (trace (fst out')) = [(None, Some "hi")]
  /\ existsb isDecipher (trace (fst out')) = true.
Proof. vm_compute. repeat split. Qed.

End VerificationFirstOnReference.

(** ** The field count *)

Lemma split_join (sep : ascii) (parts : list string) :
  parts <> [] ->
  Forall (fun p => freeOf sep p = true) parts ->
  split (join parts sep) sep = parts.
Proof.
  induction parts as [|p ps IH]; [congruence|]. intros _ Hfree.
  inversion Hfree as [|? ? Hp Hps]; subst.
  destruct ps as [|q ps].
  - simpl. apply split_free. exact Hp.
  - change (join (p :: q :: ps) sep) with (p ++ String sep (join (q :: ps) sep)).
    rewrite split_app by exact Hp. f_equal. apply IH; [discriminate | exact Hps].
Qed.

Lemma firstn_free (sep : ascii) (n : nat) (parts : list string) :
  Forall (fun p => freeOf sep p = true) parts ->
  Forall (fun p => freeOf sep p = true) (firstn n parts).
Proof.
  intros H. rewrite <- (firstn_skipn n parts) in H.
  apply Forall_app in H. tauto.
Qed.

Section FieldCount.
Context {C : Crypto}.

(** The token made of the first three fields of a longer one. *)
Lemma first_three_fields (text : string) :
  (3 <= List.length (split text dollar))%nat ->
  let text3 := join (firstn 3 (split text dollar)) dollar in
  text3 <> ""
  /\ split text3 dollar = firstn 3 (split text dollar)
  /\ List.length (split text3 dollar) = 3%nat.
Proof.
  intros Hlen text3.
  assert (Hs : split text3 dollar = firstn 3 (split text dollar)).
  { apply split_join.
    - destruct (split text dollar); [simpl in Hlen; lia | discriminate].
    - apply firstn_free, split_fields_free. }
  split; [|split].
  - subst text3.
    destruct (split text dollar) as [|a [|b [|c l]]]; try (simpl in Hlen; lia).
    cbn. destruct a; discriminate.
  - exact Hs.
  - rewrite Hs, length_firstn. lia.
Qed.

(** C5, amended: a token of fewer than three fields is rejected before any
    call into [crypto] (the instance hands the malformed-token error to the
    callback, the static form throws while reading the missing field).  A
    token of more than four fields is not rejected for its field count:
    without an HMAC key it is processed as the token made of its first three
    fields. *)
Theorem field_count_check (self : Instance) (o : Options.t) (text : string) (r : Rng) :
  text <> "" ->
  ((List.length (split text dollar) < 3)%nat ->
   run (decrypt self (VStr text) true) r
   = (mkWorld r [EvCallback (Some (mkError TypeError msgEncodedText)) None], Returned tt)
   /\ (truthy (Options.key o) = true ->
       run (Kripke_decrypt (VStr text) o true) r
       = (mkWorld r [], Thrown (mkError TypeError msgBuffer))))
  /\ ((4 < List.length (split text dollar))%nat ->
      let text3 := join (firstn 3 (split text dollar)) dollar in
      (truthy (hmacKey self) = false ->
       run (decrypt self (VStr text) true) r = run (decrypt self (VStr text3) true) r)
      /\ (truthy (Options.key o) = true -> truthy (Options.hmacKey o) = false ->
          run (Kripke_decrypt (VStr text) o true) r
          = run (Kripke_decrypt (VStr text3) o true) r)).
Proof.
  intros Ht. split.
  - intros Hlen. split.
    + apply decrypt_short; assumption.
    + intros Hk. apply Kripke_decrypt_short; assumption.
  - intros Hlen text3.
    destruct (first_three_fields text ltac:(lia)) as [Ht3 [Hs3 Hl3]].
    fold text3 in Ht3, Hs3, Hl3.
    assert (Hnth : forall i, (i < 3)%nat ->
                nth i (split text3 dollar) EmptyString
                = nth i (split text dollar) EmptyString).
    { intros i Hi. rewrite Hs3.
      rewrite <- (firstn_skipn 3 (split text dollar)) at 2.
      rewrite app_nth1; [reflexivity | rewrite length_firstn; lia]. }
    assert (Hhd : hd EmptyString (split text3 dollar) = hd EmptyString (split text dollar)).
    { rewrite Hs3. destruct (split text dollar); reflexivity. }
    split.
    + intros Hk.
      assert (Hv : forall t, List.length (split t dollar) <> 4%nat ->
                  verify self t (mkWorld r []) = (mkWorld r [], Returned true)).
      { intros t Hn. rewrite (verify_no_key _ _ _ Hk).
        apply Nat.eqb_neq in Hn. rewrite Hn. reflexivity. }
      rewrite (decrypt_verified self r Ht ltac:(lia) (Hv text ltac:(lia))).
      rewrite (decrypt_verified self r Ht3 ltac:(lia) (Hv text3 ltac:(lia))).
      cbv zeta. rewrite !Hnth by lia. rewrite Hhd. reflexivity.
    + intros Hkey Hk.
      assert (Hv : forall t, List.length (split t dollar) <> 4%nat ->
                  Kripke_decrypt_verify o (orString (Options.hmacAlgorithm o) "SHA256") t
                    (split t dollar) (mkWorld r []) = (mkWorld r [], Returned None)).
      { intros t Hn. unfold Kripke_decrypt_verify. rewrite Hk.
        apply Nat.eqb_neq in Hn. rewrite Hn. reflexivity. }
      rewrite (Kripke_decrypt_verified o r Ht Hkey ltac:(lia) (Hv text ltac:(lia))).
      rewrite (Kripke_decrypt_verified o r Ht3 Hkey ltac:(lia) (Hv text3 ltac:(lia))).
      cbv zeta. rewrite !Hnth by lia. rewrite Hhd. reflexivity.
Qed.

End FieldCount.

Section FieldCountOnReference.
#[local] Existing Instance Ref.crypto.

Lemma field_count_check_witness :
  run (decrypt (Ref.instanceOf Ref.options1) (VStr "abc") true) Ref.rng0
  = (mkWorld Ref.rng0 [EvCallback (Some (mkError TypeError msgEncodedText)) None],
     Returned tt)
  /\ run (Kripke_decrypt (VStr "abc") Ref.options1 true) Ref.rng0
     = (mkWorld Ref.rng0 [], Thrown (mkError TypeError msgBuffer))
  /\ run (decrypt (Ref.instanceOf Ref.options1) (VStr "a$b$c$d$e") true) Ref.rng0
     = run (decrypt (Ref.instanceOf Ref.options1) (VStr "a$b$c") true) Ref.rng0
  /\ run (Kripke_decrypt (VStr "a$b$c$d$e") Ref.options1 true) Ref.rng0
     = run (Kripke_decrypt (VStr "a$b$c") Ref.options1 true) Ref.rng0.
Proof.
  destruct (@field_count_check Ref.crypto (Ref.instanceOf Ref.options1) Ref.options1
              "abc" Ref.rng0 ltac:(discriminate)) as [H1 _].
  destruct (H1 ltac:(vm_compute; lia)) as [Ha Hb].
  destruct (@field_count_check Ref.crypto (Ref.instanceOf Ref.options1) Ref.options1
              "a$b$c$d$e" Ref.rng0 ltac:(discriminate)) as [_ H2].
  destruct (H2 ltac:(vm_compute; lia)) as [Hc Hd].
  exact (conj Ha (conj (Hb eq_refl) (conj (Hc eq_refl) (Hd eq_refl eq_refl)))).
Defined.

(** A token of five fields is not rejected: the token [encrypt] made for
    ['hi'], with two more fields appended, deciphers to ['hi']. *)
Lemma five_fields_are_processed :
  let self := Ref.instanceOf Ref.options1 in
  let token :=
    hd EmptyString (delivered (trace (fst (run (encrypt self (VStr "hi") true) Ref.rng0)))) in
  let out := run (decrypt self (VStr (token ++ "$x$y")) true) Ref.rng0 in
  List.length (split (token ++ "$x$y") dollar) = 5%nat
  /\ callbacks (trace (fst out)) = [(None, Some "hi")]
  /\ existsb isDecipher (trace (fst out)) = true.
Proof. vm_compute. repeat split. Qed.

End FieldCountOnReference.

(** ** Runs of [encrypt] *)

Section EncryptRuns.
Context {C : Crypto}.

Lemma encrypt_run (self : Instance) (p : Value) (r : Rng) :
  invalidPlainText p = false ->
  let salt := draw r 16 in
  let iv := draw (advance r 16) 16 in
  let w0 := mkWorld (advance r 16)
              [EvRandomBytes 16;
               EvPbkdf2 (key self) salt (iterations self) (keyLength self)
                 (hmacAlgorithm self)] in
  run (encrypt self p true) r
  = match kdf (key self) salt (iterations self) (keyLength self) (hmacAlgorithm self) with
    | KdfThrows e => (w0, Thrown e)
    | KdfFails e => (after w0 (EvCallback (Some e) None), Returned tt)
    | KdfKey dk =>
        let w1 := mkWorld (advance (advance r 16) 16)
                    (trace w0 ++ [EvRandomBytes 16; EvCipher (algorithm self) dk iv p]) in
        match cipherBytes (algorithm self) dk iv p with
        | Thrown e => (after w1 (EvCallback (Some e) None), Returned tt)
        | Returned c =>
            let unsigned := envelope (base64Encode c) iv salt in
            if truthy (hmacKey self) then
              let w2 := after w1 (EvHmac (hmacAlgorithm self) (hmacKey self) unsigned) in
              match hmacBytes (hmacAlgorithm self) (hmacKey self) unsigned with
              | Returned h =>
                  (after w2 (EvCallback None
                               (Some (unsigned ++ String dollar (base64Encode h)))),
                   Returned tt)
              | Thrown e => (after w2 (EvCallback (Some e) None), Returned tt)
              end
            else (after w1 (EvCallback None (Some unsigned)), Returned tt)
        end
    end.
Proof.
  intros Hp. unfold encrypt. cbn [negb]. rewrite Hp.
  unfold generateDerivedKey, sign. eff.
  destruct (kdf _ _ _ _ _) as [e|e|dk]; [reflexivity | reflexivity |].
  cbn [rng trace entropy cursor].
  destruct (cipherBytes _ _ _ _) as [c|e]; [|reflexivity].
  destruct (truthy (hmacKey self)); [|reflexivity].
  eff. destruct (hmacBytes _ _ _) as [h|e]; reflexivity.
Qed.

Lemma Kripke_encrypt_run (o : Options.t) (p : Value) (r : Rng) :
  truthy (Options.key o) = true ->
  invalidPlainText p = false ->
  let algorithm := orString (Options.algorithm o) "AES-256-CBC" in
  let hmacAlgorithm := orString (Options.hmacAlgorithm o) "SHA256" in
  let iterations := orNumber (Options.iterations o) defaultIterations in
  let iv := draw r 16 in
  let salt := draw (advance r 16) 16 in
  let w0 := mkWorld (advance (advance r 16) 16)
              [EvRandomBytes 16; EvRandomBytes 16;
               EvPbkdf2 (Options.key o) salt iterations 32 hmacAlgorithm] in
  run (Kripke_encrypt p o true) r
  = match kdf (Options.key o) salt iterations 32 hmacAlgorithm with
    | KdfThrows e => (after w0 (EvCallback (Some e) None), Returned tt)
    | KdfFails e => (after w0 (EvCallback (Some e) None), Returned tt)
    | KdfKey dk =>
        let w1 := after w0 (EvCipher algorithm dk iv p) in
        match cipherBytes algorithm dk iv p with
        | Thrown e => (after w1 (EvCallback (Some e) None), Returned tt)
        | Returned c =>
            let unsigned := envelope (base64Encode c) iv salt in
            if truthy (Options.hmacKey o) then
              let w2 := after w1 (EvHmac hmacAlgorithm (Options.hmacKey o) unsigned) in
              match hmacBytes hmacAlgorithm (Options.hmacKey o) unsigned with
              | Returned h =>
                  (after w2 (EvCallback None
                               (Some (unsigned ++ String dollar (base64Encode h)))),
                   Returned tt)
              | Thrown e => (after w2 (EvCallback (Some e) (Some unsigned)), Returned tt)
              end
            else (after w1 (EvCallback None (Some unsigned)), Returned tt)
        end
    end.
Proof.
  intros Hk Hp. unfold Kripke_encrypt. cbn [negb]. rewrite Hk, Hp. cbn [negb].
  eff.
  destruct (kdf _ _ _ _ _) as [e|e|dk]; [reflexivity | reflexivity |].
  cbn [rng trace entropy cursor].
  destruct (cipherBytes _ _ _ _) as [c|e]; [|reflexivity].
  destruct (truthy (Options.hmacKey o)); [|reflexivity].
  eff. destruct (hmacBytes _ _ _) as [h|e]; reflexivity.
Qed.

(** Without a callback or with an invalid plain text nothing is recorded. *)
Lemma encrypt_refused (self : Instance) (p : Value) (hasCallback : bool) (r : Rng) :
  hasCallback = false \/ invalidPlainText p = true ->
  trace (fst (run (encrypt self p hasCallback) r)) = [].
Proof.
  unfold encrypt, run. destruct hasCallback; cbn [negb].
  - intros [H|H]; [discriminate | rewrite H; reflexivity].
  - reflexivity.
Qed.

Lemma Kripke_encrypt_refused (o : Options.t) (p : Value) (hasCallback : bool) (r : Rng) :
  hasCallback = false \/ truthy (Options.key o) = false \/ invalidPlainText p = true ->
  trace (fst (run (Kripke_encrypt p o hasCallback) r)) = [].
Proof.
  unfold Kripke_encrypt, run. destruct hasCallback; cbn [negb]; [|reflexivity].
  destruct (truthy (Options.key o)); cbn [negb]; [|reflexivity].
  intros [H|[H|H]]; [discriminate | discriminate | rewrite H; reflexivity].
Qed.

End EncryptRuns.

(** ** The fields of a token *)

Section TokenFields.
Context {C : Crypto} {B64 : Base64Laws C}.

Lemma split_envelope (c iv salt : bytes) :
  split (envelope (base64Encode c) iv salt) dollar
  = [base64Encode c; base64Encode iv; base64Encode salt].
Proof.
  unfold envelope. cbn [String.append].
  rewrite split_app by apply base64_no_dollar.
  rewrite split_app by apply base64_no_dollar.
  rewrite split_free by apply base64_no_dollar.
  reflexivity.
Qed.

Lemma split_signed_envelope (c iv salt h : bytes) :
  split (envelope (base64Encode c) iv salt ++ String dollar (base64Encode h)) dollar
  = [base64Encode c; base64Encode iv; base64Encode salt; base64Encode h].
Proof.
  unfold envelope. cbn [String.append].
  rewrite !append_assoc. cbn [String.append]. rewrite append_assoc.
  cbn [String.append].
  rewrite split_app by apply base64_no_dollar.
  rewrite split_app by apply base64_no_dollar.
  rewrite split_app by apply base64_no_dollar.
  rewrite split_free by apply base64_no_dollar.
  reflexivity.
Qed.

Lemma encrypt_delivers_fields (self : Instance) (p : Value) (hasCallback : bool)
    (r : Rng) (token : string) :
  In token (delivered (trace (fst (run (encrypt self p hasCallback) r)))) ->
  tokenFields (truthy (hmacKey self)) token.
Proof.
  destruct hasCallback; [|rewrite encrypt_refused by auto; intros []].
  destruct (invalidPlainText p) eqn:Hp; [rewrite encrypt_refused by auto; intros []|].
  rewrite (encrypt_run self p r Hp). cbv zeta.
  destruct (kdf _ _ _ _ _) as [e|e|dk]; try (cbn; tauto).
  destruct (cipherBytes _ _ _ _) as [c|e]; try (cbn; tauto).
  unfold tokenFields.
  destruct (truthy (hmacKey self)).
  - destruct (hmacBytes _ _ _) as [h|e]; try (cbn; tauto).
    cbn. intros [<-|[]]. do 3 eexists. exists h. apply split_signed_envelope.
  - cbn. intros [<-|[]]. do 3 eexists. apply split_envelope.
Qed.

Lemma Kripke_encrypt_delivers_fields (o : Options.t) (p : Value) (hasCallback : bool)
    (r : Rng) (token : string) :
  In token (delivered (trace (fst (run (Kripke_encrypt p o hasCallback) r)))) ->
  tokenFields (truthy (Options.hmacKey o)) token.
Proof.
  destruct hasCallback; [|rewrite Kripke_encrypt_refused by auto; intros []].
  destruct (truthy (Options.key o)) eqn:Hk;
    [|rewrite Kripke_encrypt_refused by auto; intros []].
  destruct (invalidPlainText p) eqn:Hp;
    [rewrite Kripke_encrypt_refused by auto; intros []|].
  rewrite (Kripke_encrypt_run o p r Hk Hp). cbv zeta.
  destruct (kdf _ _ _ _ _) as [e|e|dk]; try (cbn; tauto).
  destruct (cipherBytes _ _ _ _) as [c|e]; try (cbn; tauto).
  unfold tokenFields.
  destruct (truthy (Options.hmacKey o)).
  - destruct (hmacBytes _ _ _) as [h|e]; try (cbn; tauto).
    cbn. intros [<-|[]]. do 3 eexists. exists h. apply split_signed_envelope.
  - cbn. intros [<-|[]]. do 3 eexists. apply split_envelope.
Qed.

End TokenFields.

(** ** The reference collaborator is lawful *)

Lemma Ref_encode_free (b : bytes) : freeOf dollar (Ref.encode b) = true.
Proof.
  induction b as [|x b IH]; [reflexivity|].
  cbn [Ref.encode freeOf]. rewrite IH.
  destruct x; reflexivity.
Qed.

Lemma Ref_decode_encode (b : bytes) : Ref.decode (Ref.encode b) = b.
Proof.
  induction b as [|x b IH]; [reflexivity|].
  cbn [Ref.encode Ref.decode]. rewrite IH. f_equal.
  destruct x; reflexivity.
Qed.

Lemma Ref_base64_laws : Base64Laws Ref.crypto.
Proof.
  constructor.
  - exact Ref_encode_free.
  - exact Ref_decode_encode.
Qed.

Lemma Ref_stripPrefix_app (p l : bytes) : Ref.stripPrefix p (p ++ l)%list = Some l.
Proof.
  induction p as [|x p IH]; [destruct l; reflexivity|].
  cbn [app Ref.stripPrefix]. rewrite (Byte.byte_dec_lb eq_refl). exact IH.
Qed.

Lemma Ref_cipher_laws : CipherLaws Ref.crypto.
Proof.
  constructor. intros algorithm derivedKey iv p c.
  cbn [cipherBytes decipherText Ref.crypto].
  unfold Ref.cipherBytes, Ref.decipherText.
  destruct (Ref.checkKey algorithm derivedKey iv); [discriminate|].
  intros H. injection H as <-.
  rewrite Ref_stripPrefix_app. cbn [Ref.bytesOf].
  rewrite rev_involutive, string_of_list_byte_of_string. reflexivity.
Qed.

(** ** Round trip *)

Section RoundTrip.
Context {C : Crypto} {B64 : Base64Laws C}.

Lemma fields_not_empty (text : string) :
  (3 <= List.length (split text dollar))%nat -> text <> "".
Proof. intros H ->. simpl in H. lia. Qed.

(** The signed text of a signed token is the token before it was signed. *)
Lemma signed_text_envelope (c iv salt h : bytes) :
  let unsigned := envelope (base64Encode c) iv salt in
  let token := unsigned ++ String dollar (base64Encode h) in
  substr token 0 (lastIndexOf token dollar) = unsigned.
Proof.
  intros unsigned token.
  rewrite signed_text_four by (unfold token, unsigned; rewrite split_signed_envelope; reflexivity).
  unfold token, unsigned. rewrite split_signed_envelope. reflexivity.
Qed.

(** [verify] passes on the token [encrypt] makes, signed or not. *)
Lemma verify_own_unsigned (self : Instance) (c iv salt : bytes) (w : World) :
  truthy (hmacKey self) = false ->
  verify self (envelope (base64Encode c) iv salt) w = (w, Returned true).
Proof.
  intros Hk. rewrite (verify_no_key _ _ _ Hk).
  rewrite split_envelope. reflexivity.
Qed.

Lemma verify_own_signed (self : Instance) (c iv salt h : bytes) (w : World) :
  let unsigned := envelope (base64Encode c) iv salt in
  truthy (hmacKey self) = true ->
  hmacBytes (hmacAlgorithm self) (hmacKey self) unsigned = Returned h ->
  verify self (unsigned ++ String dollar (base64Encode h)) w
  = (after w (EvHmac (hmacAlgorithm self) (hmacKey self) unsigned), Returned true).
Proof.
  intros unsigned Hk Hh. rewrite (verify_key _ _ _ Hk).
  unfold unsigned. rewrite split_signed_envelope. cbn [List.length Nat.ltb Nat.leb nth].
  cbv zeta. rewrite (signed_text_envelope c iv salt h). fold unsigned. rewrite Hh.
  rewrite base64_decode_encode, compareBuffers_refl. reflexivity.
Qed.

(** The round trip for a plain text of either kind: [decrypt] hands over the
    text the decipher reads back. *)
Lemma round_trip_instance (self : Instance) (p : Value) (t : string) (r : Rng) :
  invalidPlainText p = false ->
  readsBack (algorithm self) p t ->
  validConfiguration (key self) (iterations self) (keyLength self) (hmacAlgorithm self)
    (algorithm self) (hmacKey self) (draw r 16) (draw (advance r 16) 16) p ->
  exists token,
    callbacks (trace (fst (run (encrypt self p true) r))) = [(None, Some token)]
    /\ forall r',
        callbacks (trace (fst (run (decrypt self (VStr token) true) r')))
        = [(None, Some t)].
Proof.
  intros Hvalid Hback [dk [Hkdf [[c Hc] Hh]]].
  rewrite (encrypt_run self p r Hvalid). cbv zeta. rewrite Hkdf, Hc.
  set (iv := draw (advance r 16) 16). set (salt := draw r 16).
  assert (Hdec : forall token w r',
             (3 <= List.length (split token dollar))%nat ->
             firstn 3 (split token dollar)
             = [base64Encode c; base64Encode iv; base64Encode salt] ->
             verify self token (mkWorld r' []) = (w, Returned true) ->
             callbacks (trace w) = [] ->
             callbacks (trace (fst (run (decrypt self (VStr token) true) r')))
             = [(None, Some t)]).
  { intros token w r' Hlen Hfields Hv Hcb.
    rewrite (decrypt_verified self r' (fields_not_empty Hlen) Hlen Hv). cbv zeta.
    destruct (split token dollar) as [|f0 [|f1 [|f2 rest]]]; try (simpl in Hlen; lia).
    injection Hfields as -> -> ->. cbn [nth hd].
    rewrite !base64_decode_encode. unfold salt, iv. rewrite Hkdf.
    rewrite (Hback _ _ _ Hc).
    unfold after. cbn [fst trace]. rewrite !callbacks_app, Hcb. reflexivity. }
  destruct (truthy (hmacKey self)) eqn:Hk.
  - destruct (Hh eq_refl (envelope (base64Encode c) iv salt)) as [h Hhmac].
    rewrite Hhmac. eexists. split; [reflexivity|].
    intros r'. eapply Hdec.
    + rewrite split_signed_envelope. cbn. lia.
    + rewrite split_signed_envelope. reflexivity.
    + apply (verify_own_signed self c iv salt (mkWorld r' []) Hk Hhmac).
    + reflexivity.
  - eexists. split; [reflexivity|].
    intros r'. eapply Hdec.
    + rewrite split_envelope. cbn. lia.
    + rewrite split_envelope. reflexivity.
    + apply (verify_own_unsigned self c iv salt (mkWorld r' []) Hk).
    + reflexivity.
Qed.

End RoundTrip.

Section RoundTripStatic.
Context {C : Crypto} {B64 : Base64Laws C}.

Lemma invalidPlainText_text (p : string) : p <> "" -> invalidPlainText (VStr p) = false.
Proof.
  intros Hp. unfold invalidPlainText. cbn [truthy jsLength negb].
  apply String.eqb_neq in Hp. rewrite Hp. cbn [negb orb].
  apply Z.eqb_neq. destruct p; [discriminate | cbn [String.length]; lia].
Qed.

Lemma invalidPlainText_buffer (b : bytes) : b <> [] -> invalidPlainText (VBuf b) = false.
Proof.
  intros Hb. unfold invalidPlainText. cbn [truthy jsLength negb orb].
  apply Z.eqb_neq. destruct b; [congruence | cbn [List.length]; lia].
Qed.

Lemma round_trip_static (o : Options.t) (p : Value) (t : string) (r : Rng) :
  invalidPlainText p = false ->
  truthy (Options.key o) = true ->
  readsBack (orString (Options.algorithm o) "AES-256-CBC") p t ->
  validConfiguration (Options.key o) (orNumber (Options.iterations o) defaultIterations) 32
    (orString (Options.hmacAlgorithm o) "SHA256")
    (orString (Options.algorithm o) "AES-256-CBC") (Options.hmacKey o)
    (draw (advance r 16) 16) (draw r 16) p ->
  exists token,
    callbacks (trace (fst (run (Kripke_encrypt p o true) r))) = [(None, Some token)]
    /\ forall r',
        callbacks (trace (fst (run (Kripke_decrypt (VStr token) o true) r')))
        = [(None, Some t)].
Proof.
  intros Hp Hkey Hback [dk [Hkdf [[c Hc] Hh]]].
  rewrite (Kripke_encrypt_run o p r Hkey Hp).
  cbv zeta. rewrite Hkdf, Hc.
  set (iv := draw r 16). set (salt := draw (advance r 16) 16).
  pose (k := mkInstance (Options.key o) (Options.hmacKey o) 0
               (orString (Options.hmacAlgorithm o) "SHA256") 32 "").
  assert (Hdec : forall token w r',
             (3 <= List.length (split token dollar))%nat ->
             firstn 3 (split token dollar)
             = [base64Encode c; base64Encode iv; base64Encode salt] ->
             verify k token (mkWorld r' []) = (w, Returned true) ->
             callbacks (trace w) = [] ->
             callbacks (trace (fst (run (Kripke_decrypt (VStr token) o true) r')))
             = [(None, Some t)]).
  { intros token w r' Hlen Hfields Hv Hcb.
    pose proof (Kripke_decrypt_verify_world o token (mkWorld r' [])) as Hw.
    cbv zeta in Hw. fold k in Hw. rewrite Hv in Hw. cbn [fst snd errOfVerdict] in Hw.
    rewrite (Kripke_decrypt_verified o r' (fields_not_empty Hlen) Hkey Hlen Hw). cbv zeta.
    destruct (split token dollar) as [|f0 [|f1 [|f2 rest]]]; try (simpl in Hlen; lia).
    injection Hfields as -> -> ->. cbn [nth hd].
    rewrite !base64_decode_encode. unfold salt, iv. rewrite Hkdf.
    rewrite (Hback _ _ _ Hc).
    unfold after. cbn [fst trace]. rewrite !callbacks_app, Hcb. reflexivity. }
  destruct (truthy (Options.hmacKey o)) eqn:Hk.
  - destruct (Hh eq_refl (envelope (base64Encode c) iv salt)) as [h Hhmac].
    rewrite Hhmac. eexists. split; [reflexivity|].
    intros r'. eapply Hdec.
    + rewrite split_signed_envelope. cbn. lia.
    + rewrite split_signed_envelope. reflexivity.
    + apply (verify_own_signed k c iv salt (mkWorld r' []) Hk Hhmac).
    + reflexivity.
  - eexists. split; [reflexivity|].
    intros r'. eapply Hdec.
    + rewrite split_envelope. cbn. lia.
    + rewrite split_envelope. reflexivity.
    + apply (verify_own_unsigned k c iv salt (mkWorld r' []) Hk).
    + reflexivity.
Qed.

(** C1, amended: for a non-empty string [s], a configuration that is valid
    for the run (the key derivation yields a key, the cipher accepts it, the
    HMAC can be computed) and a cipher that inverts on [s], [encrypt] hands
    the callback a token and no error, and [decrypt] of that token with the
    same configuration hands the callback exactly [s] and no error; in the
    instance form and in the static form.  A non-empty Buffer [b] makes the
    same trip and does not come back as a Buffer: [decrypt] hands the callback
    the string [t] that the decipher reads from the cipher's bytes. *)
Theorem round_trip (self : Instance) (o : Options.t) (s : string) (b : bytes)
    (t : string) (r : Rng) :
  (s <> "" ->
   (readsBack (algorithm self) (VStr s) s ->
    validConfiguration (key self) (iterations self) (keyLength self) (hmacAlgorithm self)
      (algorithm self) (hmacKey self) (draw r 16) (draw (advance r 16) 16) (VStr s) ->
    exists token,
      callbacks (trace (fst (run (encrypt self (VStr s) true) r))) = [(None, Some token)]
      /\ forall r',
          callbacks (trace (fst (run (decrypt self (VStr token) true) r')))
          = [(None, Some s)])
   /\ (truthy (Options.key o) = true ->
       readsBack (orString (Options.algorithm o) "AES-256-CBC") (VStr s) s ->
       validConfiguration (Options.key o)
         (orNumber (Options.iterations o) defaultIterations) 32
         (orString (Options.hmacAlgorithm o) "SHA256")
         (orString (Options.algorithm o) "AES-256-CBC") (Options.hmacKey o)
         (draw (advance r 16) 16) (draw r 16) (VStr s) ->
       exists token,
         callbacks (trace (fst (run (Kripke_encrypt (VStr s) o true) r)))
         = [(None, Some token)]
         /\ forall r',
             callbacks (trace (fst (run (Kripke_decrypt (VStr token) o true) r')))
             = [(None, Some s)]))
  /\ (b <> [] ->
      (readsBack (algorithm self) (VBuf b) t ->
       validConfiguration (key self) (iterations self) (keyLength self) (hmacAlgorithm self)
         (algorithm self) (hmacKey self) (draw r 16) (draw (advance r 16) 16) (VBuf b) ->
       exists token,
         callbacks (trace (fst (run (encrypt self (VBuf b) true) r))) = [(None, Some token)]
         /\ forall r',
             callbacks (trace (fst (run (decrypt self (VStr token) true) r')))
             = [(None, Some t)])
      /\ (truthy (Options.key o) = true ->
          readsBack (orString (Options.algorithm o) "AES-256-CBC") (VBuf b) t ->
          validConfiguration (Options.key o)
            (orNumber (Options.iterations o) defaultIterations) 32
            (orString (Options.hmacAlgorithm o) "SHA256")
            (orString (Options.algorithm o) "AES-256-CBC") (Options.hmacKey o)
            (draw (advance r 16) 16) (draw r 16) (VBuf b) ->
          exists token,
            callbacks (trace (fst (run (Kripke_encrypt (VBuf b) o true) r)))
            = [(None, Some token)]
            /\ forall r',
                callbacks (trace (fst (run (Kripke_decrypt (VStr token) o true) r')))
                = [(None, Some t)])).
Proof.
  split.
  - intros Hs. pose proof (invalidPlainText_text Hs) as Hp. split.
    + intros Hback Hv. apply round_trip_instance; assumption.
    + intros Hk Hback Hv. apply round_trip_static; assumption.
  - intros Hb. pose proof (invalidPlainText_buffer Hb) as Hp. split.
    + intros Hback Hv. apply round_trip_instance; assumption.
    + intros Hk Hback Hv. apply round_trip_static; assumption.
Qed.

End RoundTripStatic.

(** A cipher that keeps the cipher law reads every string back as itself. *)
Lemma cipher_laws_read_back {C : Crypto} {CL : CipherLaws C} (algorithm s : string) :
  readsBack algorithm (VStr s) s.
Proof. intros dk iv c H. apply decipher_cipher. exact H. Qed.

Section RoundTripOnReference.
#[local] Existing Instance Ref.crypto.

Lemma Ref_options2_valid (keylen : Z) (salt iv : bytes) (p : Value) :
  keylen = 32 -> List.length iv = 16%nat ->
  validConfiguration (VStr "secret") 10000 keylen "SHA256" "AES-256-CBC" (VStr "hk")
    salt iv p.
Proof.
  intros -> Hiv. unfold validConfiguration.
  eexists. split; [reflexivity|]. split.
  - eexists. cbn [cipherBytes Ref.crypto]. unfold Ref.cipherBytes, Ref.checkKey.
    cbn [Ref.cipherKeyLength String.eqb Ascii.eqb Bool.eqb]. rewrite Hiv.
    rewrite length_map, length_seq. reflexivity.
  - intros _ data. eexists. reflexivity.
Qed.

(** The reference decipher reads a string back as itself, and a Buffer as the
    string of its bytes. *)
Lemma Ref_reads_back (algorithm : string) (p : Value) :
  readsBack algorithm p (string_of_list_byte (Ref.bytesOf p)).
Proof.
  intros dk iv c.
  cbn [cipherBytes decipherText Ref.crypto].
  unfold Ref.cipherBytes, Ref.decipherText.
  destruct (Ref.checkKey algorithm dk iv); [discriminate|].
  intros H. injection H as <-.
  rewrite Ref_stripPrefix_app, rev_involutive. reflexivity.
Qed.

Lemma round_trip_witness :
  ((exists token,
       callbacks (trace (fst (run (encrypt (Ref.instanceOf Ref.options2) (VStr "hi") true)
                                Ref.rng0)))
       = [(None, Some token)]
       /\ forall r',
           callbacks (trace (fst (run (decrypt (Ref.instanceOf Ref.options2) (VStr token) true)
                                    r')))
           = [(None, Some "hi")])
   /\ (exists token,
          callbacks (trace (fst (run (Kripke_encrypt (VStr "hi") Ref.options2 true) Ref.rng0)))
          = [(None, Some token)]
          /\ forall r',
              callbacks (trace (fst (run (Kripke_decrypt (VStr token) Ref.options2 true) r')))
              = [(None, Some "hi")]))
  /\ ((exists token,
          callbacks (trace (fst (run (encrypt (Ref.instanceOf Ref.options2)
                                        (VBuf [x68; x69]) true) Ref.rng0)))
          = [(None, Some token)]
          /\ forall r',
              callbacks (trace (fst (run (decrypt (Ref.instanceOf Ref.options2) (VStr token)
                                            true) r')))
              = [(None, Some "hi")])
      /\ (exists token,
             callbacks (trace (fst (run (Kripke_encrypt (VBuf [x68; x69]) Ref.options2 true)
                                      Ref.rng0)))
             = [(None, Some token)]
             /\ forall r',
                 callbacks (trace (fst (run (Kripke_decrypt (VStr token) Ref.options2 true)
                                          r')))
                 = [(None, Some "hi")])).
Proof.
  destruct (@round_trip Ref.crypto Ref_base64_laws
              (Ref.instanceOf Ref.options2) Ref.options2 "hi" [x68; x69] "hi" Ref.rng0)
    as [Hs Hb].
  destruct (Hs ltac:(discriminate)) as [H1 H2].
  destruct (Hb ltac:(discriminate)) as [H3 H4].
  split; split.
  - apply H1; [exact (Ref_reads_back _ (VStr "hi")) | apply Ref_options2_valid; reflexivity].
  - apply H2; [reflexivity | exact (Ref_reads_back _ (VStr "hi"))
               | apply Ref_options2_valid; reflexivity].
  - apply H3; [exact (Ref_reads_back _ (VBuf [x68; x69]))
               | apply Ref_options2_valid; reflexivity].
  - apply H4; [reflexivity | exact (Ref_reads_back _ (VBuf [x68; x69]))
               | apply Ref_options2_valid; reflexivity].
Defined.

(** A Buffer does not come back as itself: for the Buffer of the two bytes of
    ['hi'], [encrypt] delivers a token, and [decrypt] of that token delivers
    the string ['hi'], which is not the Buffer; in both forms. *)
Lemma buffer_comes_back_as_a_string :
  let p := VBuf [x68; x69] in
  let self := Ref.instanceOf Ref.options2 in
  let token :=
    hd EmptyString (delivered (trace (fst (run (encrypt self p true) Ref.rng0)))) in
  let token' :=
    hd EmptyString
      (delivered (trace (fst (run (Kripke_encrypt p Ref.options2 true) Ref.rng0)))) in
  invalidPlainText p = false
  /\ callbacks (trace (fst (run (encrypt self p true) Ref.rng0))) = [(None, Some token)]
  /\ callbacks (trace (fst (run (decrypt self (VStr token) true) Ref.rng0)))
     = [(None, Some "hi")]
  /\ callbacks (trace (fst (run (Kripke_encrypt p Ref.options2 true) Ref.rng0)))
     = [(None, Some token')]
  /\ callbacks (trace (fst (run (Kripke_decrypt (VStr token') Ref.options2 true) Ref.rng0)))
     = [(None, Some "hi")]
  /\ VStr "hi" <> p.
Proof. vm_compute. repeat split. discriminate. Qed.

End RoundTripOnReference.

(** ** The static functions against the instance methods *)

Section StaticVersusInstance.
Context {C : Crypto}.

(** What the constructor returns, given a key. *)
Lemma Kripke_returns (o : Options.t) (self : Instance) :
  Kripke (Some o) = Returned self ->
  truthy (Options.key o) = true
  /\ key self = Options.key o
  /\ hmacKey self = Options.hmacKey o
  /\ iterations self = orNumber (Options.iterations o) defaultIterations
  /\ hmacAlgorithm self = orString (Options.hmacAlgorithm o) "SHA256"
  /\ algorithm self = orString (Options.algorithm o) "AES-256-CBC".
Proof.
  unfold Kripke. destruct (truthy (Options.key o)); cbn [negb]; [|discriminate].
  intros H. injection H as <-. cbn. repeat split; reflexivity.
Qed.

(** The instance derives 32 bytes unless [keyLength] is 128 or 192. *)
Lemma Kripke_keyLength_32 (o : Options.t) (self : Instance) :
  Kripke (Some o) = Returned self ->
  Options.keyLength o <> Some 128 ->
  Options.keyLength o <> Some 192 ->
  keyLength self = 32.
Proof.
  unfold Kripke. destruct (truthy (Options.key o)); cbn [negb]; [|discriminate].
  intros H H128 H192.
  assert (E0 : keyLength self
               = match Options.keyLength o with
                 | Some n =>
                     if negb (n =? 0) && (-1 <? indexOf [128; 192; 256] n)
                     then n / 8 else 32
                 | None => 32
                 end) by (injection H as <-; reflexivity).
  rewrite E0.
  destruct (Options.keyLength o) as [n|]; [|reflexivity].
  destruct (negb (n =? 0) && (-1 <? indexOf [128; 192; 256] n)) eqn:E; [|reflexivity].
  apply andb_true_iff in E. destruct E as [_ E].
  apply indexOf_supported in E. destruct E as [->|[->| ->]]; [congruence | congruence | reflexivity].
Qed.

Lemma decrypt_refused (self : Instance) (v : Value) (hasCallback : bool) (r : Rng) :
  hasCallback = false \/ invalidCipherText v = true ->
  trace (fst (run (decrypt self v hasCallback) r)) = [].
Proof.
  unfold decrypt, run. destruct hasCallback; cbn [negb].
  - intros [H|H]; [discriminate | rewrite H; reflexivity].
  - reflexivity.
Qed.

Lemma Kripke_decrypt_refused (o : Options.t) (v : Value) (hasCallback : bool) (r : Rng) :
  hasCallback = false \/ invalidCipherText v = true \/ truthy (Options.key o) = false ->
  trace (fst (run (Kripke_decrypt v o hasCallback) r)) = [].
Proof.
  unfold Kripke_decrypt, run. destruct hasCallback; cbn [negb]; [|reflexivity].
  destruct (invalidCipherText v); [reflexivity|].
  intros [H|[H|H]]; [discriminate | discriminate | rewrite H; reflexivity].
Qed.

Lemma invalidCipherText_false (v : Value) :
  invalidCipherText v = false -> exists text, v = VStr text /\ text <> "".
Proof.
  destruct v as [| |s|b]; cbn; try discriminate.
  intros H. exists s. split; [reflexivity|].
  intros ->. discriminate H.
Qed.

(** Two traces that extend the trace of one verification read alike. *)
Ltac same_reading :=
  unfold after; cbn [fst trace];
  rewrite !delivered_app, !derivations_app;
  match goal with
  | Hdl : delivered _ = [], Hdr : derivations _ = [] |- _ => rewrite Hdl, Hdr
  end;
  split; reflexivity.

Lemma encrypt_static_equiv (o : Options.t) (self : Instance) (p : Value)
    (hasCallback : bool) (ri rs : Rng) :
  Kripke (Some o) = Returned self ->
  keyLength self = 32 ->
  draw ri 16 = draw (advance rs 16) 16 ->
  draw (advance ri 16) 16 = draw rs 16 ->
  derivations (trace (fst (run (encrypt self p hasCallback) ri)))
  = derivations (trace (fst (run (Kripke_encrypt p o hasCallback) rs)))
  /\ delivered (trace (fst (run (encrypt self p hasCallback) ri)))
     = delivered (trace (fst (run (Kripke_encrypt p o hasCallback) rs))).
Proof.
  intros HK H32 Hsalt Hiv.
  destruct (Kripke_returns o HK) as [Hkey [Ek [Eh [Ei [Ea Ec]]]]].
  destruct hasCallback;
    [|rewrite encrypt_refused, Kripke_encrypt_refused by auto; split; reflexivity].
  destruct (invalidPlainText p) eqn:Hp;
    [rewrite encrypt_refused, Kripke_encrypt_refused by auto; split; reflexivity|].
  rewrite (encrypt_run self p ri Hp), (Kripke_encrypt_run o p rs Hkey Hp).
  cbv zeta. rewrite Ek, Eh, Ei, Ea, Ec, H32, Hsalt, Hiv.
  destruct (kdf _ _ _ _ _) as [e|e|dk]; [split; reflexivity | split; reflexivity |].
  destruct (cipherBytes _ _ _ _) as [c|e]; [|split; reflexivity].
  destruct (truthy (Options.hmacKey o)); [|split; reflexivity].
  destruct (hmacBytes _ _ _) as [h|e]; split; reflexivity.
Qed.

Lemma decrypt_static_equiv (o : Options.t) (self : Instance) (v : Value)
    (hasCallback : bool) (r r' : Rng) :
  Kripke (Some o) = Returned self ->
  keyLength self = 32 ->
  derivations (trace (fst (run (decrypt self v hasCallback) r)))
  = derivations (trace (fst (run (Kripke_decrypt v o hasCallback) r')))
  /\ delivered (trace (fst (run (decrypt self v hasCallback) r)))
     = delivered (trace (fst (run (Kripke_decrypt v o hasCallback) r'))).
Proof.
  intros HK H32.
  destruct (Kripke_returns o HK) as [Hkey [Ek [Eh [Ei [Ea Ec]]]]].
  destruct hasCallback;
    [|rewrite decrypt_refused, Kripke_decrypt_refused by auto; split; reflexivity].
  destruct (invalidCipherText v) eqn:Hv;
    [rewrite decrypt_refused, Kripke_decrypt_refused by auto; split; reflexivity|].
  destruct (invalidCipherText_false _ Hv) as [text [-> Ht]].
  destruct (Nat.ltb (List.length (split text dollar)) 3) eqn:E.
  - apply Nat.ltb_lt in E.
    rewrite (decrypt_short self r Ht E), (Kripke_decrypt_short o r' Ht Hkey E).
    split; reflexivity.
  - apply Nat.ltb_ge in E.
    assert (Hrng : forall w, fst (verify self text (mkWorld r []))
                             = mkWorld r w ->
                   fst (verify self text (mkWorld r' [])) = mkWorld r' w
                   /\ snd (verify self text (mkWorld r' []))
                      = snd (verify self text (mkWorld r [])) ).
    { intros w. destruct (truthy (hmacKey self)) eqn:Hk.
      - rewrite !(verify_key _ _ _ Hk).
        destruct (Nat.ltb _ 4); cbn; intros H; injection H as <-; split; reflexivity.
      - rewrite !(verify_no_key _ _ _ Hk).
        destruct (Nat.eqb _ 4); cbn; intros H; injection H as <-; split; reflexivity. }
    destruct (verify self text (mkWorld r [])) as [w c] eqn:Ev.
    destruct (verify_world _ _ _ Ev) as [Hr _]. cbn [rng] in Hr.
    destruct w as [wr wt]. cbn [rng] in Hr. subst wr.
    destruct (Hrng wt eq_refl) as [Hf Hs]. cbn [snd] in Hs.
    destruct (verify_trace_quiet _ _ _ Ev) as [_ [Hdl _]]. cbn [trace] in Hdl.
    pose proof (verify_trace_derives_nothing _ _ _ Ev) as Hdr. cbn [trace] in Hdr.
    pose proof (Kripke_decrypt_verify_verdict self o text (mkWorld r' []) Eh) as Hw.
    rewrite Hf, Hs, Ea in Hw.
    destruct c as [[|]|e].
    + rewrite (decrypt_verified self r Ht E Ev).
      cbn [errOfVerdict] in Hw.
      rewrite (Kripke_decrypt_verified o r' Ht Hkey E Hw).
      cbv zeta. rewrite Ek, Ei, Ea, Ec, H32.
      destruct (kdf _ _ _ _ _) as [e|e|dk]; try same_reading.
      destruct (decipherText _ _ _ _); same_reading.
    + rewrite (decrypt_rejected self r Ht E Ev ltac:(discriminate)).
      rewrite (Kripke_decrypt_rejected o r' Ht Hkey E Hw).
      same_reading.
    + rewrite (decrypt_rejected self r Ht E Ev ltac:(discriminate)).
      rewrite (Kripke_decrypt_rejected o r' Ht Hkey E Hw).
      same_reading.
Qed.

(** C4, amended: the static functions and the instance methods deliver the
    same results when the instance derives a 32-byte key, that is when its
    [keyLength] option is absent, 256 or unsupported.  Given the same key,
    options, salt and iv, both forms of [encrypt] ask for the same key
    derivation and deliver the same token, and on every token both forms of
    [decrypt] ask for the same key derivation and deliver the same plain text,
    so a token made by one form decrypts under the other.  The static
    functions do not read [keyLength]: they always derive 32 bytes. *)
Theorem static_matches_instance (o : Options.t) (self : Instance) (p v : Value)
    (hasCallback : bool) (ri rs r r' : Rng) :
  Kripke (Some o) = Returned self ->
  Options.keyLength o <> Some 128 ->
  Options.keyLength o <> Some 192 ->
  (draw ri 16 = draw (advance rs 16) 16 ->
   draw (advance ri 16) 16 = draw rs 16 ->
   derivations (trace (fst (run (encrypt self p hasCallback) ri)))
   = derivations (trace (fst (run (Kripke_encrypt p o hasCallback) rs)))
   /\ delivered (trace (fst (run (encrypt self p hasCallback) ri)))
      = delivered (trace (fst (run (Kripke_encrypt p o hasCallback) rs))))
  /\ (derivations (trace (fst (run (decrypt self v hasCallback) r)))
      = derivations (trace (fst (run (Kripke_decrypt v o hasCallback) r')))
      /\ delivered (trace (fst (run (decrypt self v hasCallback) r)))
         = delivered (trace (fst (run (Kripke_decrypt v o hasCallback) r')))).
Proof.
  intros HK H128 H192.
  pose proof (Kripke_keyLength_32 o HK H128 H192) as H32.
  split.
  - intros Hsalt Hiv. apply encrypt_static_equiv; assumption.
  - apply decrypt_static_equiv; assumption.
Qed.

End StaticVersusInstance.

Section StaticVersusInstanceOnReference.
#[local] Existing Instance Ref.crypto.

Lemma static_matches_instance_witness :
  delivered (trace (fst (run (encrypt (Ref.instanceOf Ref.options2) (VStr "hi") true)
                           Ref.rng0)))
  = delivered (trace (fst (run (Kripke_encrypt (VStr "hi") Ref.options2 true)
                             Ref.rngSwapped)))
  /\ delivered (trace (fst (run (decrypt (Ref.instanceOf Ref.options2) (VStr "a$b$c") true)
                              Ref.rng0)))
     = delivered (trace (fst (run (Kripke_decrypt (VStr "a$b$c") Ref.options2 true)
                                Ref.rng0))).
Proof.
  destruct (@static_matches_instance Ref.crypto Ref.options2 (Ref.instanceOf Ref.options2)
              (VStr "hi") (VStr "a$b$c") true Ref.rng0 Ref.rngSwapped Ref.rng0 Ref.rng0
              eq_refl ltac:(discriminate) ltac:(discriminate)) as [H1 [_ H2]].
  split.
  - apply H1; reflexivity.
  - exact H2.
Defined.

(** With [keyLength: 128] and ['AES-128-CBC'] the two forms part ways on the
    same key, options, salt and iv: the instance asks [pbkdf2] for 16 bytes
    and delivers a token, the static [encrypt] asks for 32, which the cipher
    refuses, and delivers none; and the static [decrypt] does not recover the
    plain text of the instance's token. *)
Lemma static_ignores_keyLength :
  let self := Ref.instanceOf Ref.options128 in
  let out := run (encrypt self (VStr "hi") true) Ref.rng0 in
  let out' := run (Kripke_encrypt (VStr "hi") Ref.options128 true) Ref.rngSwapped in
  let token := hd EmptyString (delivered (trace (fst out))) in
  Kripke (Some Ref.options128) = Returned self
  /\ draw Ref.rng0 16 = draw (advance Ref.rngSwapped 16) 16
  /\ draw (advance Ref.rng0 16) 16 = draw Ref.rngSwapped 16
  /\ delivered (trace (fst out)) <> delivered (trace (fst out'))
  /\ delivered (trace (fst out)) = [token]
  /\ callbacks (trace (fst out')) = [(Some (mkError PlainError "Invalid key length"), None)]
  /\ delivered (trace (fst (run (decrypt self (VStr token) true) Ref.rng0))) = ["hi"]
  /\ delivered (trace (fst (run (Kripke_decrypt (VStr token) Ref.options128 true) Ref.rng0)))
     = [].
Proof.
  vm_compute.
  split; [reflexivity|]. split; [reflexivity|]. split; [reflexivity|].
  split; [discriminate|]. repeat split.
Qed.

End StaticVersusInstanceOnReference.

(** ** Where errors go *)

Section ErrorChannels.
Context {C : Crypto}.

(** When [pbkdf2] throws, the instance [encrypt] throws: the error does not
    reach the callback. *)
Lemma encrypt_kdf_throws (self : Instance) (p : Value) (r : Rng) (e : JsError) :
  invalidPlainText p = false ->
  kdf (key self) (draw r 16) (iterations self) (keyLength self) (hmacAlgorithm self)
  = KdfThrows e ->
  snd (run (encrypt self p true) r) = Thrown e
  /\ callbacks (trace (fst (run (encrypt self p true) r))) = [].
Proof.
  intros Hp Hk. rewrite (encrypt_run self p r Hp). cbv zeta. rewrite Hk.
  split; reflexivity.
Qed.

(** The static [encrypt] catches the same throw and calls back with it. *)
Lemma Kripke_encrypt_kdf_throws (o : Options.t) (p : Value) (r : Rng) (e : JsError) :
  truthy (Options.key o) = true ->
  invalidPlainText p = false ->
  kdf (Options.key o) (draw (advance r 16) 16)
    (orNumber (Options.iterations o) defaultIterations) 32
    (orString (Options.hmacAlgorithm o) "SHA256") = KdfThrows e ->
  snd (run (Kripke_encrypt p o true) r) = Returned tt
  /\ callbacks (trace (fst (run (Kripke_encrypt p o true) r))) = [(Some e, None)].
Proof.
  intros Hkey Hp Hk. rewrite (Kripke_encrypt_run o p r Hkey Hp). cbv zeta. rewrite Hk.
  split; reflexivity.
Qed.

(** When [pbkdf2] calls back with an error, the instance [decrypt] calls back
    with neither an error nor a result. *)
Lemma decrypt_kdf_fails (self : Instance) (text : string) (r : Rng) (w : World)
    (e : JsError) :
  (3 <= List.length (split text dollar))%nat ->
  verify self text (mkWorld r []) = (w, Returned true) ->
  kdf (key self) (base64Decode (nth 2 (split text dollar) EmptyString))
    (iterations self) (keyLength self) (hmacAlgorithm self) = KdfFails e ->
  callbacks (trace (fst (run (decrypt self (VStr text) true) r))) = [(None, None)].
Proof.
  intros Hlen Hv Hk.
  assert (Ht : text <> "") by (intros ->; simpl in Hlen; lia).
  rewrite (decrypt_verified self r Ht Hlen Hv). cbv zeta. rewrite Hk.
  destruct (verify_trace_quiet _ _ _ Hv) as [Hcb _].
  unfold after. cbn [fst trace]. rewrite !callbacks_app, Hcb. reflexivity.
Qed.

(** When [pbkdf2] throws, the instance [decrypt] catches it and calls back
    with it; the static [decrypt] lets it through. *)
Lemma decrypt_kdf_throws (self : Instance) (text : string) (r : Rng) (w : World)
    (e : JsError) :
  (3 <= List.length (split text dollar))%nat ->
  verify self text (mkWorld r []) = (w, Returned true) ->
  kdf (key self) (base64Decode (nth 2 (split text dollar) EmptyString))
    (iterations self) (keyLength self) (hmacAlgorithm self) = KdfThrows e ->
  snd (run (decrypt self (VStr text) true) r) = Returned tt
  /\ callbacks (trace (fst (run (decrypt self (VStr text) true) r))) = [(Some e, None)].
Proof.
  intros Hlen Hv Hk.
  assert (Ht : text <> "") by (intros ->; simpl in Hlen; lia).
  rewrite (decrypt_verified self r Ht Hlen Hv). cbv zeta. rewrite Hk.
  destruct (verify_trace_quiet _ _ _ Hv) as [Hcb _].
  unfold after. cbn [fst snd trace]. rewrite !callbacks_app, Hcb.
  split; reflexivity.
Qed.

Lemma Kripke_decrypt_kdf_throws (o : Options.t) (text : string) (r : Rng) (w : World)
    (e : JsError) :
  truthy (Options.key o) = true ->
  (3 <= List.length (split text dollar))%nat ->
  Kripke_decrypt_verify o (orString (Options.hmacAlgorithm o) "SHA256") text
    (split text dollar) (mkWorld r []) = (w, Returned None) ->
  kdf (Options.key o) (base64Decode (nth 2 (split text dollar) EmptyString))
    (orNumber (Options.iterations o) defaultIterations) 32
    (orString (Options.hmacAlgorithm o) "SHA256") = KdfThrows e ->
  snd (run (Kripke_decrypt (VStr text) o true) r) = Thrown e.
Proof.
  intros Hkey Hlen Hv Hk.
  assert (Ht : text <> "") by (intros ->; simpl in Hlen; lia).
  rewrite (Kripke_decrypt_verified o r Ht Hkey Hlen Hv). cbv zeta. rewrite Hk.
  reflexivity.
Qed.

End ErrorChannels.

Section ErrorChannelsOnReference.
#[local] Existing Instance Ref.crypto.

(** C10, at the inputs where the code departs from it: errors that are not
    argument-validation failures are thrown instead of reaching the callback.
    The static [decrypt] throws on a token of one field, which the instance
    [decrypt] reports to the callback; and when [pbkdf2] throws (an unknown
    digest), the instance [encrypt] and the static [decrypt] throw, which the
    static [encrypt] and the instance [decrypt] report to the callback. *)
Theorem errors_thrown_past_the_callback :
  let bad := Ref.optionsBadDigest in
  let thrown (out : World * Completion unit) (e : JsError) :=
    snd out = Thrown e /\ callbacks (trace (fst out)) = [] in
  let reported (out : World * Completion unit) (e : JsError) :=
    snd out = Returned tt /\ callbacks (trace (fst out)) = [(Some e, None)] in
  (forall (C' : Crypto) (r : Rng),
      thrown (run (@Kripke_decrypt C' (VStr "abc") Ref.options1 true) r)
        (mkError TypeError msgBuffer))
  /\ (forall (C' : Crypto) (r : Rng),
         reported (run (@decrypt C' (Ref.instanceOf Ref.options1) (VStr "abc") true) r)
           (mkError TypeError msgEncodedText))
  /\ thrown (run (encrypt (Ref.instanceOf bad) (VStr "hi") true) Ref.rng0)
       (mkError TypeError "Bad digest name")
  /\ reported (run (Kripke_encrypt (VStr "hi") bad true) Ref.rng0)
       (mkError TypeError "Bad digest name")
  /\ thrown (run (Kripke_decrypt (VStr "a$b$c") bad true) Ref.rng0)
       (mkError TypeError "Bad digest name")
  /\ reported (run (decrypt (Ref.instanceOf bad) (VStr "a$b$c") true) Ref.rng0)
       (mkError TypeError "Bad digest name").
Proof.
  cbv zeta. split; [|split].
  - intros C' r.
    rewrite (@Kripke_decrypt_short C' Ref.options1 "abc" r) by
      (try discriminate; try reflexivity; vm_compute; lia).
    split; reflexivity.
  - intros C' r.
    rewrite (@decrypt_short C' (Ref.instanceOf Ref.options1) "abc" r) by
      (try discriminate; vm_compute; lia).
    split; reflexivity.
  - vm_compute. repeat split.
Qed.

End ErrorChannelsOnReference.

(** * Further properties *)

(** ** [sign] and [verify] as a pair *)

Lemma split_snoc (sep : ascii) (a d : string) :
  freeOf sep d = true -> split (a ++ String sep d) sep = (split a sep ++ [d])%list.
Proof.
  intros Hd. induction a as [|c a IH].
  - cbn [String.append split]. rewrite Ascii.eqb_refl, (split_free _ _ Hd). reflexivity.
  - cbn [String.append split]. rewrite IH.
    destruct (Ascii.eqb c sep); [reflexivity|].
    generalize (split_not_nil sep a). destruct (split a sep) as [|p ps]; [congruence|].
    reflexivity.
Qed.

Lemma compareBuffers_eq (b1 b2 : bytes) : compareBuffers b1 b2 = true -> b1 = b2.
Proof.
  intros H. destruct (Nat.eq_dec (List.length b1) (List.length b2)) as [E|E].
  - rewrite (compareBuffers_fold _ _ E) in H.
    apply Z.eqb_eq in H. apply fold_xorAcc_zero in H; tauto.
  - unfold compareBuffers in H. apply Nat.eqb_neq in E. rewrite E in H. discriminate.
Qed.

Lemma compareBuffers_neq (b1 b2 : bytes) : b1 <> b2 -> compareBuffers b1 b2 = false.
Proof.
  intros H. destruct (compareBuffers b1 b2) eqn:E; [|reflexivity].
  apply compareBuffers_eq in E. congruence.
Qed.

Section SignVerify.
Context {C : Crypto} {B64 : Base64Laws C}.

Lemma sign_run (self : Instance) (data : string) (w : World) :
  truthy (hmacKey self) = true ->
  sign self data w
  = (after w (EvHmac (hmacAlgorithm self) (hmacKey self) data),
     match hmacBytes (hmacAlgorithm self) (hmacKey self) data with
     | Returned h => Returned (data ++ String dollar (base64Encode h))
     | Thrown e => Thrown e
     end).
Proof.
  intros Hk. unfold sign. rewrite Hk. eff.
  destruct (hmacBytes _ _ _); reflexivity.
Qed.

(** The text [verify] signs again is the text [sign] signed. *)
Lemma signed_text_of_signed (data : string) (h : bytes) :
  let signed := data ++ String dollar (base64Encode h) in
  substr signed 0 (lastIndexOf signed dollar) = data.
Proof.
  cbv zeta. rewrite lastIndexOf_app by apply base64_no_dollar.
  apply substr_prefix.
Qed.

(** X1: with an HMAC key, [verify] accepts what [sign] returns for a text of
    exactly three fields: it recomputes the HMAC over the text that was signed
    and finds it in the fourth field. *)
Theorem sign_then_verify (self : Instance) (data : string) (h : bytes) (w : World) :
  truthy (hmacKey self) = true ->
  List.length (split data dollar) = 3%nat ->
  hmacBytes (hmacAlgorithm self) (hmacKey self) data = Returned h ->
  bind (sign self data) (verify self) w
  = (after (after w (EvHmac (hmacAlgorithm self) (hmacKey self) data))
       (EvHmac (hmacAlgorithm self) (hmacKey self) data),
     Returned true).
Proof.
  intros Hk Hlen Hh. unfold bind. rewrite (sign_run _ _ _ Hk), Hh.
  rewrite (verify_key _ _ _ Hk).
  rewrite split_snoc by apply base64_no_dollar.
  rewrite length_app, Hlen. cbn [List.length Nat.add Nat.ltb Nat.leb].
  cbv zeta. rewrite signed_text_of_signed, Hh.
  rewrite app_nth2 by lia. rewrite Hlen. cbn [Nat.sub nth].
  rewrite base64_decode_encode, compareBuffers_refl. reflexivity.
Qed.

(** X2: [sign] and [verify] do not pair up on a text of fewer than three
    fields: what [sign] returns has fewer than four, and [verify] throws the
    signature-missing error without recomputing the HMAC. *)
Theorem sign_then_verify_short (self : Instance) (data : string) (h : bytes) (w : World) :
  truthy (hmacKey self) = true ->
  (List.length (split data dollar) < 3)%nat ->
  hmacBytes (hmacAlgorithm self) (hmacKey self) data = Returned h ->
  bind (sign self data) (verify self) w
  = (after w (EvHmac (hmacAlgorithm self) (hmacKey self) data),
     Thrown (mkError TypeError msgNoSignature)).
Proof.
  intros Hk Hlen Hh. unfold bind. rewrite (sign_run _ _ _ Hk), Hh.
  rewrite (verify_key _ _ _ Hk).
  rewrite split_snoc by apply base64_no_dollar.
  rewrite length_app. cbn [List.length].
  replace (Nat.ltb (List.length (split data dollar) + 1) 4) with true
    by (symmetry; apply Nat.ltb_lt; lia).
  reflexivity.
Qed.

End SignVerify.

Section SignVerifyOnReference.
#[local] Existing Instance Ref.crypto.

Lemma sign_then_verify_witness :
  snd (bind (sign (Ref.instanceOf Ref.options2) "x$y$z")
         (verify (Ref.instanceOf Ref.options2)) (mkWorld Ref.rng0 []))
  = Returned true.
Proof.
  rewrite (@sign_then_verify Ref.crypto Ref_base64_laws (Ref.instanceOf Ref.options2)
             "x$y$z" (Ref.bytesOf (VStr "hk") ++ rev (list_byte_of_string "x$y$z"))%list
             (mkWorld Ref.rng0 []) eq_refl eq_refl eq_refl).
  reflexivity.
Defined.

Lemma sign_then_verify_short_witness :
  snd (bind (sign (Ref.instanceOf Ref.options2) "hello")
         (verify (Ref.instanceOf Ref.options2)) (mkWorld Ref.rng0 []))
  = Thrown (mkError TypeError msgNoSignature).
Proof.
  rewrite (@sign_then_verify_short Ref.crypto Ref_base64_laws (Ref.instanceOf Ref.options2)
             "hello" (Ref.bytesOf (VStr "hk") ++ rev (list_byte_of_string "hello"))%list
             (mkWorld Ref.rng0 []) eq_refl ltac:(vm_compute; lia) eq_refl).
  reflexivity.
Defined.

End SignVerifyOnReference.

(** ** Tampering and mismatched policies *)

Section Tampering.
Context {C : Crypto}.

(** X3: tamper detection.  On a token of four fields, with an HMAC key, when
    the HMAC recomputed over the first three fields is not the decoded fourth
    field, [decrypt] computes that one HMAC and calls back once with the
    verification error: no key is derived and nothing is deciphered.  So do
    the instance method and the static function. *)
Theorem tamper_detected (o : Options.t) (self : Instance) (text : string) (h : bytes)
    (r : Rng) :
  Kripke (Some o) = Returned self ->
  truthy (hmacKey self) = true ->
  List.length (split text dollar) = 4%nat ->
  hmacBytes (hmacAlgorithm self) (hmacKey self)
    (join (firstn 3 (split text dollar)) dollar) = Returned h ->
  h <> base64Decode (nth 3 (split text dollar) EmptyString) ->
  let report :=
    (mkWorld r
       [EvHmac (hmacAlgorithm self) (hmacKey self)
          (join (firstn 3 (split text dollar)) dollar);
        EvCallback (Some (mkError PlainError msgVerification)) None],
     Returned tt) in
  run (decrypt self (VStr text) true) r = report
  /\ run (Kripke_decrypt (VStr text) o true) r = report.
Proof.
  intros HK Hk Hlen Hh Hneq report.
  destruct (Kripke_returns o HK) as [Hkey [_ [Eh [_ [Ea _]]]]].
  assert (Ht : text <> "") by (intros ->; discriminate Hlen).
  assert (Hv : verify self text (mkWorld r [])
               = (after (mkWorld r [])
                    (EvHmac (hmacAlgorithm self) (hmacKey self)
                       (join (firstn 3 (split text dollar)) dollar)),
                  Returned false)).
  { rewrite (verify_key _ _ _ Hk), Hlen. cbn [Nat.ltb Nat.leb]. cbv zeta.
    rewrite (signed_text_four _ Hlen), Hh, (compareBuffers_neq Hneq). reflexivity. }
  split.
  - rewrite (decrypt_rejected self r Ht ltac:(lia) Hv ltac:(discriminate)).
    reflexivity.
  - pose proof (Kripke_decrypt_verify_verdict self o text (mkWorld r []) Eh) as Hw.
    rewrite Hv, Ea in Hw. cbn [fst snd errOfVerdict] in Hw.
    rewrite (Kripke_decrypt_rejected o r Ht Hkey ltac:(lia) Hw).
    unfold report. rewrite Ea. reflexivity.
Qed.

(** A token with the fields of a signed one meets a verifier without a key,
    or a token with the fields of an unsigned one a verifier with a key. *)
Lemma decrypt_policy_mismatch (verifier : Instance) (signed : bool) (token : string)
    (r : Rng) :
  tokenFields signed token ->
  signed = negb (truthy (hmacKey verifier)) ->
  run (decrypt verifier (VStr token) true) r
  = (mkWorld r
       [EvCallback
          (Some (mkError TypeError
                   (if truthy (hmacKey verifier) then msgNoSignature else msgKeyRequired)))
          None],
     Returned tt).
Proof.
  intros [c [iv [salt Hf]]] Hs.
  destruct (truthy (hmacKey verifier)) eqn:Hk; cbn [negb] in Hs; subst signed.
  - assert (Hlen : List.length (split token dollar) = 3%nat) by (rewrite Hf; reflexivity).
    assert (Ht : token <> "") by (intros ->; discriminate Hlen).
    assert (Hv : verify verifier token (mkWorld r [])
                 = (mkWorld r [], Thrown (mkError TypeError msgNoSignature))).
    { rewrite (verify_key _ _ _ Hk), Hlen. reflexivity. }
    rewrite (decrypt_rejected verifier r Ht ltac:(lia) Hv ltac:(discriminate)).
    reflexivity.
  - destruct Hf as [h Hf].
    assert (Hlen : List.length (split token dollar) = 4%nat) by (rewrite Hf; reflexivity).
    assert (Ht : token <> "") by (intros ->; discriminate Hlen).
    assert (Hv : verify verifier token (mkWorld r [])
                 = (mkWorld r [], Thrown (mkError TypeError msgKeyRequired))).
    { rewrite (verify_no_key _ _ _ Hk), Hlen. reflexivity. }
    rewrite (decrypt_rejected verifier r Ht ltac:(lia) Hv ltac:(discriminate)).
    reflexivity.
Qed.

Lemma Kripke_decrypt_policy_mismatch (verifier : Options.t) (signed : bool)
    (token : string) (r : Rng) :
  truthy (Options.key verifier) = true ->
  tokenFields signed token ->
  signed = negb (truthy (Options.hmacKey verifier)) ->
  run (Kripke_decrypt (VStr token) verifier true) r
  = (mkWorld r
       [EvCallback
          (Some (mkError TypeError
                   (if truthy (Options.hmacKey verifier)
                    then msgNoSignature else msgKeyRequired)))
          None],
     Returned tt).
Proof.
  intros Hkey [c [iv [salt Hf]]] Hs.
  destruct (truthy (Options.hmacKey verifier)) eqn:Hk; cbn [negb] in Hs; subst signed.
  - assert (Hlen : List.length (split token dollar) = 3%nat) by (rewrite Hf; reflexivity).
    assert (Ht : token <> "") by (intros ->; discriminate Hlen).
    rewrite (@Kripke_decrypt_rejected _ verifier token r (mkWorld r [])
               (mkError TypeError msgNoSignature) Ht Hkey ltac:(lia)); [reflexivity|].
    unfold Kripke_decrypt_verify. rewrite Hk, Hlen. reflexivity.
  - destruct Hf as [h Hf].
    assert (Hlen : List.length (split token dollar) = 4%nat) by (rewrite Hf; reflexivity).
    assert (Ht : token <> "") by (intros ->; discriminate Hlen).
    rewrite (@Kripke_decrypt_rejected _ verifier token r (mkWorld r [])
               (mkError TypeError msgKeyRequired) Ht Hkey ltac:(lia)); [reflexivity|].
    unfold Kripke_decrypt_verify. rewrite Hk, Hlen. reflexivity.
Qed.

End Tampering.

Section PolicySymmetry.
Context {C : Crypto} {B64 : Base64Laws C}.

(** X4: policy symmetry between instances.  A token one instance's [encrypt]
    delivered, given to the [decrypt] of an instance whose HMAC key is
    configured when the first one's is not, or the other way round, is
    refused before any call into [crypto]: one callback, with the
    signature-missing error when the decrypting side has the key, with the
    key-required error when it lacks it. *)
Theorem policy_symmetry (signer verifier : Instance) (p : Value) (r r' : Rng)
    (token : string) :
  In token (delivered (trace (fst (run (encrypt signer p true) r)))) ->
  truthy (hmacKey signer) = negb (truthy (hmacKey verifier)) ->
  run (decrypt verifier (VStr token) true) r'
  = (mkWorld r'
       [EvCallback
          (Some (mkError TypeError
                   (if truthy (hmacKey verifier) then msgNoSignature else msgKeyRequired)))
          None],
     Returned tt).
Proof.
  intros Hin Hs. apply encrypt_delivers_fields in Hin.
  exact (decrypt_policy_mismatch verifier r' Hin Hs).
Qed.

(** X5: policy symmetry between static calls: the same, for a token the
    static [encrypt] delivered and the static [decrypt] with options that
    differ in having an HMAC key. *)
Theorem Kripke_policy_symmetry (signer verifier : Options.t) (p : Value) (r r' : Rng)
    (token : string) :
  In token (delivered (trace (fst (run (Kripke_encrypt p signer true) r)))) ->
  truthy (Options.key verifier) = true ->
  truthy (Options.hmacKey signer) = negb (truthy (Options.hmacKey verifier)) ->
  run (Kripke_decrypt (VStr token) verifier true) r'
  = (mkWorld r'
       [EvCallback
          (Some (mkError TypeError
                   (if truthy (Options.hmacKey verifier)
                    then msgNoSignature else msgKeyRequired)))
          None],
     Returned tt).
Proof.
  intros Hin Hkey Hs. apply Kripke_encrypt_delivers_fields in Hin.
  exact (Kripke_decrypt_policy_mismatch verifier r' Hkey Hin Hs).
Qed.

End PolicySymmetry.

Section TamperingOnReference.
#[local] Existing Instance Ref.crypto.

(** The token made for ['hi'], with the character at index 10 replaced. *)
Lemma tamper_detected_witness :
  let self := Ref.instanceOf Ref.options2 in
  let token :=
    hd EmptyString (delivered (trace (fst (run (encrypt self (VStr "hi") true) Ref.rng0)))) in
  let tampered := substr token 0 10 ++ "0" ++ substr token 11 1000 in
  callbacks (trace (fst (run (decrypt self (VStr tampered) true) Ref.rng0)))
  = [(Some (mkError PlainError msgVerification), None)]
  /\ callbacks (trace (fst (run (Kripke_decrypt (VStr tampered) Ref.options2 true) Ref.rng0)))
     = [(Some (mkError PlainError msgVerification), None)].
Proof.
  intros self token tampered.
  pose proof (@tamper_detected Ref.crypto Ref.options2 self tampered
                (Ref.bytesOf (VStr "hk")
                 ++ rev (list_byte_of_string
                           (join (firstn 3 (split tampered dollar)) dollar)))%list
                Ref.rng0 eq_refl eq_refl ltac:(vm_compute; reflexivity) eq_refl
                ltac:(vm_compute; discriminate)) as H.
  cbv zeta in H. destruct H as [H1 H2].
  rewrite H1, H2. split; reflexivity.
Defined.

Lemma policy_symmetry_witness :
  let signer := Ref.instanceOf Ref.options2 in
  let verifier := Ref.instanceOf Ref.options1 in
  let token :=
    hd EmptyString (delivered (trace (fst (run (encrypt signer (VStr "hi") true) Ref.rng0)))) in
  run (decrypt verifier (VStr token) true) Ref.rng0
  = (mkWorld Ref.rng0 [EvCallback (Some (mkError TypeError msgKeyRequired)) None],
     Returned tt).
Proof.
  intros signer verifier token.
  exact (@policy_symmetry Ref.crypto Ref_base64_laws signer verifier (VStr "hi")
           Ref.rng0 Ref.rng0 token ltac:(vm_compute; left; reflexivity) eq_refl).
Defined.

Lemma Kripke_policy_symmetry_witness :
  let token :=
    hd EmptyString
      (delivered (trace (fst (run (Kripke_encrypt (VStr "hi") Ref.options1 true) Ref.rng0)))) in
  run (Kripke_decrypt (VStr token) Ref.options2 true) Ref.rng0
  = (mkWorld Ref.rng0 [EvCallback (Some (mkError TypeError msgNoSignature)) None],
     Returned tt).
Proof.
  intros token.
  exact (@Kripke_policy_symmetry Ref.crypto Ref_base64_laws Ref.options1 Ref.options2
           (VStr "hi") Ref.rng0 Ref.rng0 token ltac:(vm_compute; left; reflexivity)
           eq_refl eq_refl).
Defined.

End TamperingOnReference.

(** ** What a delivered token holds *)

Section DeliveredTokens.
Context {C : Crypto}.

(** A token [encrypt] delivered tells how the run went. *)
Lemma encrypt_delivered_inv (self : Instance) (p : Value) (hasCallback : bool)
    (r : Rng) (token : string) :
  In token (delivered (trace (fst (run (encrypt self p hasCallback) r)))) ->
  let salt := draw r 16 in
  let iv := draw (advance r 16) 16 in
  exists dk c,
    kdf (key self) salt (iterations self) (keyLength self) (hmacAlgorithm self) = KdfKey dk
    /\ cipherBytes (algorithm self) dk iv p = Returned c
    /\ if truthy (hmacKey self)
       then exists h,
           hmacBytes (hmacAlgorithm self) (hmacKey self) (envelope (base64Encode c) iv salt)
           = Returned h
           /\ token = envelope (base64Encode c) iv salt ++ String dollar (base64Encode h)
       else token = envelope (base64Encode c) iv salt.
Proof.
  destruct hasCallback; [|rewrite encrypt_refused by auto; intros []].
  destruct (invalidPlainText p) eqn:Hp; [rewrite encrypt_refused by auto; intros []|].
  rewrite (encrypt_run self p r Hp). cbv zeta.
  destruct (kdf _ _ _ _ _) as [e|e|dk] eqn:Hkdf; try (cbn; tauto).
  destruct (cipherBytes _ _ _ _) as [c|e] eqn:Hc; try (cbn; tauto).
  destruct (truthy (hmacKey self)) eqn:Hk.
  - destruct (hmacBytes _ _ _) as [h|e] eqn:Hh; try (cbn; tauto).
    unfold after. cbn [fst trace delivered flat_map app].
    intros [<-|[]]. exists dk, c.
    split; [reflexivity|]. split; [exact Hc|]. exists h. split; [exact Hh | reflexivity].
  - unfold after. cbn [fst trace delivered flat_map app].
    intros [<-|[]]. exists dk, c.
    split; [reflexivity|]. split; [exact Hc | reflexivity].
Qed.

Lemma Kripke_encrypt_delivered_inv (o : Options.t) (p : Value) (hasCallback : bool)
    (r : Rng) (token : string) :
  In token (delivered (trace (fst (run (Kripke_encrypt p o hasCallback) r)))) ->
  let iv := draw r 16 in
  let salt := draw (advance r 16) 16 in
  let hmacAlgorithm := orString (Options.hmacAlgorithm o) "SHA256" in
  exists dk c,
    kdf (Options.key o) salt (orNumber (Options.iterations o) defaultIterations) 32
      hmacAlgorithm = KdfKey dk
    /\ cipherBytes (orString (Options.algorithm o) "AES-256-CBC") dk iv p = Returned c
    /\ if truthy (Options.hmacKey o)
       then exists h,
           hmacBytes hmacAlgorithm (Options.hmacKey o) (envelope (base64Encode c) iv salt)
           = Returned h
           /\ token = envelope (base64Encode c) iv salt ++ String dollar (base64Encode h)
       else token = envelope (base64Encode c) iv salt.
Proof.
  destruct hasCallback; [|rewrite Kripke_encrypt_refused by auto; intros []].
  destruct (truthy (Options.key o)) eqn:Hkey;
    [|rewrite Kripke_encrypt_refused by auto; intros []].
  destruct (invalidPlainText p) eqn:Hp;
    [rewrite Kripke_encrypt_refused by auto; intros []|].
  rewrite (Kripke_encrypt_run o p r Hkey Hp). cbv zeta.
  destruct (kdf _ _ _ _ _) as [e|e|dk] eqn:Hkdf; try (cbn; tauto).
  destruct (cipherBytes _ _ _ _) as [c|e] eqn:Hc; try (cbn; tauto).
  destruct (truthy (Options.hmacKey o)) eqn:Hk.
  - destruct (hmacBytes _ _ _) as [h|e] eqn:Hh; try (cbn; tauto).
    unfold after. cbn [fst trace delivered flat_map app].
    intros [<-|[]]. exists dk, c.
    split; [reflexivity|]. split; [exact Hc|]. exists h. split; [exact Hh | reflexivity].
  - unfold after. cbn [fst trace delivered flat_map app].
    intros [<-|[]]. exists dk, c.
    split; [reflexivity|]. split; [exact Hc | reflexivity].
Qed.

End DeliveredTokens.

(** ** The fields of a delivered token *)

Section TokenFieldsOfRun.
Context {C : Crypto} {B64 : Base64Laws C}.

(** C6: a token that [encrypt] hands to the callback without an error splits
    on the delimiter into exactly the fields of its run: the base64 of the
    bytes the cipher made of the plain text under the derived key and the
    run's iv, the base64 of that iv, the base64 of the salt the key was
    derived from; and, exactly when an HMAC key is configured, a fourth
    field, the base64 of the HMAC of the first three joined by the delimiter.
    So three fields without an HMAC key and four with one; in the instance
    form (which draws the salt first) and in the static form (which draws the
    iv first). *)
Theorem token_field_count (self : Instance) (o : Options.t) (p : Value)
    (hasCallback : bool) (r : Rng) (token : string) :
  (In token (delivered (trace (fst (run (encrypt self p hasCallback) r)))) ->
   let salt := draw r 16 in
   let iv := draw (advance r 16) 16 in
   exists dk c,
     kdf (key self) salt (iterations self) (keyLength self) (hmacAlgorithm self) = KdfKey dk
     /\ cipherBytes (algorithm self) dk iv p = Returned c
     /\ (if truthy (hmacKey self)
         then exists h,
                hmacBytes (hmacAlgorithm self) (hmacKey self)
                  (join [base64Encode c; base64Encode iv; base64Encode salt] dollar)
                = Returned h
                /\ split token dollar
                   = [base64Encode c; base64Encode iv; base64Encode salt; base64Encode h]
         else split token dollar = [base64Encode c; base64Encode iv; base64Encode salt])
     /\ List.length (split token dollar) = if truthy (hmacKey self) then 4%nat else 3%nat)
  /\ (In token (delivered (trace (fst (run (Kripke_encrypt p o hasCallback) r)))) ->
      let algorithm := orString (Options.algorithm o) "AES-256-CBC" in
      let hmacAlgorithm := orString (Options.hmacAlgorithm o) "SHA256" in
      let iterations := orNumber (Options.iterations o) defaultIterations in
      let iv := draw r 16 in
      let salt := draw (advance r 16) 16 in
      exists dk c,
        kdf (Options.key o) salt iterations 32 hmacAlgorithm = KdfKey dk
        /\ cipherBytes algorithm dk iv p = Returned c
        /\ (if truthy (Options.hmacKey o)
            then exists h,
                   hmacBytes hmacAlgorithm (Options.hmacKey o)
                     (join [base64Encode c; base64Encode iv; base64Encode salt] dollar)
                   = Returned h
                   /\ split token dollar
                      = [base64Encode c; base64Encode iv; base64Encode salt; base64Encode h]
            else split token dollar = [base64Encode c; base64Encode iv; base64Encode salt])
        /\ List.length (split token dollar)
           = if truthy (Options.hmacKey o) then 4%nat else 3%nat).
Proof.
  split; intros H.
  - apply encrypt_delivered_inv in H. cbv zeta in H. cbv zeta.
    destruct H as [dk [c [Hkdf [Hc H]]]]. exists dk, c.
    split; [exact Hkdf|]. split; [exact Hc|].
    destruct (truthy (hmacKey self)).
    + destruct H as [h [Hh ->]]. rewrite split_signed_envelope.
      split; [|reflexivity]. exists h. split; [exact Hh | reflexivity].
    + rewrite H, split_envelope. split; reflexivity.
  - apply Kripke_encrypt_delivered_inv in H. cbv zeta in H. cbv zeta.
    destruct H as [dk [c [Hkdf [Hc H]]]]. exists dk, c.
    split; [exact Hkdf|]. split; [exact Hc|].
    destruct (truthy (Options.hmacKey o)).
    + destruct H as [h [Hh ->]]. rewrite split_signed_envelope.
      split; [|reflexivity]. exists h. split; [exact Hh | reflexivity].
    + rewrite H, split_envelope. split; reflexivity.
Qed.

End TokenFieldsOfRun.

Section TokenFieldsOnReference.
#[local] Existing Instance Ref.crypto.

Lemma token_field_count_witness :
  let self := Ref.instanceOf Ref.options2 in
  let token :=
    hd EmptyString (delivered (trace (fst (run (encrypt self (VStr "hi") true) Ref.rng0)))) in
  let token' :=
    hd EmptyString
      (delivered (trace (fst (run (Kripke_encrypt (VStr "hi") Ref.options1 true) Ref.rng0)))) in
  (exists c h,
      split token dollar
      = [base64Encode c; base64Encode (draw (advance Ref.rng0 16) 16);
         base64Encode (draw Ref.rng0 16); base64Encode h])
  /\ (exists c,
         split token' dollar
         = [base64Encode c; base64Encode (draw Ref.rng0 16);
            base64Encode (draw (advance Ref.rng0 16) 16)]).
Proof.
  intros self token token'.
  destruct (@token_field_count Ref.crypto Ref_base64_laws self Ref.options1
              (VStr "hi") true Ref.rng0 token) as [H1 _].
  destruct (@token_field_count Ref.crypto Ref_base64_laws self Ref.options1
              (VStr "hi") true Ref.rng0 token') as [_ H2].
  cbv zeta in H1, H2.
  split.
  - destruct (H1 ltac:(vm_compute; left; reflexivity)) as [dk [c [_ [_ [[h [_ Hs]] _]]]]].
    exists c, h. exact Hs.
  - destruct (H2 ltac:(vm_compute; left; reflexivity)) as [dk [c [_ [_ [Hs _]]]]].
    exists c. exact Hs.
Defined.

End TokenFieldsOnReference.

Section DeliveredTokensDecoded.
Context {C : Crypto} {B64 : Base64Laws C}.

(** The second and third fields of a token made of [iv] and [salt]. *)
Lemma envelope_fields_decode (c iv salt : bytes) (token : string) :
  token = envelope (base64Encode c) iv salt
  \/ (exists h, token = envelope (base64Encode c) iv salt ++ String dollar (base64Encode h)) ->
  base64Decode (hd EmptyString (split token dollar)) = c
  /\ base64Decode (nth 1 (split token dollar) EmptyString) = iv
  /\ base64Decode (nth 2 (split token dollar) EmptyString) = salt.
Proof.
  intros [->|[h ->]].
  - rewrite split_envelope. cbn [hd nth]. rewrite !base64_decode_encode. auto.
  - rewrite split_signed_envelope. cbn [hd nth]. rewrite !base64_decode_encode. auto.
Qed.

Lemma encrypt_token_decodes (self : Instance) (p : Value) (hasCallback : bool)
    (r : Rng) (token : string) :
  In token (delivered (trace (fst (run (encrypt self p hasCallback) r)))) ->
  base64Decode (nth 1 (split token dollar) EmptyString) = draw (advance r 16) 16
  /\ base64Decode (nth 2 (split token dollar) EmptyString) = draw r 16.
Proof.
  intros H. apply encrypt_delivered_inv in H. cbv zeta in H.
  destruct H as [dk [c [_ [_ H]]]].
  apply (envelope_fields_decode c).
  destruct (truthy (hmacKey self)); [right | left; exact H].
  destruct H as [h [_ H]]. exists h. exact H.
Qed.

Lemma Kripke_encrypt_token_decodes (o : Options.t) (p : Value) (hasCallback : bool)
    (r : Rng) (token : string) :
  In token (delivered (trace (fst (run (Kripke_encrypt p o hasCallback) r)))) ->
  base64Decode (nth 1 (split token dollar) EmptyString) = draw r 16
  /\ base64Decode (nth 2 (split token dollar) EmptyString) = draw (advance r 16) 16.
Proof.
  intros H. apply Kripke_encrypt_delivered_inv in H. cbv zeta in H.
  destruct H as [dk [c [_ [_ H]]]].
  apply (envelope_fields_decode c).
  destruct (truthy (Options.hmacKey o)); [right | left; exact H].
  destruct H as [h [_ H]]. exists h. exact H.
Qed.

(** X6: a delivered token carries the randomness of its run.  Its second
    field decodes to the iv and its third to the salt: in the instance form
    the salt is the first 16 bytes drawn and the iv the next 16, in the static
    form the iv comes first. *)
Theorem token_carries_salt_and_iv (self : Instance) (o : Options.t) (p : Value)
    (hasCallback : bool) (r : Rng) (token : string) :
  (In token (delivered (trace (fst (run (encrypt self p hasCallback) r)))) ->
   base64Decode (nth 1 (split token dollar) EmptyString) = draw (advance r 16) 16
   /\ base64Decode (nth 2 (split token dollar) EmptyString) = draw r 16)
  /\ (In token (delivered (trace (fst (run (Kripke_encrypt p o hasCallback) r)))) ->
      base64Decode (nth 1 (split token dollar) EmptyString) = draw r 16
      /\ base64Decode (nth 2 (split token dollar) EmptyString) = draw (advance r 16) 16).
Proof.
  split; intros H.
  - exact (encrypt_token_decodes _ _ _ _ _ H).
  - exact (Kripke_encrypt_token_decodes _ _ _ _ _ H).
Qed.

(** X7: fresh randomness gives a fresh token.  Two runs of [encrypt], of any
    instances on any plain texts, whose 32 drawn bytes differ deliver
    different tokens. *)
Theorem fresh_entropy_fresh_token (self1 self2 : Instance) (p1 p2 : Value) (r1 r2 : Rng)
    (token1 token2 : string) :
  In token1 (delivered (trace (fst (run (encrypt self1 p1 true) r1)))) ->
  In token2 (delivered (trace (fst (run (encrypt self2 p2 true) r2)))) ->
  draw r1 16 <> draw r2 16 \/ draw (advance r1 16) 16 <> draw (advance r2 16) 16 ->
  token1 <> token2.
Proof.
  intros H1 H2 Hd Heq. subst token2.
  apply encrypt_token_decodes in H1. apply encrypt_token_decodes in H2.
  destruct H1 as [Hiv1 Hsalt1]. destruct H2 as [Hiv2 Hsalt2].
  destruct Hd as [Hd|Hd]; apply Hd; congruence.
Qed.

(** X8: [verify] accepts every token the same instance's [encrypt] delivered,
    signed or not. *)
Theorem delivered_token_verifies (self : Instance) (p : Value) (hasCallback : bool)
    (r : Rng) (token : string) (w : World) :
  In token (delivered (trace (fst (run (encrypt self p hasCallback) r)))) ->
  snd (verify self token w) = Returned true.
Proof.
  intros H. apply encrypt_delivered_inv in H. cbv zeta in H.
  destruct H as [dk [c [_ [_ H]]]].
  destruct (truthy (hmacKey self)) eqn:Hk.
  - destruct H as [h [Hh ->]].
    rewrite (verify_own_signed self c _ _ w Hk Hh). reflexivity.
  - subst token. rewrite (verify_own_unsigned self c _ _ w Hk). reflexivity.
Qed.

(** X9: [decrypt] takes up where [encrypt] left.  On a token the instance's
    [encrypt] delivered, [decrypt] asks for one key derivation, the one
    [encrypt] asked for (same password, salt, iterations, length and digest),
    and deciphers the bytes the cipher produced with the key and the iv
    [encrypt] used. *)
Theorem decrypt_resumes_encrypt (self : Instance) (p : Value) (r r' : Rng)
    (token : string) :
  In token (delivered (trace (fst (run (encrypt self p true) r)))) ->
  let salt := draw r 16 in
  let iv := draw (advance r 16) 16 in
  let dec := trace (fst (run (decrypt self (VStr token) true) r')) in
  exists dk c,
    kdf (key self) salt (iterations self) (keyLength self) (hmacAlgorithm self) = KdfKey dk
    /\ cipherBytes (algorithm self) dk iv p = Returned c
    /\ derivations dec
       = [EvPbkdf2 (key self) salt (iterations self) (keyLength self) (hmacAlgorithm self)]
    /\ derivations dec
       = derivations (trace (fst (run (encrypt self p true) r)))
    /\ In (EvDecipher (algorithm self) dk iv c) dec.
Proof.
  intros Hin salt iv dec.
  pose proof (encrypt_delivered_inv _ _ _ _ _ Hin) as Hinv. cbv zeta in Hinv.
  destruct Hinv as [dk [c [Hkdf [Hc Htok]]]]. fold salt iv in Hkdf, Hc, Htok.
  exists dk, c. split; [exact Hkdf|]. split; [exact Hc|].
  assert (Hp : invalidPlainText p = false).
  { destruct (invalidPlainText p) eqn:E; [|reflexivity].
    rewrite encrypt_refused in Hin by auto. destruct Hin. }
  assert (Henc : derivations (trace (fst (run (encrypt self p true) r)))
                 = [EvPbkdf2 (key self) salt (iterations self) (keyLength self)
                      (hmacAlgorithm self)]).
  { rewrite (encrypt_run self p r Hp). cbv zeta. fold salt iv. rewrite Hkdf, Hc.
    destruct (truthy (hmacKey self)); [|reflexivity].
    destruct (hmacBytes _ _ _); reflexivity. }
  rewrite Henc.
  assert (Hdec : forall w,
             verify self token (mkWorld r' []) = (w, Returned true) ->
             derivations (trace w) = [] ->
             hd EmptyString (split token dollar) = base64Encode c ->
             nth 1 (split token dollar) EmptyString = base64Encode iv ->
             nth 2 (split token dollar) EmptyString = base64Encode salt ->
             (3 <= List.length (split token dollar))%nat ->
             derivations dec
             = [EvPbkdf2 (key self) salt (iterations self) (keyLength self)
                  (hmacAlgorithm self)]
             /\ In (EvDecipher (algorithm self) dk iv c) dec).
  { intros w Hv Hw H0 H1 H2 Hlen. subst dec.
    rewrite (decrypt_verified self r' (fields_not_empty Hlen) Hlen Hv). cbv zeta.
    rewrite H0, H1, H2, !base64_decode_encode, Hkdf.
    destruct (decipherText _ _ _ _); unfold after; cbn [fst trace];
      rewrite !derivations_app, Hw; (split; [reflexivity|]);
      rewrite !in_app_iff; left; right; left; reflexivity. }
  destruct (truthy (hmacKey self)) eqn:Hk.
  - destruct Htok as [h [Hh ->]].
    destruct (Hdec _ (verify_own_signed self c iv salt (mkWorld r' []) Hk Hh))
      as [Hd Hi]; try (rewrite split_signed_envelope; cbn; auto; lia); [reflexivity|].
    auto.
  - subst token.
    destruct (Hdec _ (verify_own_unsigned self c iv salt (mkWorld r' []) Hk))
      as [Hd Hi]; try (rewrite split_envelope; cbn; auto; lia); [reflexivity|].
    auto.
Qed.

End DeliveredTokensDecoded.

Section DeliveredTokensOnReference.
#[local] Existing Instance Ref.crypto.

Lemma token_carries_salt_and_iv_witness :
  let token :=
    hd EmptyString
      (delivered (trace (fst (run (encrypt (Ref.instanceOf Ref.options2) (VStr "hi") true)
                                Ref.rng0)))) in
  base64Decode (nth 1 (split token dollar) EmptyString) = draw (advance Ref.rng0 16) 16
  /\ base64Decode (nth 2 (split token dollar) EmptyString) = draw Ref.rng0 16.
Proof.
  intros token.
  destruct (@token_carries_salt_and_iv Ref.crypto Ref_base64_laws
              (Ref.instanceOf Ref.options2) Ref.options2 (VStr "hi") true Ref.rng0 token)
    as [H _].
  apply H. vm_compute. left. reflexivity.
Defined.

Lemma fresh_entropy_fresh_token_witness :
  hd EmptyString
    (delivered (trace (fst (run (encrypt (Ref.instanceOf Ref.options2) (VStr "hi") true)
                              Ref.rng0))))
  <> hd EmptyString
       (delivered (trace (fst (run (encrypt (Ref.instanceOf Ref.options2) (VStr "hi") true)
                                 Ref.rngSwapped)))).
Proof.
  apply (@fresh_entropy_fresh_token Ref.crypto Ref_base64_laws
           (Ref.instanceOf Ref.options2) (Ref.instanceOf Ref.options2)
           (VStr "hi") (VStr "hi") Ref.rng0 Ref.rngSwapped).
  - vm_compute. left. reflexivity.
  - vm_compute. left. reflexivity.
  - left. vm_compute. discriminate.
Defined.

Lemma delivered_token_verifies_witness :
  let self := Ref.instanceOf Ref.options2 in
  let token :=
    hd EmptyString (delivered (trace (fst (run (encrypt self (VStr "hi") true) Ref.rng0)))) in
  snd (verify self token (mkWorld Ref.rng0 [])) = Returned true.
Proof.
  intros self token.
  apply (@delivered_token_verifies Ref.crypto Ref_base64_laws self (VStr "hi") true
           Ref.rng0 token).
  vm_compute. left. reflexivity.
Defined.

Lemma decrypt_resumes_encrypt_witness :
  let self := Ref.instanceOf Ref.options2 in
  let token :=
    hd EmptyString (delivered (trace (fst (run (encrypt self (VStr "hi") true) Ref.rng0)))) in
  derivations (trace (fst (run (decrypt self (VStr token) true) Ref.rng0)))
  = derivations (trace (fst (run (encrypt self (VStr "hi") true) Ref.rng0))).
Proof.
  intros self token.
  destruct (@decrypt_resumes_encrypt Ref.crypto Ref_base64_laws self (VStr "hi")
              Ref.rng0 Ref.rng0 token ltac:(vm_compute; left; reflexivity))
    as [dk [c [_ [_ [_ [H _]]]]]].
  exact H.
Defined.

End DeliveredTokensOnReference.

(** ** The callback contract *)

Section CallbackContract.
Context {C : Crypto}.

Lemma hmacs_app (t1 t2 : list Event) : hmacs (t1 ++ t2) = (hmacs t1 ++ hmacs t2)%list.
Proof. unfold hmacs. apply filter_app. Qed.

(** What [verify] does is the same from every world. *)
Lemma verify_closed (self : Instance) (text : string) :
  exists vt c,
    (forall r, verify self text (mkWorld r []) = (mkWorld r vt, c))
    /\ (vt = []
        \/ (truthy (hmacKey self) = true
            /\ exists d, vt = [EvHmac (hmacAlgorithm self) (hmacKey self) d])).
Proof.
  destruct (truthy (hmacKey self)) eqn:Hk.
  - destruct (Nat.ltb (List.length (split text dollar)) 4) eqn:E.
    + exists [], (Thrown (mkError TypeError msgNoSignature)). split; [|left; reflexivity].
      intros r. rewrite (verify_key _ _ _ Hk), E. reflexivity.
    + exists [EvHmac (hmacAlgorithm self) (hmacKey self)
                (substr text 0 (lastIndexOf text dollar))].
      exists (match hmacBytes (hmacAlgorithm self) (hmacKey self)
                      (substr text 0 (lastIndexOf text dollar)) with
              | Returned h =>
                  Returned (compareBuffers h
                              (base64Decode (nth 3 (split text dollar) EmptyString)))
              | Thrown e => Thrown e
              end).
      split.
      * intros r. rewrite (verify_key _ _ _ Hk), E. reflexivity.
      * right. split; [reflexivity|]. eexists. reflexivity.
  - destruct (Nat.eqb (List.length (split text dollar)) 4) eqn:E.
    + exists [], (Thrown (mkError TypeError msgKeyRequired)). split; [|left; reflexivity].
      intros r. rewrite (verify_no_key _ _ _ Hk), E. reflexivity.
    + exists [], (Returned true). split; [|left; reflexivity].
      intros r. rewrite (verify_no_key _ _ _ Hk), E. reflexivity.
Qed.

End CallbackContract.

(** Closes the three readings of an explicit trace: the callback contract,
    no error with a result, no HMAC without a key. *)
Ltac read_trace :=
  split;
  [ intros; unfold oneOutcome; cbn [fst snd trace];
    first [ left; eexists; split; reflexivity | right; split; reflexivity ]
  | split;
    [ unfold errorOrResult; cbn;
      repeat first [ apply Forall_nil | apply Forall_cons ]; cbn; auto
    | intros; first [ reflexivity | congruence ] ] ].

Section CallbackContractRuns.
Context {C : Crypto}.

Lemma decrypt_facts (self : Instance) (v : Value) (hasCallback : bool) :
  exists tr c,
    (forall r, run (decrypt self v hasCallback) r = (mkWorld r tr, c))
    /\ (forall r, oneOutcome (mkWorld r tr, c))
    /\ errorOrResult tr
    /\ (truthy (hmacKey self) = false -> hmacs tr = []).
Proof.
  destruct hasCallback.
  2: { exists [], (Thrown (mkError TypeError msgNoCallback)).
       split; [intros r; reflexivity | read_trace]. }
  destruct (invalidCipherText v) eqn:Hv.
  { exists [], (Thrown (mkError TypeError msgCipherText)).
    split; [|read_trace].
    intros r. unfold run, decrypt. cbn [negb]. rewrite Hv. reflexivity. }
  destruct (invalidCipherText_false _ Hv) as [text [-> Ht]].
  destruct (Nat.ltb (List.length (split text dollar)) 3) eqn:E.
  { apply Nat.ltb_lt in E.
    exists [EvCallback (Some (mkError TypeError msgEncodedText)) None], (Returned tt).
    split; [intros r; apply decrypt_short; assumption | read_trace]. }
  apply Nat.ltb_ge in E.
  destruct (verify_closed self text) as [vt [c [Hver Hvt]]].
  destruct c as [[|]|e].
  - destruct (kdf (key self) (base64Decode (nth 2 (split text dollar) EmptyString))
                (iterations self) (keyLength self) (hmacAlgorithm self))
      as [e|e|dk] eqn:Hkdf.
    + eexists (vt ++ [_] ++ [_])%list, _. split.
      * intros r. rewrite (decrypt_verified self r Ht E (Hver r)). cbv zeta.
        rewrite Hkdf. unfold after. cbn [rng trace]. rewrite <- !app_assoc. reflexivity.
      * destruct Hvt as [->|[Hk [d ->]]]; read_trace.
    + eexists (vt ++ [_] ++ [_])%list, _. split.
      * intros r. rewrite (decrypt_verified self r Ht E (Hver r)). cbv zeta.
        rewrite Hkdf. unfold after. cbn [rng trace]. rewrite <- !app_assoc. reflexivity.
      * destruct Hvt as [->|[Hk [d ->]]]; read_trace.
    + destruct (decipherText (algorithm self) dk
                  (base64Decode (nth 1 (split text dollar) EmptyString))
                  (base64Decode (hd EmptyString (split text dollar)))) as [t|e] eqn:Hd.
      * eexists (vt ++ [_] ++ [_] ++ [_])%list, _. split.
        -- intros r. rewrite (decrypt_verified self r Ht E (Hver r)). cbv zeta.
           rewrite Hkdf, Hd. unfold after. cbn [rng trace]. rewrite <- !app_assoc.
           reflexivity.
        -- destruct Hvt as [->|[Hk [d ->]]]; read_trace.
      * eexists (vt ++ [_] ++ [_] ++ [_])%list, _. split.
        -- intros r. rewrite (decrypt_verified self r Ht E (Hver r)). cbv zeta.
           rewrite Hkdf, Hd. unfold after. cbn [rng trace]. rewrite <- !app_assoc.
           reflexivity.
        -- destruct Hvt as [->|[Hk [d ->]]]; read_trace.
  - eexists (vt ++ [_])%list, _. split.
    + intros r.
      rewrite (decrypt_rejected self r Ht E (Hver r) ltac:(discriminate)). reflexivity.
    + destruct Hvt as [->|[Hk [d ->]]]; read_trace.
  - eexists (vt ++ [_])%list, _. split.
    + intros r.
      rewrite (decrypt_rejected self r Ht E (Hver r) ltac:(discriminate)). reflexivity.
    + destruct Hvt as [->|[Hk [d ->]]]; read_trace.
Qed.

End CallbackContractRuns.

Section CallbackContractStatic.
Context {C : Crypto}.

Lemma Kripke_decrypt_facts (o : Options.t) (v : Value) (hasCallback : bool) :
  exists tr c,
    (forall r, run (Kripke_decrypt v o hasCallback) r = (mkWorld r tr, c))
    /\ (forall r, oneOutcome (mkWorld r tr, c))
    /\ errorOrResult tr
    /\ (truthy (Options.hmacKey o) = false -> hmacs tr = []).
Proof.
  destruct hasCallback.
  2: { exists [], (Thrown (mkError PlainError msgNoCallback)).
       split; [intros r; reflexivity | read_trace]. }
  destruct (invalidCipherText v) eqn:Hv.
  { exists [], (Thrown (mkError TypeError msgCipherText)).
    split; [|read_trace].
    intros r. unfold run, Kripke_decrypt. cbn [negb]. rewrite Hv. reflexivity. }
  destruct (truthy (Options.key o)) eqn:Hkey.
  2: { exists [], (Thrown (mkError TypeError msgKey)).
       split; [|read_trace].
       intros r. unfold run, Kripke_decrypt. cbn [negb]. rewrite Hv, Hkey. reflexivity. }
  destruct (invalidCipherText_false _ Hv) as [text [-> Ht]].
  destruct (Nat.ltb (List.length (split text dollar)) 3) eqn:E.
  { apply Nat.ltb_lt in E.
    exists [], (Thrown (mkError TypeError msgBuffer)).
    split; [intros r; apply Kripke_decrypt_short; assumption | read_trace]. }
  apply Nat.ltb_ge in E.
  pose (k := mkInstance (Options.key o) (Options.hmacKey o) 0
               (orString (Options.hmacAlgorithm o) "SHA256") 32 "").
  destruct (verify_closed k text) as [vt [c [Hver Hvt]]].
  cbn [hmacKey hmacAlgorithm k] in Hvt.
  assert (Hw : forall r,
             Kripke_decrypt_verify o (orString (Options.hmacAlgorithm o) "SHA256") text
               (split text dollar) (mkWorld r [])
             = (mkWorld r vt, Returned (errOfVerdict c))).
  { intros r. pose proof (Kripke_decrypt_verify_verdict k o text (mkWorld r []) eq_refl) as H.
    cbn [hmacAlgorithm k] in H. rewrite H, (Hver r). reflexivity. }
  destruct (errOfVerdict c) as [e|] eqn:Hc.
  - eexists (vt ++ [_])%list, _. split.
    + intros r. rewrite (Kripke_decrypt_rejected o r Ht Hkey E (Hw r)). reflexivity.
    + destruct Hvt as [->|[Hk [d ->]]]; read_trace.
  - destruct (kdf (Options.key o) (base64Decode (nth 2 (split text dollar) EmptyString))
                (orNumber (Options.iterations o) defaultIterations) 32
                (orString (Options.hmacAlgorithm o) "SHA256"))
      as [e|e|dk] eqn:Hkdf.
    + eexists (vt ++ [_])%list, _. split.
      * intros r. rewrite (Kripke_decrypt_verified o r Ht Hkey E (Hw r)). cbv zeta.
        rewrite Hkdf. reflexivity.
      * destruct Hvt as [->|[Hk [d ->]]]; read_trace.
    + eexists (vt ++ [_] ++ [_])%list, _. split.
      * intros r. rewrite (Kripke_decrypt_verified o r Ht Hkey E (Hw r)). cbv zeta.
        rewrite Hkdf. unfold after. cbn [rng trace]. rewrite <- !app_assoc. reflexivity.
      * destruct Hvt as [->|[Hk [d ->]]]; read_trace.
    + destruct (decipherText (orString (Options.algorithm o) "AES-256-CBC") dk
                  (base64Decode (nth 1 (split text dollar) EmptyString))
                  (base64Decode (hd EmptyString (split text dollar)))) as [t|e] eqn:Hd.
      * eexists (vt ++ [_] ++ [_] ++ [_])%list, _. split.
        -- intros r. rewrite (Kripke_decrypt_verified o r Ht Hkey E (Hw r)). cbv zeta.
           rewrite Hkdf, Hd. unfold after. cbn [rng trace]. rewrite <- !app_assoc.
           reflexivity.
        -- destruct Hvt as [->|[Hk [d ->]]]; read_trace.
      * eexists (vt ++ [_] ++ [_] ++ [_])%list, _. split.
        -- intros r. rewrite (Kripke_decrypt_verified o r Ht Hkey E (Hw r)). cbv zeta.
           rewrite Hkdf, Hd. unfold after. cbn [rng trace]. rewrite <- !app_assoc.
           reflexivity.
        -- destruct Hvt as [->|[Hk [d ->]]]; read_trace.
Qed.

Lemma encrypt_facts (self : Instance) (p : Value) (hasCallback : bool) (r : Rng) :
  oneOutcome (run (encrypt self p hasCallback) r)
  /\ errorOrResult (trace (fst (run (encrypt self p hasCallback) r)))
  /\ (truthy (hmacKey self) = false ->
      hmacs (trace (fst (run (encrypt self p hasCallback) r))) = []).
Proof.
  destruct hasCallback; [|read_trace].
  destruct (invalidPlainText p) eqn:Hp.
  { unfold run, encrypt. cbn [negb]. rewrite Hp. read_trace. }
  rewrite (encrypt_run self p r Hp). cbv zeta.
  destruct (kdf _ _ _ _ _) as [e|e|dk]; try (unfold after; read_trace).
  destruct (cipherBytes _ _ _ _) as [c|e]; try (unfold after; read_trace).
  destruct (truthy (hmacKey self)) eqn:Hk; try (unfold after; cbn [trace]; read_trace).
  destruct (hmacBytes _ _ _) as [h|e]; unfold after; cbn [trace]; read_trace.
Qed.

Lemma Kripke_encrypt_facts (o : Options.t) (p : Value) (hasCallback : bool) (r : Rng) :
  oneOutcome (run (Kripke_encrypt p o hasCallback) r)
  /\ (truthy (Options.hmacKey o) = false ->
      errorOrResult (trace (fst (run (Kripke_encrypt p o hasCallback) r)))
      /\ hmacs (trace (fst (run (Kripke_encrypt p o hasCallback) r))) = []).
Proof.
  assert (Hre : forall (out : World * Completion unit) (P : Prop),
             oneOutcome out
             /\ errorOrResult (trace (fst out)) /\ (P -> hmacs (trace (fst out)) = []) ->
             oneOutcome out
             /\ (P -> errorOrResult (trace (fst out)) /\ hmacs (trace (fst out)) = [])).
  { intros out P [H1 [H2 H3]]. auto. }
  destruct hasCallback; [|apply Hre; read_trace].
  destruct (truthy (Options.key o)) eqn:Hkey.
  2: { unfold run, Kripke_encrypt. cbn [negb]. rewrite Hkey. apply Hre. read_trace. }
  destruct (invalidPlainText p) eqn:Hp.
  { unfold run, Kripke_encrypt. cbn [negb]. rewrite Hkey, Hp. apply Hre. read_trace. }
  rewrite (Kripke_encrypt_run o p r Hkey Hp). cbv zeta.
  destruct (kdf _ _ _ _ _) as [e|e|dk]; try (apply Hre; unfold after; read_trace).
  destruct (cipherBytes _ _ _ _) as [c|e]; try (apply Hre; unfold after; read_trace).
  destruct (truthy (Options.hmacKey o)) eqn:Hk;
    try (apply Hre; unfold after; cbn [trace]; read_trace).
  split; [|intros; congruence].
  destruct (hmacBytes _ _ _) as [h|e]; unfold after, oneOutcome; cbn [fst snd trace];
    right; split; reflexivity.
Qed.

End CallbackContractStatic.

Section CallbackContractTheorems.
Context {C : Crypto}.

(** X10: the callback contract.  Every call of the four functions, on any
    arguments, either throws without ever invoking the callback or returns
    after invoking it exactly once. *)
Theorem callback_exactly_once (self : Instance) (o : Options.t) (p v : Value)
    (hasCallback : bool) (r : Rng) :
  oneOutcome (run (encrypt self p hasCallback) r)
  /\ oneOutcome (run (decrypt self v hasCallback) r)
  /\ oneOutcome (run (Kripke_encrypt p o hasCallback) r)
  /\ oneOutcome (run (Kripke_decrypt v o hasCallback) r).
Proof.
  split; [apply encrypt_facts|]. split; [|split; [apply Kripke_encrypt_facts|]].
  - destruct (decrypt_facts self v hasCallback) as [tr [c [Hrun [H _]]]].
    rewrite Hrun. apply H.
  - destruct (Kripke_decrypt_facts o v hasCallback) as [tr [c [Hrun [H _]]]].
    rewrite Hrun. apply H.
Qed.

(** X11: the instance methods and the static [decrypt] never hand the
    callback an error together with a result. *)
Theorem never_error_with_result (self : Instance) (o : Options.t) (p v : Value)
    (hasCallback : bool) (r : Rng) :
  errorOrResult (trace (fst (run (encrypt self p hasCallback) r)))
  /\ errorOrResult (trace (fst (run (decrypt self v hasCallback) r)))
  /\ errorOrResult (trace (fst (run (Kripke_decrypt v o hasCallback) r))).
Proof.
  split; [apply encrypt_facts|]. split.
  - destruct (decrypt_facts self v hasCallback) as [tr [c [Hrun [_ [H _]]]]].
    rewrite Hrun. exact H.
  - destruct (Kripke_decrypt_facts o v hasCallback) as [tr [c [Hrun [_ [H _]]]]].
    rewrite Hrun. exact H.
Qed.

(** X12: the static [encrypt] is the exception.  When the HMAC throws after
    the cipher has succeeded, it hands the callback the error together with
    the token it had assembled, unsigned; the instance [encrypt] hands it the
    error alone. *)
Theorem hmac_failure_reporting (self : Instance) (o : Options.t) (p : Value) (r : Rng)
    (dk dk' c c' : bytes) (e e' : JsError) :
  invalidPlainText p = false ->
  truthy (Options.key o) = true ->
  truthy (Options.hmacKey o) = true ->
  truthy (hmacKey self) = true ->
  let first16 := draw r 16 in
  let next16 := draw (advance r 16) 16 in
  let hmacAlgorithm' := orString (Options.hmacAlgorithm o) "SHA256" in
  kdf (Options.key o) next16 (orNumber (Options.iterations o) defaultIterations) 32
    hmacAlgorithm' = KdfKey dk ->
  cipherBytes (orString (Options.algorithm o) "AES-256-CBC") dk first16 p = Returned c ->
  hmacBytes hmacAlgorithm' (Options.hmacKey o) (envelope (base64Encode c) first16 next16)
  = Thrown e ->
  kdf (key self) first16 (iterations self) (keyLength self) (hmacAlgorithm self)
  = KdfKey dk' ->
  cipherBytes (algorithm self) dk' next16 p = Returned c' ->
  hmacBytes (hmacAlgorithm self) (hmacKey self) (envelope (base64Encode c') next16 first16)
  = Thrown e' ->
  callbacks (trace (fst (run (Kripke_encrypt p o true) r)))
  = [(Some e, Some (envelope (base64Encode c) first16 next16))]
  /\ callbacks (trace (fst (run (encrypt self p true) r))) = [(Some e', None)].
Proof.
  intros Hp Hkey Hhk Hhk' first16 next16 alg' Hkdf Hc Hh Hkdf' Hc' Hh'. split.
  - rewrite (Kripke_encrypt_run o p r Hkey Hp). cbv zeta.
    fold first16 next16 alg'. rewrite Hkdf, Hc, Hhk, Hh. reflexivity.
  - rewrite (encrypt_run self p r Hp). cbv zeta.
    fold first16 next16. rewrite Hkdf', Hc', Hhk', Hh'. reflexivity.
Qed.

(** X13: an error [pbkdf2] passes to its callback reaches the caller of the
    static [decrypt], and is dropped by the instance [decrypt], which calls
    back with neither an error nor a result. *)
Theorem kdf_failure_reporting (o : Options.t) (self : Instance) (text : string) (r : Rng)
    (e e' : JsError) :
  Kripke (Some o) = Returned self ->
  (3 <= List.length (split text dollar))%nat ->
  snd (verify self text (mkWorld r [])) = Returned true ->
  let salt := base64Decode (nth 2 (split text dollar) EmptyString) in
  kdf (key self) salt (iterations self) (keyLength self) (hmacAlgorithm self) = KdfFails e ->
  kdf (key self) salt (iterations self) 32 (hmacAlgorithm self) = KdfFails e' ->
  callbacks (trace (fst (run (decrypt self (VStr text) true) r))) = [(None, None)]
  /\ callbacks (trace (fst (run (Kripke_decrypt (VStr text) o true) r))) = [(Some e', None)].
Proof.
  intros HK Hlen Hv salt Hf Hf'.
  destruct (Kripke_returns o HK) as [Hkey [Ek [Eh [Ei [Ea _]]]]].
  destruct (verify self text (mkWorld r [])) as [w c] eqn:Ev. cbn [snd] in Hv. subst c.
  destruct (verify_trace_quiet _ _ _ Ev) as [Hcb _].
  split.
  - eapply decrypt_kdf_fails; eassumption.
  - pose proof (Kripke_decrypt_verify_verdict self o text (mkWorld r []) Eh) as Hw.
    rewrite Ev, Ea in Hw. cbn [fst snd errOfVerdict] in Hw.
    rewrite (Kripke_decrypt_verified o r (fields_not_empty Hlen) Hkey Hlen Hw). cbv zeta.
    fold salt. rewrite <- Ek, <- Ei, <- Ea, Hf'.
    unfold after. cbn [fst trace]. rewrite !callbacks_app, Hcb. reflexivity.
Qed.

(** X14: [decrypt] draws no randomness and does not depend on any: what it
    records and how it completes are the same whatever the entropy source,
    which it leaves as it found it.  So do the instance method and the static
    function. *)
Theorem decrypt_ignores_entropy (self : Instance) (o : Options.t) (v : Value)
    (hasCallback : bool) :
  (exists tr c, forall r, run (decrypt self v hasCallback) r = (mkWorld r tr, c))
  /\ (exists tr c, forall r, run (Kripke_decrypt v o hasCallback) r = (mkWorld r tr, c)).
Proof.
  split.
  - destruct (decrypt_facts self v hasCallback) as [tr [c [Hrun _]]]. eauto.
  - destruct (Kripke_decrypt_facts o v hasCallback) as [tr [c [Hrun _]]]. eauto.
Qed.

(** X15: without an HMAC key no HMAC is ever computed, by none of the four
    functions and on no input. *)
Theorem no_hmac_without_key (self : Instance) (o : Options.t) (p v : Value)
    (hasCallback : bool) (r : Rng) :
  truthy (hmacKey self) = false ->
  truthy (Options.hmacKey o) = false ->
  hmacs (trace (fst (run (encrypt self p hasCallback) r))) = []
  /\ hmacs (trace (fst (run (decrypt self v hasCallback) r))) = []
  /\ hmacs (trace (fst (run (Kripke_encrypt p o hasCallback) r))) = []
  /\ hmacs (trace (fst (run (Kripke_decrypt v o hasCallback) r))) = [].
Proof.
  intros Hk Hk'. split; [apply encrypt_facts; exact Hk|]. split; [|split].
  - destruct (decrypt_facts self v hasCallback) as [tr [c [Hrun [_ [_ H]]]]].
    rewrite Hrun. exact (H Hk).
  - apply Kripke_encrypt_facts. exact Hk'.
  - destruct (Kripke_decrypt_facts o v hasCallback) as [tr [c [Hrun [_ [_ H]]]]].
    rewrite Hrun. exact (H Hk').
Qed.

End CallbackContractTheorems.

Section CallbackContractOnReference.

Lemma hmac_failure_reporting_witness :
  let self := Ref.instanceOf Ref.options2 in
  let e := mkError TypeError "Not a string or buffer" in
  (exists unsigned,
      callbacks (trace (fst (run (@Kripke_encrypt refHmacThrows (VStr "hi") Ref.options2 true)
                               Ref.rng0)))
      = [(Some e, Some unsigned)])
  /\ callbacks (trace (fst (run (@encrypt refHmacThrows self (VStr "hi") true) Ref.rng0)))
     = [(Some e, None)].
Proof.
  intros self e.
  edestruct (@hmac_failure_reporting refHmacThrows self Ref.options2 (VStr "hi") Ref.rng0)
    as [H1 H2]; try reflexivity.
  split; [eexists; exact H1 | exact H2].
Defined.

Lemma kdf_failure_reporting_witness :
  let self := Ref.instanceOf Ref.options1 in
  callbacks (trace (fst (run (@decrypt refKdfFails self (VStr "a$b$c") true) Ref.rng0)))
  = [(None, None)]
  /\ callbacks (trace (fst (run (@Kripke_decrypt refKdfFails (VStr "a$b$c") Ref.options1 true)
                              Ref.rng0)))
     = [(Some (mkError PlainError "pbkdf2 failed"), None)].
Proof.
  intros self.
  exact (@kdf_failure_reporting refKdfFails Ref.options1 self "a$b$c" Ref.rng0
           (mkError PlainError "pbkdf2 failed") (mkError PlainError "pbkdf2 failed")
           eq_refl ltac:(vm_compute; lia) eq_refl eq_refl eq_refl).
Defined.

Lemma no_hmac_without_key_witness :
  let self := Ref.instanceOf Ref.options1 in
  hmacs (trace (fst (run (@encrypt Ref.crypto self (VStr "hi") true) Ref.rng0))) = []
  /\ hmacs (trace (fst (run (@decrypt Ref.crypto self (VStr "a$b$c$d") true) Ref.rng0))) = []
  /\ hmacs (trace (fst (run (@Kripke_encrypt Ref.crypto (VStr "hi") Ref.options1 true)
                          Ref.rng0))) = []
  /\ hmacs (trace (fst (run (@Kripke_decrypt Ref.crypto (VStr "a$b$c$d") Ref.options1 true)
                          Ref.rng0))) = [].
Proof.
  intros self.
  exact (@no_hmac_without_key Ref.crypto self Ref.options1 (VStr "hi") (VStr "a$b$c$d")
           true Ref.rng0 eq_refl eq_refl).
Defined.

End CallbackContractOnReference.

(** ** A missing key *)

Section MissingKey.
Context {C : Crypto}.

Lemma falsy_values (v : Value) :
  truthy v = false <-> v = VUndefined \/ v = VNull \/ v = VStr "".
Proof.
  split.
  - destruct v as [| |s|b]; cbn; auto; [|discriminate].
    intros H. apply negb_false_iff, String.eqb_eq in H. subst. auto.
  - intros [->|[->| ->]]; reflexivity.
Qed.

(** X16: a missing key.  When the key is [undefined], [null] or the empty
    string, the constructor throws the key error (as it does without any
    options), and so do the static functions before anything else happens:
    [encrypt] whatever the plain text, [decrypt] on every non-empty string
    token.  An empty Buffer is a key. *)
Theorem missing_key_rejected (o : Options.t) (p v : Value) (r : Rng) :
  Options.key o = VUndefined \/ Options.key o = VNull \/ Options.key o = VStr "" ->
  let keyError := mkError TypeError msgKey in
  Kripke (Some o) = Thrown keyError
  /\ Kripke None = Thrown keyError
  /\ run (Kripke_encrypt p o true) r = (mkWorld r [], Thrown keyError)
  /\ (invalidCipherText v = false ->
      run (Kripke_decrypt v o true) r = (mkWorld r [], Thrown keyError))
  /\ (forall o', Options.key o' = VBuf [] -> exists k, Kripke (Some o') = Returned k).
Proof.
  intros Hk keyError. apply falsy_values in Hk.
  split; [unfold Kripke; rewrite Hk; reflexivity|].
  split; [reflexivity|].
  split; [unfold run, Kripke_encrypt; cbn [negb]; rewrite Hk; reflexivity|].
  split.
  - intros Hv. unfold run, Kripke_decrypt. cbn [negb]. rewrite Hv, Hk. reflexivity.
  - intros o' Ho'. unfold Kripke. rewrite Ho'. cbn [truthy negb]. eexists. reflexivity.
Qed.

End MissingKey.

Lemma missing_key_rejected_witness :
  let o := Options.mk (VStr "") (VStr "hk") None None None None in
  Kripke (Some o) = Thrown (mkError TypeError msgKey)
  /\ run (@Kripke_encrypt Ref.crypto (VStr "hi") o true) Ref.rng0
     = (mkWorld Ref.rng0 [], Thrown (mkError TypeError msgKey)).
Proof.
  intros o.
  destruct (@missing_key_rejected Ref.crypto o (VStr "hi") (VStr "a$b$c") Ref.rng0
              (or_intror (or_intror eq_refl))) as [H1 [_ [H3 _]]].
  exact (conj H1 H3).
Defined.

(** ** The options a static call leaves behind *)

Lemma orString_idem (x : option string) (d : string) :
  orString (Some (orString x d)) d = orString x d.
Proof.
  unfold orString. destruct x as [s|].
  - destruct (String.eqb s "") eqn:E; [|rewrite E; reflexivity].
    destruct (String.eqb d ""); reflexivity.
  - destruct (String.eqb d ""); reflexivity.
Qed.

Lemma orNumber_idem (x : option Z) (d : Z) :
  orNumber (Some (orNumber x d)) d = orNumber x d.
Proof.
  unfold orNumber. destruct x as [n|].
  - destruct (n =? 0) eqn:E; [|rewrite E; reflexivity].
    destruct (d =? 0); reflexivity.
  - destruct (d =? 0); reflexivity.
Qed.

Section Defaulted.
Context {C : Crypto}.

(** X17: the defaults a static call writes into the caller's options change
    nothing afterwards.  Used again, the object the call leaves gives the same
    static [encrypt] and [decrypt] and the same instance as the object it was
    given, and a second call leaves it as it is. *)
Theorem defaulted_options_equivalent (o : Options.t) (p v : Value) (hasCallback : bool)
    (w : World) :
  defaulted (defaulted o) = defaulted o
  /\ Kripke (Some (defaulted o)) = Kripke (Some o)
  /\ Kripke_encrypt p (defaulted o) hasCallback w = Kripke_encrypt p o hasCallback w
  /\ Kripke_decrypt v (defaulted o) hasCallback w = Kripke_decrypt v o hasCallback w.
Proof.
  split; [|split; [|split]].
  - unfold defaulted. cbn [Options.key Options.hmacKey Options.algorithm
                             Options.hmacAlgorithm Options.iterations Options.keyLength].
    rewrite !orString_idem, orNumber_idem. reflexivity.
  - unfold Kripke, defaulted.
    cbn [Options.key Options.hmacKey Options.algorithm
           Options.hmacAlgorithm Options.iterations Options.keyLength].
    rewrite !orString_idem, orNumber_idem. reflexivity.
  - unfold Kripke_encrypt, defaulted.
    cbn [Options.key Options.hmacKey Options.algorithm
           Options.hmacAlgorithm Options.iterations Options.keyLength].
    rewrite !orString_idem, orNumber_idem. reflexivity.
  - unfold Kripke_decrypt, Kripke_decrypt_verify, defaulted.
    cbn [Options.key Options.hmacKey Options.algorithm
           Options.hmacAlgorithm Options.iterations Options.keyLength].
    rewrite !orString_idem, orNumber_idem. reflexivity.
Qed.

End Defaulted.

(** ** The length of the derived key *)

Section DerivedKeyLength.
Context {C : Crypto}.

(** X18: an instance built with [keyLength] 128, 192 or 256 asks [pbkdf2] for
    that many bits, 16, 24 or 32 bytes, with the configured or default
    iteration count and digest; the static [encrypt] with the same options
    asks for 32 bytes whatever [keyLength] says. *)
Theorem derived_key_length (o : Options.t) (self : Instance) (p : Value) (r : Rng) (n : Z) :
  Kripke (Some o) = Returned self ->
  invalidPlainText p = false ->
  Options.keyLength o = Some n ->
  n = 128 \/ n = 192 \/ n = 256 ->
  let iterations := orNumber (Options.iterations o) defaultIterations in
  let digest := orString (Options.hmacAlgorithm o) "SHA256" in
  derivations (trace (fst (run (encrypt self p true) r)))
  = [EvPbkdf2 (Options.key o) (draw r 16) iterations (n / 8) digest]
  /\ derivations (trace (fst (run (Kripke_encrypt p o true) r)))
     = [EvPbkdf2 (Options.key o) (draw (advance r 16) 16) iterations 32 digest].
Proof.
  intros HK Hp Hn Hsup iterations' digest.
  destruct (Kripke_returns o HK) as [Hkey [Ek [_ [Ei [Ea _]]]]].
  assert (Hlen : keyLength self = n / 8).
  { destruct (Kripke_keyLength_supported o HK) as [H128 [H192 H256]].
    destruct Hsup as [->|[->| ->]]; [rewrite (H128 Hn) | rewrite (H192 Hn) | rewrite (H256 Hn)];
      reflexivity. }
  split.
  - rewrite (encrypt_run self p r Hp). cbv zeta. rewrite Ek, Ei, Ea, Hlen.
    fold iterations' digest.
    destruct (kdf _ _ _ _ _) as [e|e|dk]; try reflexivity.
    destruct (cipherBytes _ _ _ _) as [c|e]; try reflexivity.
    destruct (truthy (hmacKey self)); try reflexivity.
    destruct (hmacBytes _ _ _); reflexivity.
  - rewrite (Kripke_encrypt_run o p r Hkey Hp). cbv zeta. fold iterations' digest.
    destruct (kdf _ _ _ _ _) as [e|e|dk]; try reflexivity.
    destruct (cipherBytes _ _ _ _) as [c|e]; try reflexivity.
    destruct (truthy (Options.hmacKey o)); try reflexivity.
    destruct (hmacBytes _ _ _); reflexivity.
Qed.

End DerivedKeyLength.

Lemma derived_key_length_witness :
  derivations (trace (fst (run (@encrypt Ref.crypto (Ref.instanceOf Ref.options128)
                                  (VStr "hi") true) Ref.rng0)))
  = [EvPbkdf2 (VStr "secret") (draw Ref.rng0 16) 10000 16 "SHA256"]
  /\ derivations (trace (fst (run (@Kripke_encrypt Ref.crypto (VStr "hi") Ref.options128 true)
                                Ref.rng0)))
     = [EvPbkdf2 (VStr "secret") (draw (advance Ref.rng0 16) 16) 10000 32 "SHA256"].
Proof.
  exact (@derived_key_length Ref.crypto Ref.options128 (Ref.instanceOf Ref.options128)
           (VStr "hi") Ref.rng0 128 eq_refl eq_refl eq_refl (or_introl eq_refl)).
Defined.
